(** * COMPLY.AI backend: the rule-analysis pipeline

    A shallow embedding of the Python modules
      - [backend/utils/file_selector.py]  (keyword filter, LLM file selection),
      - [backend/utils/json_parser.py]    (extraction and sanitizing of replies),
      - [backend/analyzer.py]             (rule analysis, prompt layout, aggregation),
      - [backend/utils/repo_handler.py]   (listing of a clone, its directory name),
      - [backend/main.py]                 (the extract of a rule for the frontend),
    followed by the properties of these functions.

    Conventions of the embedding.
      - A Python value read from JSON is a [pyval]; a Python [dict] is an
        association list in insertion order ([dict_get], [dict_set]).
      - A Python [str] is the [string] of the bytes of its UTF-8 form.
        [strip], [splitlines], slicing and iteration go by the characters
        of Unicode that these bytes encode; [in], [split] and the order of
        [sorted] are the same on bytes as on characters.
      - A finite [float] is kept by its exact rational value. The sum of
        floats is exact in the model, where CPython rounds to binary64;
        the true division of two ints is rounded and overflows as in
        CPython.
      - An exception is a value [exn]; a computation that may raise returns
        an [outcome].  Only subclasses of [Exception] are modelled.
      - Calls to the completion provider are logged in the [world], so that
        the number of calls a function makes can be stated.
      - The violation dicts that [aggregate_results] writes into are
        objects of a [store], held by reference.
      - [json.loads], [repr], [str.lower] and [int] on a [str] are
        parameters ([runtime]): every property holds whatever they return,
        given that on ASCII text the last two are [lower] and
        [int_of_str].
      - [print] calls have no counterpart. *)

From Stdlib Require Import ZArith QArith Qround Qabs Qpower Lia Lqa Bool Ascii DecimalString.
From stdpp Require Import gmap strings list sorting.

Set Warnings "-register-all".

(* ===================================================================== *)
(** ** Python strings *)
(* ===================================================================== *)

Module PyStr.

(** A character of ASCII, and a text of such characters only. *)
Definition is_ascii_char (c : ascii) : bool := (nat_of_ascii c <? 128)%nat.

Fixpoint is_ascii (s : string) : bool :=
  match s with
  | EmptyString => true
  | String c s' => is_ascii_char c && is_ascii s'
  end.

(** [str.lower()] on ASCII text: the letters A to Z change, nothing else
    does. On other text [str.lower] is the runtime's ([str_lower]). *)
Definition lower_char (c : ascii) : ascii :=
  let n := nat_of_ascii c in
  if (65 <=? n)%nat && (n <=? 90)%nat then ascii_of_nat (n + 32) else c.

Fixpoint lower (s : string) : string :=
  match s with
  | EmptyString => EmptyString
  | String c s' => String (lower_char c) (lower s')
  end.

(** [s.startswith(p)]. *)
Fixpoint starts_with (p s : string) : bool :=
  match p, s with
  | EmptyString, _ => true
  | String a p', String b s' => Ascii.eqb a b && starts_with p' s'
  | String _ _, EmptyString => false
  end.

(** [needle in hay], the substring test of Python's [in] on strings. *)
Fixpoint contains (needle hay : string) : bool :=
  starts_with needle hay ||
  match hay with
  | EmptyString => false
  | String _ hay' => contains needle hay'
  end.

(** The mathematical meaning of [contains]. *)
Definition is_substring (needle hay : string) : Prop :=
  exists pre post, hay = pre +:+ needle +:+ post.

(** The white space of ASCII as [str.strip()] sees it: tab to carriage
    return, the separators 28 to 31, and the space. *)
Definition is_space (c : ascii) : bool :=
  let n := nat_of_ascii c in
  ((9 <=? n)%nat && (n <=? 13)%nat) || ((28 <=? n)%nat && (n <=? 32)%nat).

(** The number of bytes of the white space character that [s] starts
    with, 0 when it starts with none: the characters for which
    [str.isspace] holds. Beyond ASCII these are U+0085 and U+00A0 (bytes
    194 133 and 194 160 in UTF-8), U+1680 (225 154 128), U+2000 to U+200A,
    U+2028, U+2029 and U+202F (226 128 followed by 128 to 138, 168, 169
    or 175), U+205F (226 129 159) and U+3000 (227 128 128). *)
Definition space_at (s : string) : nat :=
  match s with
  | EmptyString => 0
  | String c s' =>
      if is_space c then 1
      else
        match s' with
        | EmptyString => 0
        | String c2 s'' =>
            let n := nat_of_ascii c in
            let n2 := nat_of_ascii c2 in
            if (n =? 194)%nat then
              if (n2 =? 133)%nat || (n2 =? 160)%nat then 2 else 0
            else
              match s'' with
              | EmptyString => 0
              | String c3 _ =>
                  let n3 := nat_of_ascii c3 in
                  if (n =? 225)%nat && (n2 =? 154)%nat && (n3 =? 128)%nat then 3
                  else if (n =? 226)%nat && (n2 =? 128)%nat
                          && (((128 <=? n3)%nat && (n3 <=? 138)%nat)
                              || (n3 =? 168)%nat || (n3 =? 169)%nat || (n3 =? 175)%nat)
                  then 3
                  else if (n =? 226)%nat && (n2 =? 129)%nat && (n3 =? 159)%nat then 3
                  else if (n =? 227)%nat && (n2 =? 128)%nat && (n3 =? 128)%nat then 3
                  else 0
              end
        end
  end.

(** [s.lstrip()]. [skip] counts the bytes of a white space character
    still to be passed over. *)
Fixpoint lstrip_go (skip : nat) (s : string) : string :=
  match s with
  | EmptyString => EmptyString
  | String c s' =>
      match skip with
      | S k => lstrip_go k s'
      | O =>
          match space_at s with
          | O => s
          | S k => lstrip_go k s'
          end
      end
  end.

Definition lstrip (s : string) : string := lstrip_go 0 s.

(** [s] is white space from end to end. *)
Fixpoint all_space_go (skip : nat) (s : string) : bool :=
  match s with
  | EmptyString => true
  | String c s' =>
      match skip with
      | S k => all_space_go k s'
      | O =>
          match space_at s with
          | O => false
          | S k => all_space_go k s'
          end
      end
  end.

Definition all_space (s : string) : bool := all_space_go 0 s.

(** [s.rstrip()]: what is left of [s] without its longest end of white
    space. *)
Fixpoint rstrip (s : string) : string :=
  match s with
  | EmptyString => EmptyString
  | String c s' => if all_space s then EmptyString else String c (rstrip s')
  end.

Definition strip (s : string) : string := rstrip (lstrip s).

(** A character of ASCII that is no white space. *)
Definition is_graphic (c : ascii) : bool :=
  is_ascii_char c && negb (is_space c).

(** [s.split(sep)] for a non-empty separator: the pieces between the
    leftmost non-overlapping occurrences of [sep]. [skip] counts the
    characters of a separator still to be passed over. *)
Fixpoint split_go (sep : string) (skip : nat) (cur s : string) : list string :=
  match s with
  | EmptyString => [cur]
  | String c s' =>
      match skip with
      | S k => split_go sep k cur s'
      | O =>
          if starts_with sep s
          then cur :: split_go sep (String.length sep - 1) EmptyString s'
          else split_go sep 0 (cur +:+ String c EmptyString) s'
      end
  end.

Definition split (sep s : string) : list string := split_go sep 0 EmptyString s.

(** A byte that continues a character of UTF-8 (binary 10xxxxxx). A
    character is one byte that is no continuation, followed by its
    continuation bytes. *)
Definition is_continuation (c : ascii) : bool :=
  let n := nat_of_ascii c in (128 <=? n)%nat && (n <? 192)%nat.

(** [s[:n]] for [0 <= n]: the first [n] characters. *)
Fixpoint prefix_chars (n : nat) (s : string) : string :=
  match s with
  | EmptyString => EmptyString
  | String c s' =>
      if is_continuation c then String c (prefix_chars n s')
      else match n with
           | O => EmptyString
           | S k => String c (prefix_chars k s')
           end
  end.

(** [list(s)]: the characters of [s], each a string. *)
Fixpoint characters_go (cur s : string) : list string :=
  match s with
  | EmptyString => match cur with EmptyString => [] | _ => [cur] end
  | String c s' =>
      if is_continuation c then characters_go (cur +:+ String c EmptyString) s'
      else match cur with
           | EmptyString => characters_go (String c EmptyString) s'
           | _ => cur :: characters_go (String c EmptyString) s'
           end
  end.

Definition characters (s : string) : list string := characters_go EmptyString s.

(** [c in s] for a single character. *)
Fixpoint has_char (c : ascii) (s : string) : bool :=
  match s with
  | EmptyString => false
  | String a s' => Ascii.eqb a c || has_char c s'
  end.

(** The suffix of [s] that starts at the first occurrence of [c]. *)
Fixpoint from_first (c : ascii) (s : string) : option string :=
  match s with
  | EmptyString => None
  | String a s' => if Ascii.eqb a c then Some s else from_first c s'
  end.

(** The prefix of [s] that ends with the last occurrence of [c]. *)
Fixpoint through_last (c : ascii) (s : string) : option string :=
  match s with
  | EmptyString => None
  | String a s' =>
      match through_last c s' with
      | Some r => Some (String a r)
      | None => if Ascii.eqb a c then Some (String a EmptyString) else None
      end
  end.

(** The prefix of [s] that ends with the first occurrence of [c]. *)
Fixpoint through_first (c : ascii) (s : string) : option string :=
  match s with
  | EmptyString => None
  | String a s' =>
      if Ascii.eqb a c then Some (String a EmptyString)
      else option_map (String a) (through_first c s')
  end.

(** [re.search(r"\{.*\}", s, re.DOTALL)]: the leftmost match starts at the
    first opening brace, and the greedy star runs to the last closing
    brace of the text. *)
Definition search_braces (s : string) : option string :=
  match from_first "{" s with
  | Some (String a rest) => option_map (String a) (through_last "}" rest)
  | _ => None
  end.

(** [re.search(r"\[.*?\]", s, re.DOTALL)]: the leftmost match starts at the
    first opening bracket, and the lazy star stops at the first closing
    bracket after it. *)
Definition search_brackets (s : string) : option string :=
  match from_first "[" s with
  | Some (String a rest) => option_map (String a) (through_first "]" rest)
  | _ => None
  end.

(** The greedy variant, for the comparison with the wording of the
    specification only: first opening bracket to last closing bracket. *)
Definition search_brackets_greedy (s : string) : option string :=
  match from_first "[" s with
  | Some (String a rest) => option_map (String a) (through_last "]" rest)
  | _ => None
  end.

(** The white space that [int] passes over on both sides of an ASCII
    literal: tab, line feed, vertical tab, form feed, carriage return and
    space (the separators 28 to 31, which [str.strip] removes, are not
    among them). *)
Definition is_int_space (c : ascii) : bool :=
  let n := nat_of_ascii c in
  ((9 <=? n)%nat && (n <=? 13)%nat) || (n =? 32)%nat.

Fixpoint skip_int_space (s : string) : string :=
  match s with
  | EmptyString => EmptyString
  | String c s' => if is_int_space c then skip_int_space s' else s
  end.

Fixpoint drop_int_space (s : string) : string :=
  match s with
  | EmptyString => EmptyString
  | String c s' =>
      match drop_int_space s' with
      | EmptyString => if is_int_space c then EmptyString else String c EmptyString
      | r => String c r
      end
  end.

(** Decimal digits, for [int(str)]. *)
Definition digit_of (c : ascii) : option Z :=
  let n := nat_of_ascii c in
  if (48 <=? n)%nat && (n <=? 57)%nat then Some (Z.of_nat (n - 48)) else None.

(** Digits, with single underscores allowed between two digits. *)
Fixpoint parse_digits (acc : Z) (after_digit : bool) (s : string) : option Z :=
  match s with
  | EmptyString => if after_digit then Some acc else None
  | String c s' =>
      match digit_of c with
      | Some d => parse_digits (10 * acc + d) true s'
      | None =>
          if Ascii.eqb c "_" && after_digit
          then match s' with
               | EmptyString => None
               | _ => parse_digits acc false s'
               end
          else None
      end
  end.

(** [int(s)] on an ASCII literal [s]: white space on both sides, an
    optional sign, then decimal digits. [None] stands for the
    [ValueError] of an invalid literal. Text beyond ASCII (other digits
    and spaces of Unicode) and literals longer than the limit on digits
    are the runtime's ([str_int]). *)
Definition int_of_str (s : string) : option Z :=
  match drop_int_space (skip_int_space s) with
  | String "-" r => option_map Z.opp (parse_digits 0 false r)
  | String "+" r => parse_digits 0 false r
  | r => parse_digits 0 false r
  end.

(** [str(z)] on an [int]. *)
Definition str_of_int (z : Z) : string := NilZero.string_of_int (Z.to_int z).

End PyStr.
Import PyStr.

(* ===================================================================== *)
(** ** Python values, exceptions and outcomes *)
(* ===================================================================== *)

(** A [float]: not-a-number, an infinity, or a finite value kept exactly. *)
Inductive pyfloat : Type :=
| FNan
| FInf (negative : bool)
| FNum (q : Q).

(** The values [json.loads] produces. *)
Inductive pyval : Type :=
| PNone
| PBool (b : bool)
| PInt (z : Z)
| PFloat (f : pyfloat)
| PStr (s : string)
| PList (l : list pyval)
| PDict (d : list (string * pyval)).

(** A [dict] with string keys, in insertion order. *)
Definition dict (V : Type) : Type := list (string * V).

(** [d.get(k)]: [None] when the key is absent. *)
Fixpoint dict_get {V : Type} (k : string) (d : dict V) : option V :=
  match d with
  | [] => None
  | (k', v) :: d' => if String.eqb k k' then Some v else dict_get k d'
  end.

(** [d[k] = v]: an existing key keeps its place, a new key goes last. *)
Fixpoint dict_set {V : Type} (k : string) (v : V) (d : dict V) : dict V :=
  match d with
  | [] => [(k, v)]
  | (k', v') :: d' =>
      if String.eqb k k' then (k', v) :: d' else (k', v') :: dict_set k v d'
  end.

(** [list(d.keys())]. *)
Definition dict_keys {V : Type} (d : dict V) : list string := map fst d.

(** [d.get(k, default)]. *)
Definition dict_get_or {V : Type} (k : string) (default : V) (d : dict V) : V :=
  match dict_get k d with
  | Some v => v
  | None => default
  end.

(** The exception classes that occur; all are subclasses of [Exception].
    [JSONDecodeError] is what [json.loads] raises. *)
Inductive exn_class : Type :=
| ValueError
| JSONDecodeError
| TypeError
| AttributeError
| OverflowError
| FileNotFoundError
| UnicodeDecodeError
| Exception (name : string).

(** An exception instance: its class and [str(e)]. *)
Record exn : Type := Exn { exn_class_of : exn_class; exn_str : string }.

(** The result of running code that may raise. *)
Inductive outcome (A : Type) : Type :=
| Ret (a : A)
| Raise (e : exn).
Arguments Ret {A} a.
Arguments Raise {A} e.

Definition obind {A B : Type} (m : outcome A) (k : A -> outcome B) : outcome B :=
  match m with
  | Ret a => k a
  | Raise e => Raise e
  end.

Notation "x <~ m ; k" := (obind m (fun x => k))
  (at level 20, m at level 100, k at level 200, only parsing).

(** [for x in l: ...] over a body that may raise: the results in order,
    or the first exception. *)
Fixpoint traverse {A B : Type} (f : A -> outcome B) (l : list A) : outcome (list B) :=
  match l with
  | [] => Ret []
  | a :: l' => b <~ f a; bs <~ traverse f l'; Ret (b :: bs)
  end.

(** Truth value of a float: zero is false, everything else true. *)
Definition float_truthy (f : pyfloat) : bool :=
  match f with
  | FNum q => negb (Qeq_bool q 0)
  | _ => true
  end.

(** [bool(v)], the test of [if v:]. *)
Definition truthy (v : pyval) : bool :=
  match v with
  | PNone => false
  | PBool b => b
  | PInt z => negb (z =? 0)%Z
  | PFloat f => float_truthy f
  | PStr s => negb (String.eqb s "")
  | PList l => negb (length l =? 0)%nat
  | PDict d => negb (length d =? 0)%nat
  end.

(** [type(v).__name__]. *)
Definition type_name (v : pyval) : string :=
  match v with
  | PNone => "NoneType"
  | PBool _ => "bool"
  | PInt _ => "int"
  | PFloat _ => "float"
  | PStr _ => "str"
  | PList _ => "list"
  | PDict _ => "dict"
  end.

(** [isinstance(v, (int, float))]; [bool] is a subclass of [int]. *)
Definition is_number (v : pyval) : bool :=
  match v with
  | PBool _ | PInt _ | PFloat _ => true
  | _ => false
  end.

(** [v == s] for a string [s]: only an equal string compares equal. *)
Definition eq_str (v : pyval) (s : string) : bool :=
  match v with
  | PStr s' => String.eqb s' s
  | _ => false
  end.

(** [v in l] for a list [l] of strings. *)
Definition in_strs (v : pyval) (l : list string) : bool := existsb (eq_str v) l.

(** [obj.get(key, default)]: defined on a [dict], an [AttributeError] on
    every other value. *)
Definition py_get (obj : pyval) (key : string) (default : pyval) : outcome pyval :=
  match obj with
  | PDict d => Ret (dict_get_or key default d)
  | _ => Raise (Exn AttributeError
                  ("'" +:+ type_name obj +:+ "' object has no attribute 'get'"))
  end.

(** Truncation toward zero, as [int] does on a finite float. *)
Definition Qtrunc (q : Q) : Z := Z.quot (Qnum q) (Zpos (Qden q)).

(** The message of the [ValueError] that [int] raises on a literal it
    does not read. *)
Definition invalid_literal (repr_of_text : string) : string :=
  "invalid literal for int() with base 10: " +:+ repr_of_text.

(** What CPython supplies and the repository only calls.
    - [json_loads] is [json.loads]: the value read, or the exception
      raised, which is a [JSONDecodeError] for a text that is not JSON and
      can be another one (a RecursionError on deep nesting, the
      ValueError of the limit on the digits of an int).
    - [py_repr] is [repr], used by [str] on floats, lists and dicts and in
      the message of a failed [int].
    - [str_lower] is [str.lower]; on ASCII text it is [lower].
    - [str_int] is [int] on a [str]: the value, or the message of the
      [ValueError]; on an ASCII text within the default limit of 4300
      digits it is [int_of_str].
    The pipeline is verified for every such runtime. *)
Record runtime : Type := Runtime {
  json_loads : string -> outcome pyval;
  py_repr : pyval -> string;
  str_lower : string -> string;
  str_int : string -> Z + string;
  str_lower_ascii : forall s, is_ascii s = true -> str_lower s = lower s;
  str_int_ascii :
    forall s, is_ascii s = true -> (String.length s <= 4300)%nat ->
      str_int s = match int_of_str s with
                  | Some z => inl z
                  | None => inr (invalid_literal (py_repr (PStr s)))
                  end
}.

(** [except json.JSONDecodeError]: the class of the exception decides. *)
Definition is_json_decode_error (e : exn) : bool :=
  match exn_class_of e with
  | JSONDecodeError => true
  | _ => false
  end.

(** [try: body except json.JSONDecodeError: handler]. *)
Definition except_decode_error {A : Type} (body handler : outcome A) : outcome A :=
  match body with
  | Ret a => Ret a
  | Raise e => if is_json_decode_error e then handler else Raise e
  end.

Section PythonBuiltins.
Context (rt : runtime).

(** [str(v)]. *)
Definition py_str (v : pyval) : string :=
  match v with
  | PStr s => s
  | PNone => "None"
  | PBool true => "True"
  | PBool false => "False"
  | PInt z => str_of_int z
  | _ => py_repr rt v
  end.

(** [int(v)]. *)
Definition py_int (v : pyval) : outcome Z :=
  match v with
  | PBool b => Ret (if b then 1 else 0)%Z
  | PInt z => Ret z
  | PFloat FNan => Raise (Exn ValueError "cannot convert float NaN to integer")
  | PFloat (FInf _) => Raise (Exn OverflowError "cannot convert float infinity to integer")
  | PFloat (FNum q) => Ret (Qtrunc q)
  | PStr s =>
      match str_int rt s with
      | inl z => Ret z
      | inr message => Raise (Exn ValueError message)
      end
  | _ => Raise (Exn TypeError
                  ("int() argument must be a string, a bytes-like object or a real number, not '"
                   +:+ type_name v +:+ "'"))
  end.

End PythonBuiltins.

(* ===================================================================== *)
(** ** The completion provider and the world *)
(* ===================================================================== *)

(** What is sent to the completion provider. The text of a prompt is an
    f-string over the data below; no property depends on its wording, so a
    prompt is kept as the data that the f-string interpolates. *)
Inductive prompt : Type :=
| SelectionPrompt (filtered_files : list string)
    (rule_title rule_description must_find : pyval)
    (pattern_descriptions : list pyval) (max_files : Z)
| AnalysisPrompt (system_prompt title article : pyval)
    (file_contents : dict string)
    (red_patterns : list (pyval * pyval * pyval)) (document_checks : pyval).

(** The world is the log of the prompts sent so far, oldest first. *)
Definition world : Type := list prompt.

(** A completion provider ([llm_client.generate_completion]): given the
    calls made so far and a prompt, it replies with a text or raises. A
    provider that hands back something other than a string makes the
    first use of the reply raise, inside the same [try] as the call; the
    model counts it as a provider that raises. *)
Definition client : Type := world -> prompt -> outcome string.

(** Code that may call the provider and may raise. *)
Definition M (A : Type) : Type := world -> outcome A * world.

Definition ret {A : Type} (a : A) : M A := fun w => (Ret a, w).

Definition lift {A : Type} (o : outcome A) : M A := fun w => (o, w).

Definition bind {A B : Type} (m : M A) (k : A -> M B) : M B :=
  fun w =>
    match m w with
    | (Ret a, w') => k a w'
    | (Raise e, w') => (Raise e, w')
    end.

Notation "x <- m ; k" := (bind m (fun x => k))
  (at level 20, m at level 100, k at level 200, only parsing).

(** [try: body except Exception as e: handler(e)]. *)
Definition try_except {A : Type} (body : M A) (handler : exn -> M A) : M A :=
  fun w =>
    match body w with
    | (Ret a, w') => (Ret a, w')
    | (Raise e, w') => handler e w'
    end.

(** [await llm_client.generate_completion(prompt=...)]: one more call in
    the log, whatever the provider answers. *)
Definition generate_completion (llm_client : client) (p : prompt) : M string :=
  fun w => (llm_client w p, w ++ [p]).

(** The process environment of [FeatherlessClient()]: the value of
    FEATHERLESS_API_KEY and the HTTP transport behind a key. *)
Record environment : Type := Environment {
  getenv_api_key : option string;
  transport : string -> client
}.

(** [FeatherlessClient()] of llm_client.py, called without an argument:
    a [ValueError] when the key is unset or empty. *)
Definition FeatherlessClient (env : environment) : outcome client :=
  match getenv_api_key env with
  | Some key =>
      if String.eqb key "" then
        Raise (Exn ValueError "FEATHERLESS_API_KEY not found in environment")
      else Ret (transport env key)
  | None => Raise (Exn ValueError "FEATHERLESS_API_KEY not found in environment")
  end.

(* ===================================================================== *)
(** ** utils/json_parser.py *)
(* ===================================================================== *)

Section JsonParser.
Context (rt : runtime).

(** The block under the comment "Remove markdown code blocks", shared by
    the three parsing functions:
    [cleaned.split(F)[1].split("```")[0].strip()] for the first fence [F]
    among "```json" and "```" that occurs in [cleaned]. Index 1 exists
    because [F] occurs. *)
Definition remove_code_fences (cleaned : string) : string :=
  if contains "```json" cleaned then
    strip (nth 0 (split "```" (nth 1 (split "```json" cleaned) "")) "")
  else if contains "```" cleaned then
    strip (nth 0 (split "```" (nth 1 (split "```" cleaned) "")) "")
  else cleaned.

(** One entry of the sanitized violation list (the dict display in the
    loop of [validate_and_sanitize_response]). *)
Definition sanitize_violation (violation : dict pyval) : outcome (dict pyval) :=
  line <~ (if truthy (dict_get_or "line" PNone violation)
           then z <~ py_int rt (dict_get_or "line" (PInt 0) violation); Ret (PInt z)
           else Ret PNone);
  Ret [ ("file", PStr (py_str rt (dict_get_or "file" (PStr "unknown") violation)));
        ("line", line);
        ("severity", PStr (py_str rt (dict_get_or "severity" (PStr "medium") violation)));
        ("issue", PStr (py_str rt (dict_get_or "issue" (PStr "No description") violation)));
        ("recommendation",
          PStr (py_str rt (dict_get_or "recommendation" (PStr "No recommendation") violation)));
        ("article",
          if truthy (dict_get_or "article" PNone violation)
          then PStr (py_str rt (dict_get_or "article" (PStr "") violation))
          else PNone) ].

(** The loop "Sanitize each violation": entries that are not dicts are
    skipped. *)
Fixpoint sanitize_violations (violations : list pyval) : outcome (list pyval) :=
  match violations with
  | [] => Ret []
  | PDict violation :: rest =>
      v <~ sanitize_violation violation;
      vs <~ sanitize_violations rest;
      Ret (PDict v :: vs)
  | _ :: rest => sanitize_violations rest
  end.

Definition validate_and_sanitize_response (data : pyval) : outcome (dict pyval) :=
  passed <~ py_get data "passed" (PBool false);
  violations <~ py_get data "violations" (PList []);
  score <~ py_get data "score" (PInt 0);
  score <~ (if is_number score
            then z <~ py_int rt score; Ret (Z.max 0 (Z.min 100 z))
            else Ret 0%Z);
  let violations := match violations with PList l => l | _ => [] end in
  sanitized_violations <~ sanitize_violations violations;
  Ret [ ("passed", passed);
        ("violations", PList sanitized_violations);
        ("score", PInt score) ].

(** The [ValueError] raised when no JSON is found. *)
Definition no_json_found (response : string) : exn :=
  Exn ValueError
    ("No valid JSON found in LLM response. First 200 chars: "
     +:+ prefix_chars 200 response).

(** Only [json.JSONDecodeError] is caught around the two [json.loads]
    calls: every other exception of [json.loads] and what
    [validate_and_sanitize_response] raises pass through. *)
Definition parse_json_response (response : string) : outcome (dict pyval) :=
  let cleaned := remove_code_fences (strip response) in
  except_decode_error
    (result <~ json_loads rt cleaned; validate_and_sanitize_response result)
    (match search_braces cleaned with
     | Some span =>
         except_decode_error
           (result <~ json_loads rt span; validate_and_sanitize_response result)
           (Raise (no_json_found response))
     | None => Raise (no_json_found response)
     end).

(** [[f for f in selected if f in available_files]]: the entries equal to
    a known file name, which are strings. *)
Definition keep_known (selected : list pyval) (available_files : list string)
  : list string :=
  flat_map (fun f => match f with
                     | PStr s => if in_strs f available_files then [s] else []
                     | _ => []
                     end) selected.

(** The second step of both file-list parsers: the bracket span found by
    the regular expression, parsed and filtered; empty when there is no
    span, when the span is not JSON or when it is no list. An exception of
    [json.loads] other than [JSONDecodeError] passes through. *)
Definition selection_from_span (cleaned : string) (available_files : list string)
  : outcome (list string) :=
  match search_brackets cleaned with
  | Some span =>
      except_decode_error
        (selected <~ json_loads rt span;
         match selected with
         | PList selected => Ret (keep_known selected available_files)
         | _ => Ret []
         end)
        (Ret [])
  | None => Ret []
  end.

(** json_parser.py: the span is also tried when the direct parse gave a
    value that is not a list. *)
Definition parse_llm_file_selection (response : string) (available_files : list string)
  : outcome (list string) :=
  let cleaned := remove_code_fences (strip response) in
  match json_loads rt cleaned with
  | Ret (PList selected) => Ret (keep_known selected available_files)
  | Ret _ => selection_from_span cleaned available_files
  | Raise e =>
      if is_json_decode_error e then selection_from_span cleaned available_files
      else Raise e
  end.

(** [json.loads(text)] returns a list. *)
Definition reads_list (text : string) : Prop :=
  exists l, json_loads rt text = Ret (PList l).

(** [json.loads(text)] raises [JSONDecodeError]. *)
Definition not_json (text : string) : Prop :=
  exists e, json_loads rt text = Raise e /\ is_json_decode_error e = true.

End JsonParser.

(* ===================================================================== *)
(** ** utils/file_selector.py *)
(* ===================================================================== *)

(** [filter_by_keywords(files, keywords)] on a list of keyword strings. *)
Definition filter_by_keywords (rt : runtime) (files keywords : list string)
  : list string :=
  match keywords with
  | [] => files
  | _ :: _ =>
      let keywords_lower := map (str_lower rt) keywords in
      List.filter
        (fun filepath =>
           existsb (fun keyword => contains keyword (str_lower rt filepath))
             keywords_lower)
        files
  end.

(** The keywords come from the rule, which is parsed JSON. Iterating the
    value and calling [lower] on each item works for a list of strings,
    for a string (its characters) and for a dict (its keys). *)
Definition keyword_items (keywords : pyval) : outcome (list string) :=
  match keywords with
  | PList l =>
      traverse (fun k => match k with
                     | PStr s => Ret s
                     | _ => Raise (Exn AttributeError
                                     ("'" +:+ type_name k +:+ "' object has no attribute 'lower'"))
                     end) l
  | PStr s => Ret (characters s)
  | PDict d => Ret (dict_keys d)
  | _ => Raise (Exn TypeError ("'" +:+ type_name keywords +:+ "' object is not iterable"))
  end.

(** [filter_by_keywords] as [analyze_rule] calls it, with the keywords as
    they stand in the rule: [if not keywords: return files] comes first. *)
Definition filter_by_keywords_value (rt : runtime) (files : list string)
    (keywords : pyval) : outcome (list string) :=
  if truthy keywords
  then ks <~ keyword_items keywords; Ret (filter_by_keywords rt files ks)
  else Ret files.

(** [l[:k]], also for a negative [k]. *)
Definition slice_to {A : Type} (k : Z) (l : list A) : list A :=
  if (0 <=? k)%Z then take (Z.to_nat k) l
  else take (length l - Z.to_nat (- k)) l.

(** [red_patterns[:n]], ready to be iterated. Slicing a dict raises
    (a [TypeError] up to CPython 3.11). *)
Definition slice_patterns (red_patterns : pyval) (n : nat) : outcome (list pyval) :=
  match red_patterns with
  | PList l => Ret (take n l)
  | PStr s => Ret (map PStr (take n (characters s)))
  | PDict _ => Raise (Exn TypeError "unhashable type: 'slice'")
  | _ => Raise (Exn TypeError
                  ("'" +:+ type_name red_patterns +:+ "' object is not subscriptable"))
  end.

(** The shape of "code_checks" that the rule catalog gives: a mapping (or
    nothing) whose "file_keywords", when present, is a list of strings and
    whose "red_patterns", when present, is a list of mappings. *)
Definition is_str (v : pyval) : Prop :=
  match v with PStr _ => True | _ => False end.

Definition is_dict (v : pyval) : Prop :=
  match v with PDict _ => True | _ => False end.

Definition well_typed_code_checks (rule : dict pyval) : Prop :=
  exists code_checks keywords red_patterns,
    dict_get_or "code_checks" (PDict []) rule = PDict code_checks
    /\ dict_get_or "file_keywords" (PList []) code_checks = PList keywords
    /\ Forall is_str keywords
    /\ dict_get_or "red_patterns" (PList []) code_checks = PList red_patterns
    /\ Forall is_dict red_patterns.

Section FileSelector.
Context (rt : runtime) (env : environment).

(** The statements of [select_best_files] between the early returns and
    the [try]: everything that the prompt interpolates. *)
Definition selection_prompt (filtered_files : list string) (rule : dict pyval)
    (max_files : Z) : outcome prompt :=
  let rule_title := dict_get_or "title" (PStr "") rule in
  let rule_description := dict_get_or "description" (PStr "") rule in
  must_find <~ py_get (dict_get_or "code_checks" (PDict []) rule) "must_find" (PList []);
  red_patterns <~ py_get (dict_get_or "code_checks" (PDict []) rule) "red_patterns" (PList []);
  first3 <~ slice_patterns red_patterns 3;
  pattern_descriptions <~ traverse (fun p => py_get p "pattern" (PStr "")) first3;
  Ret (SelectionPrompt filtered_files rule_title rule_description must_find
         pattern_descriptions max_files).

(** file_selector.py: the span is tried only when the direct parse raised
    [JSONDecodeError]; a parsed value that is not a list gives [], and
    another exception of [json.loads] leaves the function. *)
Definition parse_file_selection_response (response : string)
    (filtered_files : list string) : outcome (list string) :=
  let cleaned := remove_code_fences (strip response) in
  match json_loads rt cleaned with
  | Ret (PList selected) => Ret (keep_known selected filtered_files)
  | Ret _ => Ret []
  | Raise e =>
      if is_json_decode_error e then selection_from_span rt cleaned filtered_files
      else Raise e
  end.

Definition select_best_files (filtered_files : list string) (rule : dict pyval)
    (max_files : Z) (llm_client : option client) : M (list string) :=
  if (Z.of_nat (length filtered_files) <=? max_files)%Z then ret filtered_files
  else if (length filtered_files =? 0)%nat then ret []
  else
    llm_client <- match llm_client with
                  | None => lift (FeatherlessClient env)
                  | Some c => ret c
                  end;
    p <- lift (selection_prompt filtered_files rule max_files);
    try_except
      (response <- generate_completion llm_client p;
       selected <- lift (parse_file_selection_response response filtered_files);
       ret (slice_to max_files selected))
      (fun _ => ret (slice_to max_files filtered_files)).

End FileSelector.

(* ===================================================================== *)
(** ** analyzer.py: analyze_rule *)
(* ===================================================================== *)

(** The cloned repository as [analyze_rule] reads it: the two listings of
    [get_all_files] and [read_file], which raises on a missing or
    undecodable file. *)
Record repository : Type := Repository {
  code_files : list string;
  doc_files : list string;
  read_file : string -> outcome string
}.

Section Analyzer.
Context (rt : runtime) (env : environment).

(** Lines 52-80 of [analyze_rule]: which files the rule looks at. *)
Definition select_files (rule : dict pyval) (repo : repository) (llm_client : client)
  : M (list string) :=
  let check_type := dict_get_or "check_type" (PStr "both") rule in
  code_files <-
    (if in_strs check_type ["code"; "both"] then
       let code_checks := dict_get_or "code_checks" (PDict []) rule in
       enabled <- lift (py_get code_checks "enabled" (PBool false));
       if truthy enabled then
         keywords <- lift (py_get code_checks "file_keywords" (PList []));
         filtered_code <- lift (filter_by_keywords_value rt (code_files repo) keywords);
         if negb (length filtered_code =? 0)%nat
         then select_best_files rt env filtered_code rule 3 (Some llm_client)
         else ret []
       else ret []
     else ret []);
  let doc_files := if in_strs check_type ["document"; "both"] then doc_files repo else [] in
  ret (code_files ++ doc_files).

(** The loop "Read file contents": a file that cannot be read is skipped. *)
Fixpoint read_files (repo : repository) (selected_files : list string)
    (file_contents : dict string) : dict string :=
  match selected_files with
  | [] => file_contents
  | filepath :: rest =>
      match read_file repo filepath with
      | Ret content => read_files repo rest (dict_set filepath content file_contents)
      | Raise _ => read_files repo rest file_contents
      end
  end.

(** The prompt of [call_llm_for_rule]. [format_files] only lays out the
    text of the files (200 lines each at most) and cannot raise. *)
Definition analysis_prompt (rule : dict pyval) (file_contents : dict string)
  : outcome prompt :=
  let system_prompt :=
    dict_get_or "agent_prompt"
      (dict_get_or "description" (PStr "Analyze for GDPR compliance.") rule) rule in
  let code_checks := dict_get_or "code_checks" (PDict []) rule in
  red_patterns <~ py_get code_checks "red_patterns" (PList []);
  let document_checks := dict_get_or "document_checks" (PDict []) rule in
  first5 <~ slice_patterns red_patterns 5;
  patterns <~ traverse (fun p =>
                      pattern <~ py_get p "pattern" PNone;
                      severity <~ py_get p "severity" PNone;
                      explanation <~ py_get p "explanation" PNone;
                      Ret (pattern, severity, explanation)) first5;
  Ret (AnalysisPrompt system_prompt
         (dict_get_or "title" (PStr "Unknown") rule)
         (dict_get_or "article" (PStr "N/A") rule)
         file_contents patterns document_checks).

Definition call_llm_for_rule (rule : dict pyval) (file_contents : dict string)
    (llm_client : client) : M (dict pyval) :=
  p <- lift (analysis_prompt rule file_contents);
  response <- generate_completion llm_client p;
  lift (parse_json_response rt response).

(** The result returned when there is nothing to analyze. *)
Definition no_files_result (rule : dict pyval) : dict pyval :=
  [ ("rule_id", dict_get_or "id" PNone rule);
    ("passed", PBool true);
    ("violations", PList []);
    ("score", PInt 100);
    ("files_analyzed", PList []);
    ("note", PStr "No relevant files found to analyze") ].

(** The result built in the [except Exception as e] branch. *)
Definition error_result (rule : dict pyval) (files_analyzed : list string) (e : exn)
  : dict pyval :=
  [ ("rule_id", dict_get_or "id" PNone rule);
    ("passed", PNone);
    ("violations", PList []);
    ("score", PInt 0);
    ("files_analyzed", PList (map PStr files_analyzed));
    ("error", PStr (exn_str e)) ].

(** The two assignments under "Add metadata". *)
Definition add_metadata (rule : dict pyval) (files_analyzed : list string)
    (result : dict pyval) : dict pyval :=
  dict_set "files_analyzed" (PList (map PStr files_analyzed))
    (dict_set "rule_id" (dict_get_or "id" PNone rule) result).

Definition analyze_rule (rule : dict pyval) (repo : repository)
    (llm_client : option client) : M (dict pyval) :=
  llm_client <- match llm_client with
                | None => lift (FeatherlessClient env)
                | Some c => ret c
                end;
  selected_files <- select_files rule repo llm_client;
  if (length selected_files =? 0)%nat then ret (no_files_result rule)
  else
    let file_contents := read_files repo selected_files [] in
    try_except
      (result <- call_llm_for_rule rule file_contents llm_client;
       ret (add_metadata rule (dict_keys file_contents) result))
      (fun e => ret (error_result rule (dict_keys file_contents) e)).

End Analyzer.

(* ===================================================================== *)
(** ** analyzer.py: aggregate_results *)
(* ===================================================================== *)

(** [aggregate_results] writes into the violation dicts of its argument.
    These dicts are objects of a store, and a result holds them by
    reference, so that the effect of the call on its input is visible. *)
Abbreviation loc := nat.

Abbreviation store := (gmap nat (dict pyval)).

(** A rule result, as far as [aggregate_results] reads it: the values
    under "score" and "rule_id" and the list under "violations", each
    [None] when the key is absent. *)
Record rule_result : Type := RuleResult {
  result_score : option pyval;
  result_violations : option (list loc);
  result_rule_id : option pyval
}.

(** The returned dict, with its three keys. *)
Record report : Type := Report {
  score : Z;
  violations : list loc;
  rules_checked : nat
}.

(** An [int] or a [float], the operands of [sum], [/] and [round]. *)
Inductive number : Type :=
| NInt (z : Z)
| NFloat (f : pyfloat).

Definition number_of (v : pyval) : option number :=
  match v with
  | PBool b => Some (NInt (if b then 1 else 0))
  | PInt z => Some (NInt z)
  | PFloat f => Some (NFloat f)
  | _ => None
  end.

(** Arithmetic on floats. A finite float is kept by its exact value, and
    the sum of floats is exact in the model, where CPython rounds every
    sum to binary64; likewise the conversion of an int that [sum] meets
    beside a float, which CPython rounds and refuses ([OverflowError])
    beyond the float range. The properties stated of [sum] on floats
    either hold of the rounded sum as well or exclude float scores. The
    true division of two ints, which is what the scores of [analyze_rule]
    lead to, is modelled as CPython computes it ([int_true_div]). *)
Definition to_float (n : number) : pyfloat :=
  match n with
  | NInt z => FNum (inject_Z z)
  | NFloat f => f
  end.

Definition float_add (a b : pyfloat) : pyfloat :=
  match a, b with
  | FNan, _ | _, FNan => FNan
  | FInf s, FInf t => if Bool.eqb s t then FInf s else FNan
  | FInf s, FNum _ | FNum _, FInf s => FInf s
  | FNum x, FNum y => FNum (x + y)%Q
  end.

(** [a + b]: integer addition on two ints, float addition otherwise. *)
Definition py_add (a b : number) : number :=
  match a, b with
  | NInt x, NInt y => NInt (x + y)
  | _, _ => NFloat (float_add (to_float a) (to_float b))
  end.

(** [sum(l)], which starts from the int 0 and adds from the left. *)
Definition py_sum (l : list number) : number := fold_left py_add l (NInt 0).

(** Rounding to the nearest integer, a tie going to the even neighbour. *)
Definition round_half_even (q : Q) : Z :=
  let f := Qfloor q in
  match (q - inject_Z f ?= 1 # 2)%Q with
  | Lt => f
  | Gt => (f + 1)%Z
  | Eq => if Z.even f then f else (f + 1)%Z
  end.

(** The exponent of the leading bit of a positive rational [q]: the [k]
    with 2^k <= q < 2^(k+1). *)
Definition ilog2 (q : Q) : Z :=
  let k := (Z.log2 (Qnum q) - Z.log2 (Zpos (Qden q)))%Z in
  if Qle_bool (2 ^ k) q then k else (k - 1)%Z.

(** binary64 has 53 significant bits and no exponent below -1074: the
    exponent of the last place of the binary64 nearest to [q]. *)
Definition binary64_exponent (q : Q) : Z := Z.max (ilog2 (Qabs q) - 52) (-1074).

(** The size of [q] rounded to 53 significant bits, a tie going to the
    even mantissa. *)
Definition binary64_magnitude (q : Q) : Q :=
  (inject_Z (round_half_even (Qabs q / 2 ^ binary64_exponent q))
   * 2 ^ binary64_exponent q)%Q.

(** The binary64 nearest to a rational, by its exact value; [None] when
    the rounded size reaches 2^1024, beyond the largest float. *)
Definition binary64_of (q : Q) : option Q :=
  if Qeq_bool q 0 then Some 0%Q
  else if Qle_bool (2 ^ 1024) (binary64_magnitude q) then None
  else Some (if Qle_bool 0 q then binary64_magnitude q else - binary64_magnitude q)%Q.

(** The [OverflowError] of the true division of two ints. *)
Definition division_overflow : exn :=
  Exn OverflowError "integer division result too large for a float".

(** [a / n] on two ints, [n] positive: the quotient correctly rounded to
    binary64, or [OverflowError]. *)
Definition int_true_div (a : Z) (n : positive) : outcome pyfloat :=
  match binary64_of (a # n) with
  | Some q => Ret (FNum q)
  | None => Raise division_overflow
  end.

(** [a / n] for the int [n = len(valid_scores)]: true division, always a
    float. *)
Definition true_div (a : number) (n : nat) : outcome pyfloat :=
  match n with
  | O =>
      Raise (Exn (Exception "ZeroDivisionError")
               match a with
               | NInt _ => "division by zero"
               | NFloat _ => "float division by zero"
               end)
  | S _ =>
      match a with
      | NInt z => int_true_div z (Pos.of_nat n)
      | NFloat (FNum q) => Ret (FNum (q / inject_Z (Z.of_nat n))%Q)
      | NFloat f => Ret f
      end
  end.

(** [round(x)] with one argument. *)
Definition py_round (x : number) : outcome Z :=
  match x with
  | NInt z => Ret z
  | NFloat (FNum q) => Ret (round_half_even q)
  | NFloat FNan => Raise (Exn ValueError "cannot convert float NaN to integer")
  | NFloat (FInf _) => Raise (Exn OverflowError "cannot convert float infinity to integer")
  end.

(** A number other than NaN and the infinities, and its value. *)
Definition finite_number (n : number) : Prop :=
  match n with
  | NFloat FNan | NFloat (FInf _) => False
  | _ => True
  end.

Definition value_of (n : number) : Q :=
  match n with
  | NInt z => inject_Z z
  | NFloat (FNum q) => q
  | NFloat _ => 0
  end.

(** The arithmetic mean of a list of values. *)
Definition mean (l : list Q) : Q :=
  (fold_right Qplus 0 l / inject_Z (Z.of_nat (length l)))%Q.

(** The score of [r] when it passes the test of the list comprehension:
    [r.get("score") is not None and isinstance(r.get("score"), (int, float))]. *)
Definition valid_score (r : rule_result) : option number :=
  match result_score r with
  | Some v => if is_number v then number_of v else None
  | None => None
  end.

(** [v["rule_id"] = rule_id] on the object at [v]. *)
Definition stamp (rule_id : pyval) (st : store) (v : loc) : store :=
  match st !! v with
  | Some d => <[v := dict_set "rule_id" rule_id d]> st
  | None => st
  end.

(** [result.get("violations", [])]. *)
Definition violations_of (result : rule_result) : list loc :=
  default [] (result_violations result).

(** [result.get("rule_id")]. *)
Definition rule_id_of (result : rule_result) : pyval :=
  default PNone (result_rule_id result).

(** The loop "Collect all violations": the store after the assignments
    and [all_violations] after the appends. *)
Fixpoint collect (results : list rule_result) (st : store) (all_violations : list loc)
  : store * list loc :=
  match results with
  | [] => (st, all_violations)
  | result :: rest =>
      collect rest (fold_left (stamp (rule_id_of result)) (violations_of result) st)
        (all_violations ++ violations_of result)
  end.

(** The rule id written last into the object at [l], if any: the id of
    the last result that holds [l]. *)
Fixpoint last_owner (results : list rule_result) (l : loc) : option pyval :=
  match results with
  | [] => None
  | r :: rest =>
      match last_owner rest l with
      | Some rule_id => Some rule_id
      | None => if decide (l ∈ violations_of r) then Some (rule_id_of r) else None
      end
  end.

(** [sum(valid_scores) / len(valid_scores) if valid_scores else 0]. *)
Definition average (valid_scores : list number) : outcome number :=
  match valid_scores with
  | [] => Ret (NInt 0)
  | _ :: _ =>
      f <~ true_div (py_sum valid_scores) (length valid_scores);
      Ret (NFloat f)
  end.

(** The outcome of the call and the store it leaves. The average is
    computed before the loop: when the division raises, nothing has been
    written. [round] is applied last, when the returned dict is built,
    after the loop has run. *)
Definition aggregate_results (results : list rule_result) (st : store)
  : outcome report * store :=
  match results with
  | [] => (Ret (Report 0 [] 0), st)
  | _ :: _ =>
      let valid_scores := omap valid_score results in
      match average valid_scores with
      | Raise e => (Raise e, st)
      | Ret avg_score =>
          let '(st', all_violations) := collect results st [] in
          (score <~ py_round avg_score;
           Ret (Report score all_violations (length results)), st')
      end
  end.

(* ===================================================================== *)
(** ** Shapes of sanitized data *)
(* ===================================================================== *)

(** The entries that pass [isinstance(violation, dict)], in order. *)
Definition mappings (l : list pyval) : list (dict pyval) :=
  omap (fun v => match v with PDict d => Some d | _ => None end) l.

(** The value under "violations" as the loop of
    [validate_and_sanitize_response] iterates it: a value that is not a
    list is replaced by the empty list. *)
Definition violations_list (d : dict pyval) : list pyval :=
  match dict_get_or "violations" (PList []) d with
  | PList l => l
  | _ => []
  end.

(** A float that [int] accepts: neither NaN nor an infinity. *)
Definition finite_value (v : pyval) : Prop :=
  match v with
  | PFloat FNan | PFloat (FInf _) => False
  | _ => True
  end.

(** The values that [int] accepts: a bool, an int, a finite float, and a
    string that [int] reads. *)
Definition int_accepts (rt : runtime) (v : pyval) : Prop :=
  match v with
  | PBool _ | PInt _ | PFloat (FNum _) => True
  | PStr s => exists z, str_int rt s = inl z
  | _ => False
  end.

(** The six keys of a sanitized violation and the types of their values:
    four strings, a line that is an int or None, an article that is a
    string or None. *)
Definition sanitized_violation (v : dict pyval) : Prop :=
  exists file line severity issue recommendation article,
    v = [ ("file", PStr file); ("line", line); ("severity", PStr severity);
          ("issue", PStr issue); ("recommendation", PStr recommendation);
          ("article", article) ]
    /\ (line = PNone \/ exists z, line = PInt z)
    /\ (article = PNone \/ exists s, article = PStr s).

(* ===================================================================== *)
(** ** utils/file_selector.py: select_files_for_rule *)
(* ===================================================================== *)

(** The synchronous selection by rule type. [max_code_files] and
    [llm_client] are accepted and not used: the code files of the result
    are the filtered ones (the comment in the source calls them a
    placeholder). [all_files] is the dict of [get_all_files]. *)
Definition select_files_for_rule (rt : runtime) (all_files : dict (list string))
    (rule : dict pyval) (max_code_files : Z) (llm_client : option client)
  : outcome (dict (list string)) :=
  let check_type := dict_get_or "check_type" (PStr "both") rule in
  let result := [("code_files", []); ("doc_files", [])] in
  let result :=
    if in_strs check_type ["document"; "both"]
    then dict_set "doc_files" (dict_get_or "doc_files" [] all_files) result
    else result in
  if in_strs check_type ["code"; "both"] then
    let code_files := dict_get_or "code_files" [] all_files in
    let code_checks := dict_get_or "code_checks" (PDict []) rule in
    enabled <~ py_get code_checks "enabled" (PBool false);
    if truthy enabled then
      keywords <~ py_get code_checks "file_keywords" (PList []);
      filtered <~ filter_by_keywords_value rt code_files keywords;
      Ret (dict_set "code_files" filtered result)
    else Ret result
  else Ret result.

(* ===================================================================== *)
(** ** analyzer.py: format_files *)
(* ===================================================================== *)

(** The line feed character, as a string. *)
Definition nl : string := String (ascii_of_nat 10) EmptyString.

(** The line boundaries of [str.splitlines] that are one character of
    ASCII: line feed, vertical tab, form feed, carriage return, and the
    file, group and record separators. *)
Definition is_line_break (c : ascii) : bool :=
  let n := nat_of_ascii c in
  ((10 <=? n)%nat && (n <=? 13)%nat) || ((28 <=? n)%nat && (n <=? 30)%nat).

(** The number of bytes of the line boundary that [s] starts with, 0
    when it starts with none. Beside the ASCII boundaries these are a
    carriage return followed by a line feed (one boundary), the next-line
    character U+0085 (bytes 194 133 in UTF-8) and the line and paragraph
    separators U+2028 and U+2029 (bytes 226 128 168 and 226 128 169). *)
Definition line_break_at (s : string) : nat :=
  match s with
  | EmptyString => 0
  | String c s' =>
      let n := nat_of_ascii c in
      if (n =? 13)%nat then
        match s' with
        | String c2 _ => if (nat_of_ascii c2 =? 10)%nat then 2 else 1
        | EmptyString => 1
        end
      else if is_line_break c then 1
      else if (n =? 194)%nat then
        match s' with
        | String c2 _ => if (nat_of_ascii c2 =? 133)%nat then 2 else 0
        | EmptyString => 0
        end
      else if (n =? 226)%nat then
        match s' with
        | String c2 (String c3 _) =>
            if (nat_of_ascii c2 =? 128)%nat
               && ((nat_of_ascii c3 =? 168)%nat || (nat_of_ascii c3 =? 169)%nat)
            then 3 else 0
        | _ => 0
        end
      else 0
  end.

(** [s.splitlines()]: the lines between the boundaries; a text that ends
    with a boundary has no empty last line. [skip] counts the bytes of a
    boundary still to be passed over. *)
Fixpoint splitlines_go (skip : nat) (cur s : string) : list string :=
  match s with
  | EmptyString => match cur with EmptyString => [] | _ => [cur] end
  | String c s' =>
      match skip with
      | S k => splitlines_go k cur s'
      | O =>
          match line_break_at s with
          | O => splitlines_go 0 (cur +:+ String c EmptyString) s'
          | S k => cur :: splitlines_go k EmptyString s'
          end
      end
  end.

Definition splitlines (s : string) : list string := splitlines_go 0 EmptyString s.

(** [sep.join(l)]. *)
Fixpoint str_join (sep : string) (l : list string) : string :=
  match l with
  | [] => EmptyString
  | [x] => x
  | x :: l' => x +:+ sep +:+ str_join sep l'
  end.

(** The text of one file as it goes into the prompt: the first 200 lines
    and a note when there are more, the content as it is otherwise. *)
Definition content_preview (content : string) : string :=
  let max_lines := 200%nat in
  let lines := splitlines content in
  if (max_lines <? length lines)%nat then
    str_join nl (take max_lines lines)
    +:+ nl +:+ "... [truncated, "
    +:+ str_of_int (Z.of_nat (length lines) - Z.of_nat max_lines)
    +:+ " more lines]"
  else content.

Definition format_files (file_contents : dict string) : string :=
  str_join nl
    (map (fun item =>
            nl +:+ "===== FILE: " +:+ fst item +:+ " =====" +:+ nl
            +:+ content_preview (snd item) +:+ nl
            +:+ "===== END OF " +:+ fst item +:+ " =====" +:+ nl)
         file_contents).

(* ===================================================================== *)
(** ** utils/repo_handler.py *)
(* ===================================================================== *)

Definition CODE_EXTENSIONS : list string :=
  [ ".py"; ".js"; ".jsx"; ".tsx"; ".ts"; ".html"; ".css"; ".java"; ".cpp"; ".c";
    ".go"; ".rb"; ".php" ].

Definition DOC_EXTENSIONS : list string := [ ".md"; ".txt"; ".pdf"; ".rst"; ".adoc" ].

Definition EXCLUDED_DIRS : list string :=
  [ "node_modules"; "dist"; "build"; ".git"; "__pycache__"; "venv"; "env"; ".venv";
    "vendor"; "target"; "bin"; "obj"; ".next"; ".nuxt"; "coverage"; ".pytest_cache";
    ".mypy_cache" ].

(** [x in s] for a set or a tuple of strings. *)
Definition in_set (x : string) (s : list string) : bool := existsb (String.eqb x) s.

(** The part of [s] from its last dot on, if it has a dot. *)
Fixpoint from_last_dot (s : string) : option string :=
  match s with
  | EmptyString => None
  | String c s' =>
      match from_last_dot s' with
      | Some r => Some r
      | None => if Ascii.eqb c "." then Some s else None
      end
  end.

(** [PurePath.suffix] on the last component [name] of a path: the part
    from the last dot on, unless that dot is the first or the last
    character of the name ([i = name.rfind('.')], [0 < i < len(name) - 1]). *)
Definition suffix (name : string) : string :=
  match name with
  | EmptyString => EmptyString
  | String _ rest =>
      match from_last_dot rest with
      | Some (String dot (String c r)) => String dot (String c r)
      | _ => EmptyString
      end
  end.

(** What [repo_path_obj.rglob("*")] yields: a path below the repository
    root, by its components, and whether it is a regular file. *)
Record dir_entry : Type := DirEntry {
  parts_below : list string;
  is_file : bool
}.

(** [any(excluded in file_path.parts for excluded in EXCLUDED_DIRS)]. *)
Definition is_excluded (parts : list string) : bool :=
  existsb (fun excluded => in_set excluded parts) EXCLUDED_DIRS.

(** [str(file_path.relative_to(repo_path_obj))], with the separator of
    POSIX paths. *)
Definition relative_path (file_path : dir_entry) : string :=
  match parts_below file_path with
  | [] => "."
  | parts => str_join "/" parts
  end.

(** [file_path.suffix.lower()]; [file_path.parts] are the components of
    the root followed by those below it. The suffix is only looked up in
    the two sets of extensions, which are ASCII without the letter k; a
    suffix with a character beyond ASCII is in neither set under
    [str.lower] (which takes no such character to an ASCII letter other
    than k) nor under [lower], so that [lower] stands for [str.lower]
    here. *)
Definition extension (repo_parts : list string) (file_path : dir_entry) : string :=
  lower (suffix (List.last (repo_parts ++ parts_below file_path) EmptyString)).

(** The loop of [get_all_files] over the paths that [rglob] yields. *)
Fixpoint traverse_repository (repo_parts : list string) (paths : list dir_entry)
    (code_files doc_files : list string) : list string * list string :=
  match paths with
  | [] => (code_files, doc_files)
  | file_path :: rest =>
      if negb (is_file file_path) then
        traverse_repository repo_parts rest code_files doc_files
      else if is_excluded (repo_parts ++ parts_below file_path) then
        traverse_repository repo_parts rest code_files doc_files
      else if in_set (extension repo_parts file_path) CODE_EXTENSIONS then
        traverse_repository repo_parts rest (code_files ++ [relative_path file_path])
          doc_files
      else if in_set (extension repo_parts file_path) DOC_EXTENSIONS then
        traverse_repository repo_parts rest code_files
          (doc_files ++ [relative_path file_path])
      else traverse_repository repo_parts rest code_files doc_files
  end.

(** [sorted(l)] on strings: the order of [str] is the order of the
    character codes, and [sorted] returns the one sorted arrangement. *)
Definition sorted (l : list string) : list string := merge_sort String.le l.

(** [get_all_files(repo_path)], given the components [repo_parts] of
    [Path(repo_path)] and the paths found below it. *)
Definition get_all_files (repo_parts : list string) (paths : list dir_entry)
  : dict (list string) :=
  let '(code_files, doc_files) := traverse_repository repo_parts paths [] [] in
  [ ("code_files", sorted code_files); ("doc_files", sorted doc_files) ].

(** The repository as [analyze_rule] sees it, from the directory tree:
    [all_files = get_all_files(repo_path)], of which it reads the two
    keys, and [read_file(filepath, repo_path)]. *)
Definition repository_at (repo_parts : list string) (paths : list dir_entry)
    (read : string -> outcome string) : repository :=
  let all_files := get_all_files repo_parts paths in
  Repository (dict_get_or "code_files" [] all_files)
             (dict_get_or "doc_files" [] all_files) read.

(** [s.rstrip(c)] for one character [c]. *)
Fixpoint rstrip_char (c : ascii) (s : string) : string :=
  match s with
  | EmptyString => EmptyString
  | String a s' =>
      match rstrip_char c s' with
      | EmptyString => if Ascii.eqb a c then EmptyString else String a EmptyString
      | r => String a r
      end
  end.

(** [s.replace(old, new)] for a non-empty [old]: the pieces between the
    leftmost non-overlapping occurrences of [old], joined by [new]. *)
Definition replace (old new s : string) : string := str_join new (split old s).

(** The directory name that [clone_repo] (and [clone_github_repo] of
    main.py) derives from the URL:
    [repo_url.rstrip("/").split("/")[-1].replace(".git", "")]. *)
Definition repo_name (repo_url : string) : string :=
  replace ".git" "" (List.last (split "/" (rstrip_char "/" repo_url)) EmptyString).

(* ===================================================================== *)
(** ** main.py: extract_rule_info *)
(* ===================================================================== *)

(** [for x in v]: the items of a list, the characters of a string, the
    keys of a dict; a [TypeError] on anything else. *)
Definition py_iter (v : pyval) : outcome (list pyval) :=
  match v with
  | PList l => Ret l
  | PStr s => Ret (map PStr (characters s))
  | PDict d => Ret (map PStr (dict_keys d))
  | _ => Raise (Exn TypeError ("'" +:+ type_name v +:+ "' object is not iterable"))
  end.

(** [[{key: p.get(key) for key in keys} for p in rule.get(section, {}).get(name, [])]]. *)
Definition project_items (rule : dict pyval) (section name : string) (keys : list string)
  : outcome pyval :=
  items <~ py_get (dict_get_or section (PDict []) rule) name (PList []);
  items <~ py_iter items;
  projected <~ traverse (fun p =>
                           fields <~ traverse (fun key =>
                                                 v <~ py_get p key PNone; Ret (key, v)) keys;
                           Ret (PDict fields)) items;
  Ret (PList projected).

Definition extract_rule_info (rule : dict pyval) : outcome (dict pyval) :=
  let code_checks := dict_get_or "code_checks" (PDict []) rule in
  let document_checks := dict_get_or "document_checks" (PDict []) rule in
  code_enabled <~ py_get code_checks "enabled" (PBool false);
  red_patterns <~ project_items rule "code_checks" "red_patterns"
                    ["pattern"; "severity"; "explanation"; "recommendation"];
  green_patterns <~ project_items rule "code_checks" "green_patterns"
                      ["pattern"; "explanation"];
  document_enabled <~ py_get document_checks "enabled" (PBool false);
  required_sections <~ py_get document_checks "required_sections" (PList []);
  must_contain_keywords <~ py_get document_checks "must_contain_keywords" (PList []);
  must_not_contain <~ py_get document_checks "must_not_contain" (PList []);
  red_flags_text <~ project_items rule "document_checks" "red_flags_text"
                      ["text"; "severity"; "explanation"];
  green_flags_text <~ py_get document_checks "green_flags_text" (PList []);
  Ret [ ("id", dict_get_or "id" PNone rule);
        ("title", dict_get_or "title" PNone rule);
        ("article", dict_get_or "article" PNone rule);
        ("article_url", dict_get_or "article_url" PNone rule);
        ("priority", dict_get_or "priority" PNone rule);
        ("description", dict_get_or "description" (PStr "") rule);
        ("code_checks",
          PDict [ ("enabled", code_enabled);
                  ("red_patterns", red_patterns);
                  ("green_patterns", green_patterns) ]);
        ("document_checks",
          PDict [ ("enabled", document_enabled);
                  ("required_sections", required_sections);
                  ("must_contain_keywords", must_contain_keywords);
                  ("must_not_contain", must_not_contain);
                  ("red_flags_text", red_flags_text);
                  ("green_flags_text", green_flags_text) ]);
        ("scoring", dict_get_or "scoring" (PDict []) rule) ].

(* ===================================================================== *)
(** ** Predicates used in the statements about the new code *)
(* ===================================================================== *)

(** The outcome of one turn of the loop of [get_all_files], as a test on
    the path: appended to the code files, appended to the documents. *)
Definition listed_as_code (repo_parts : list string) (p : dir_entry) : bool :=
  is_file p && negb (is_excluded (repo_parts ++ parts_below p))
  && in_set (extension repo_parts p) CODE_EXTENSIONS.

Definition listed_as_doc (repo_parts : list string) (p : dir_entry) : bool :=
  is_file p && negb (is_excluded (repo_parts ++ parts_below p))
  && negb (in_set (extension repo_parts p) CODE_EXTENSIONS)
  && in_set (extension repo_parts p) DOC_EXTENSIONS.

(** No line boundary starts within [u] when [s] follows it. *)
Fixpoint no_line_break (u s : string) : bool :=
  match u with
  | EmptyString => true
  | String c u' => (line_break_at (u +:+ s) =? 0)%nat && no_line_break u' s
  end.

(** A character with which no line boundary starts. *)
Definition is_plain_char (c : ascii) : bool :=
  negb (is_line_break c) && negb (nat_of_ascii c =? 194)%nat
  && negb (nat_of_ascii c =? 226)%nat.

Fixpoint is_plain (s : string) : bool :=
  match s with
  | EmptyString => true
  | String c s' => is_plain_char c && is_plain s'
  end.

(* ===================================================================== *)
(** ** The scores that count *)
(* ===================================================================== *)

(** The int scores of a list of rule results, in their order: a record
    without score, with the score None or with a score that is no number
    has none; [True] and [False] are the ints 1 and 0. Stated apart from
    [valid_score], on the values of the records. *)
Definition int_scores (results : list rule_result) : list Z :=
  omap (fun r => match result_score r with
                 | Some (PInt z) => Some z
                 | Some (PBool true) => Some 1%Z
                 | Some (PBool false) => Some 0%Z
                 | _ => None
                 end) results.

(** The score of the record is a float. *)
Definition has_float_score (r : rule_result) : Prop :=
  exists f, result_score r = Some (PFloat f).

(** [sum] on ints. *)
Definition sum_of (l : list Z) : Z := fold_right Z.add 0%Z l.

(* ===================================================================== *)
(** ** The known file names of a reply *)
(* ===================================================================== *)

(** The entries of a JSON array that are names of candidate files, in
    the order of the array: the strings of [selected] that occur in
    [candidates]. Stated apart from [keep_known], by membership. *)
Definition known_names (selected : list pyval) (candidates : list string)
  : list string :=
  omap (fun v => match v with
                 | PStr s => if decide (s ∈ candidates) then Some s else None
                 | _ => None
                 end) selected.

(* ===================================================================== *)
(** ** The fallback search as the specification words it *)
(* ===================================================================== *)

(** For comparison with the code only. The specification has the second
    attempt search the original cleaned text, that is the whole trimmed
    reply and not the part taken out of the fence, for a greedy bracket
    span, in object mode and in array mode alike. These two definitions
    differ from [parse_json_response] and [parse_file_selection_response]
    in exactly that. *)
Section AsSpecified.
Context (rt : runtime).

Definition parse_json_response_as_specified (response : string)
  : outcome (dict pyval) :=
  let original := strip response in
  except_decode_error
    (result <~ json_loads rt (remove_code_fences original);
     validate_and_sanitize_response rt result)
    (match search_braces original with
     | Some span =>
         except_decode_error
           (result <~ json_loads rt span; validate_and_sanitize_response rt result)
           (Raise (no_json_found response))
     | None => Raise (no_json_found response)
     end).

Definition parse_file_selection_as_specified (response : string)
    (filtered_files : list string) : outcome (list string) :=
  let original := strip response in
  match json_loads rt (remove_code_fences original) with
  | Ret (PList selected) => Ret (keep_known selected filtered_files)
  | Ret _ => Ret []
  | Raise e =>
      if is_json_decode_error e then
        match search_brackets_greedy original with
        | Some span =>
            except_decode_error
              (selected <~ json_loads rt span;
               match selected with
               | PList selected => Ret (keep_known selected filtered_files)
               | _ => Ret []
               end)
              (Ret [])
        | None => Ret []
        end
      else Raise e
  end.

End AsSpecified.

(* ===================================================================== *)
(** ** A runtime for the worked examples *)
(* ===================================================================== *)

(** The properties below hold for every [runtime]. To run the pipeline on
    concrete replies, this module gives one: a [json.loads] for the JSON
    texts of the examples (objects, arrays, strings with the
    single-character escapes, integers, the literals; a text with a
    fraction, an exponent or a unicode escape is not read) and a [repr]
    for the values read from them. *)
Module JsonSubset.

(** The double quote character. *)
Definition dq : ascii := ascii_of_nat 34.

(** ["s"], the JSON text of a string without special characters. *)
Definition quoted (s : string) : string := String dq (s +:+ String dq EmptyString).

Definition is_json_space (c : ascii) : bool :=
  let n := nat_of_ascii c in
  (n =? 32)%nat || (n =? 9)%nat || (n =? 10)%nat || (n =? 13)%nat.

Fixpoint skip_ws (s : string) : string :=
  match s with
  | EmptyString => EmptyString
  | String c s' => if is_json_space c then skip_ws s' else s
  end.

Definition unescape (c : ascii) : option ascii :=
  if Ascii.eqb c dq then Some dq
  else if Ascii.eqb c "\" then Some "\"%char
  else if Ascii.eqb c "/" then Some "/"%char
  else if Ascii.eqb c "b" then Some (ascii_of_nat 8)
  else if Ascii.eqb c "f" then Some (ascii_of_nat 12)
  else if Ascii.eqb c "n" then Some (ascii_of_nat 10)
  else if Ascii.eqb c "r" then Some (ascii_of_nat 13)
  else if Ascii.eqb c "t" then Some (ascii_of_nat 9)
  else None.

(** The rest of a string literal after its opening quote: the content and
    what follows the closing quote. *)
Fixpoint read_string (s : string) : option (string * string) :=
  match s with
  | EmptyString => None
  | String c s' =>
      if Ascii.eqb c dq then Some (EmptyString, s')
      else if Ascii.eqb c "\" then
        match s' with
        | String e s'' =>
            match unescape e, read_string s'' with
            | Some ch, Some (r, rest) => Some (String ch r, rest)
            | _, _ => None
            end
        | EmptyString => None
        end
      else if (nat_of_ascii c <? 32)%nat then None
      else match read_string s' with
           | Some (r, rest) => Some (String c r, rest)
           | None => None
           end
  end.

Fixpoint read_digits (acc : Z) (s : string) : Z * string :=
  match s with
  | EmptyString => (acc, s)
  | String c s' =>
      match digit_of c with
      | Some d => read_digits (10 * acc + d) s'
      | None => (acc, s)
      end
  end.

(** An integer without sign; a leading 0 stands alone. *)
Definition read_nat (s : string) : option (Z * string) :=
  match s with
  | String c s' =>
      match digit_of c with
      | Some d =>
          let '(z, rest) := if (d =? 0)%Z then (0%Z, s') else read_digits d s' in
          match rest with
          | String "." _ | String "e" _ | String "E" _ => None
          | _ => Some (z, rest)
          end
      | None => None
      end
  | EmptyString => None
  end.

(** [Some rest] when [s] starts with [word]. *)
Fixpoint after (word s : string) : option string :=
  match word, s with
  | EmptyString, _ => Some s
  | String a w, String b s' => if Ascii.eqb a b then after w s' else None
  | String _ _, EmptyString => None
  end.

(** Literals and numbers. *)
Definition read_atom (s : string) : option (pyval * string) :=
  match after "null" s, after "true" s, after "false" s with
  | Some r, _, _ => Some (PNone, r)
  | _, Some r, _ => Some (PBool true, r)
  | _, _, Some r => Some (PBool false, r)
  | _, _, _ =>
      match after "NaN" s, after "Infinity" s, after "-Infinity" s with
      | Some r, _, _ => Some (PFloat FNan, r)
      | _, Some r, _ => Some (PFloat (FInf false), r)
      | _, _, Some r => Some (PFloat (FInf true), r)
      | _, _, _ =>
          match s with
          | String "-" s' =>
              match read_nat s' with
              | Some (z, r) => Some (PInt (- z), r)
              | None => None
              end
          | _ =>
              match read_nat s with
              | Some (z, r) => Some (PInt z, r)
              | None => None
              end
          end
      end
  end.

(** [dict(pairs)]: the last value of a repeated key, at the place of its
    first occurrence. *)
Definition dict_of_pairs (pairs : list (string * pyval)) : dict pyval :=
  fold_left (fun d kv => dict_set (fst kv) (snd kv) d) pairs [].

Fixpoint read_value (fuel : nat) (s : string) {struct fuel} : option (pyval * string) :=
  match fuel with
  | O => None
  | S n =>
      match skip_ws s with
      | EmptyString => None
      | String c r =>
          if Ascii.eqb c "{" then
            match skip_ws r with
            | String "}" r' => Some (PDict [], r')
            | _ =>
                match read_members n r with
                | Some (pairs, rest) => Some (PDict (dict_of_pairs pairs), rest)
                | None => None
                end
            end
          else if Ascii.eqb c "[" then
            match skip_ws r with
            | String "]" r' => Some (PList [], r')
            | _ =>
                match read_elements n r with
                | Some (l, rest) => Some (PList l, rest)
                | None => None
                end
            end
          else if Ascii.eqb c dq then
            match read_string r with
            | Some (str, rest) => Some (PStr str, rest)
            | None => None
            end
          else read_atom (String c r)
      end
  end
with read_elements (fuel : nat) (s : string) {struct fuel}
  : option (list pyval * string) :=
  match fuel with
  | O => None
  | S n =>
      match read_value n s with
      | Some (v, rest) =>
          match skip_ws rest with
          | String "," rest' =>
              match read_elements n rest' with
              | Some (vs, r) => Some (v :: vs, r)
              | None => None
              end
          | String "]" rest' => Some ([v], rest')
          | _ => None
          end
      | None => None
      end
  end
with read_members (fuel : nat) (s : string) {struct fuel}
  : option (list (string * pyval) * string) :=
  match fuel with
  | O => None
  | S n =>
      match skip_ws s with
      | String c r =>
          if Ascii.eqb c dq then
            match read_string r with
            | Some (k, rest) =>
                match skip_ws rest with
                | String ":" rest' =>
                    match read_value n rest' with
                    | Some (v, rest'') =>
                        match skip_ws rest'' with
                        | String "," r3 =>
                            match read_members n r3 with
                            | Some (kvs, r4) => Some ((k, v) :: kvs, r4)
                            | None => None
                            end
                        | String "}" r3 => Some ([(k, v)], r3)
                        | _ => None
                        end
                    | None => None
                    end
                | _ => None
                end
            | None => None
            end
          else None
      | EmptyString => None
      end
  end.

(** The whole text must be one value, white space apart. *)
Definition loads (s : string) : option pyval :=
  match read_value (2 * String.length s + 2) s with
  | Some (v, rest) =>
      match skip_ws rest with
      | EmptyString => Some v
      | _ => None
      end
  | None => None
  end.

Fixpoint join (sep : string) (l : list string) : string :=
  match l with
  | [] => EmptyString
  | [x] => x
  | x :: l' => x +:+ sep +:+ join sep l'
  end.

(** [repr] of the values [loads] returns, for strings without quotes,
    backslashes or control characters. *)
Fixpoint repr (v : pyval) : string :=
  match v with
  | PNone => "None"
  | PBool true => "True"
  | PBool false => "False"
  | PInt z => str_of_int z
  | PFloat FNan => "nan"
  | PFloat (FInf false) => "inf"
  | PFloat (FInf true) => "-inf"
  | PFloat (FNum q) => str_of_int (Qnum q) +:+ "/" +:+ str_of_int (Zpos (Qden q))
  | PStr s => "'" +:+ s +:+ "'"
  | PList l => "[" +:+ join ", " (map repr l) +:+ "]"
  | PDict d =>
      "{" +:+ join ", " (map (fun kv => "'" +:+ fst kv +:+ "': " +:+ repr (snd kv)) d) +:+ "}"
  end.

(** [json.loads] on the texts that [loads] reads; every other text is
    taken as no JSON. *)
Definition json_loads_subset (s : string) : outcome pyval :=
  match loads s with
  | Some v => Ret v
  | None => Raise (Exn JSONDecodeError "Expecting value")
  end.

(** [int] on a [str], for ASCII literals. *)
Definition int_subset (s : string) : Z + string :=
  match int_of_str s with
  | Some z => inl z
  | None => inr (invalid_literal (repr (PStr s)))
  end.

Definition python : runtime :=
  Runtime json_loads_subset repr lower int_subset
    (fun s _ => eq_refl) (fun s _ _ => eq_refl).

End JsonSubset.

(* ===================================================================== *)
(** ** Concrete inputs for the worked examples *)
(* ===================================================================== *)

Module Examples.
Import JsonSubset.

(** No API key in the environment, and no network behind it. *)
Definition offline : environment :=
  Environment None
    (fun _ _ _ => Raise (Exn (Exception "Exception") "Featherless API error: offline")).

(** A provider that gives the same reply to every prompt. *)
Definition always (reply : string) : client := fun _ _ => Ret reply.

(** A provider that fails on every call. *)
Definition failing (message : string) : client :=
  fun _ _ => Raise (Exn (Exception "Exception") message).

(** Eight candidate files, as in the test of the file selector. *)
Definition large_files : list string :=
  [ "src/cookie.js"; "src/auth.py"; "src/api.js"; "src/analytics.js";
    "src/tracking.js"; "src/consent.js"; "src/banner.jsx"; "src/helpers.js" ].

(** A reply whose direct parse fails and that carries an object outside
    its fence: x {"score": 1} ```bad``` *)
Definition reply_object_outside_fence : string :=
  "x {" +:+ quoted "score" +:+ ": 1} ```bad```".

(** A reply with two arrays in prose: pick ["a.js"] or ["b.js"] *)
Definition reply_two_arrays : string :=
  "pick [" +:+ quoted "a.js" +:+ "] or [" +:+ quoted "b.js" +:+ "]".

(** A well-formed analysis whose verdict is null:
    {"passed": null, "violations": [], "score": 50} *)
Definition reply_passed_null : string :=
  "{" +:+ quoted "passed" +:+ ": null, " +:+ quoted "violations" +:+ ": [], "
  +:+ quoted "score" +:+ ": 50}".

(** An analysis with a score out of range:
    {"passed": false, "violations": [], "score": 150} *)
Definition reply_score_150 : string :=
  "{" +:+ quoted "passed" +:+ ": false, " +:+ quoted "violations" +:+ ": [], "
  +:+ quoted "score" +:+ ": 150}".

(** A file list with one unknown name: ["a.js", "c.js"] *)
Definition reply_unknown_file : string :=
  "[" +:+ quoted "a.js" +:+ ", " +:+ quoted "c.js" +:+ "]".

(** A well-formed analysis: {"passed": true, "violations": [], "score": 90} *)
Definition reply_passed : string :=
  "{" +:+ quoted "passed" +:+ ": true, " +:+ quoted "violations" +:+ ": [], "
  +:+ quoted "score" +:+ ": 90}".

(** A rule that checks documents only. *)
Definition document_rule : dict pyval :=
  [ ("id", PStr "lifecycle_001"); ("check_type", PStr "document") ].

(** A rule that checks code, with one keyword. *)
Definition code_rule : dict pyval :=
  [ ("id", PStr "consent_001"); ("check_type", PStr "code");
    ("code_checks",
      PDict [ ("enabled", PBool true); ("file_keywords", PList [PStr "src"]) ]) ].

(** A rule whose code checks are switched off. *)
Definition disabled_rule : dict pyval :=
  [ ("id", PStr "security_001"); ("check_type", PStr "code");
    ("code_checks", PDict [ ("enabled", PBool false) ]) ].

(** A repository with one document, which cannot be read. *)
Definition unreadable_doc_repo : repository :=
  Repository [] ["README.md"]
    (fun path => Raise (Exn FileNotFoundError ("File not found: " +:+ path))).

(** A repository with one readable document. *)
Definition doc_repo : repository :=
  Repository [] ["README.md"] (fun _ => Ret "We keep your data forever.").

(** A repository with the eight code files and no document. *)
Definition code_repo : repository :=
  Repository large_files [] (fun _ => Ret "print(1)").

(** Three violation objects, and three results that hold them: scores
    80, None (an analysis that gave no score) and 60. *)
Definition three_violations : store :=
  <[0 := [("file", PStr "src/cookie.js"); ("line", PInt 42)]]>
    (<[1 := [("file", PStr "src/auth.py"); ("line", PNone)]]>
       (<[2 := [("file", PStr "src/api.js"); ("line", PInt 7)]]> ∅)).

Definition three_results : list rule_result :=
  [ RuleResult (Some (PInt 80)) (Some [0]) (Some (PStr "consent_001"));
    RuleResult (Some PNone) (Some []) (Some (PStr "consent_002"));
    RuleResult (Some (PInt 60)) (Some [1; 2]) (Some (PStr "consent_003")) ].

(** A well-formed analysis between two sentences:
    Here is the analysis: {"passed": true, "violations": [], "score": 90} Done. *)
Definition analysis_body : string :=
  quoted "passed" +:+ ": true, " +:+ quoted "violations" +:+ ": [], "
  +:+ quoted "score" +:+ ": 90".

Definition reply_in_prose : string :=
  "Here is the analysis: " +:+ String "{" (analysis_body +:+ String "}" " Done.").

(** The three results and a fourth, whose score is a string. *)
Definition four_results : list rule_result :=
  three_results ++ [ RuleResult (Some (PStr "n/a")) None (Some (PStr "consent_004")) ].

(** A file list with one known and one unknown name:
    ["src/api.js", "nope.js"] *)
Definition reply_one_known : string :=
  "[" +:+ quoted "src/api.js" +:+ ", " +:+ quoted "nope.js" +:+ "]".

(** An analysis whose violations hold a mapping with a line given as a
    string and an entry that is no mapping. *)
Definition data_two_violations : dict pyval :=
  [ ("passed", PBool false);
    ("violations",
      PList [ PDict [("file", PStr "src/cookie.js"); ("line", PStr "12")]; PInt 3 ]);
    ("score", PInt 45) ].

(** What a traversal finds below cloned_repos/demo. *)
Definition demo_paths : list dir_entry :=
  [ DirEntry ["src"] false;
    DirEntry ["src"; "app.py"] true;
    DirEntry ["README.md"] true;
    DirEntry ["node_modules"; "lib"; "index.js"] true;
    DirEntry ["docs"; "PRIVACY.MD"] true;
    DirEntry ["src"; "Banner.JSX"] true;
    DirEntry [".gitignore"] true;
    DirEntry ["Makefile"] true ].

(** A rule as the catalog has it, with one pattern of each kind. *)
Definition catalog_rule : dict pyval :=
  [ ("id", PStr "consent_001"); ("title", PStr "Cookie consent");
    ("check_type", PStr "both");
    ("agent_prompt", PStr "You are a GDPR auditor.");
    ("code_checks",
      PDict [ ("enabled", PBool true);
              ("file_keywords", PList [PStr "cookie"]);
              ("red_patterns",
                PList [ PDict [ ("pattern", PStr "document.cookie");
                                ("severity", PStr "high");
                                ("regex", PStr "cookie") ] ]) ]);
    ("document_checks",
      PDict [ ("enabled", PBool true);
              ("red_flags_text", PList [ PDict [ ("text", PStr "forever") ] ]) ]) ].

End Examples.

(* ===================================================================== *)
(** * Properties *)
(* ===================================================================== *)

(** ** Strings *)

Lemma append_assoc (a b c : string) : (a +:+ b) +:+ c = a +:+ (b +:+ c).
Proof. induction a as [|x a IH]; [reflexivity | exact (f_equal (String x) IH)]. Qed.

Lemma append_nil_r (a : string) : a +:+ "" = a.
Proof. induction a as [|x a IH]; [reflexivity | exact (f_equal (String x) IH)]. Qed.

Lemma starts_with_spec (p s : string) :
  starts_with p s = true <-> exists post, s = p +:+ post.
Proof.
  revert s. induction p as [|a p IH]; intros s; simpl.
  - split; [intros _; exists s; reflexivity | reflexivity].
  - destruct s as [|b s]; simpl.
    + split; [discriminate | intros [post H]; discriminate].
    + rewrite andb_true_iff, Ascii.eqb_eq, IH. split.
      * intros [-> [post ->]]. exists post. reflexivity.
      * intros [post H]. injection H as -> ->. split; [reflexivity | eauto].
Qed.

Lemma contains_spec (needle hay : string) :
  contains needle hay = true <-> is_substring needle hay.
Proof.
  unfold is_substring. induction hay as [|c hay IH].
  - simpl. rewrite orb_false_r, starts_with_spec. split.
    + intros [post H]. exists EmptyString, post. exact H.
    + intros [[|a pre] [post H]]; [exists post; exact H | discriminate].
  - cbn [contains]. rewrite orb_true_iff, starts_with_spec, IH. split.
    + intros [[post H] | [pre [post H]]].
      * exists EmptyString, post. exact H.
      * exists (String c pre), post. simpl. rewrite H. reflexivity.
    + intros [[|a pre] [post H]].
      * left. exists post. exact H.
      * right. simpl in H. injection H as -> ->. exists pre, post. reflexivity.
Qed.

Lemma from_first_spec (c : ascii) (s r : string) :
  from_first c s = Some r ->
  exists pre rest, s = pre +:+ r /\ r = String c rest /\ has_char c pre = false.
Proof.
  induction s as [|a s IH]; simpl; [discriminate |].
  destruct (Ascii.eqb_spec a c) as [-> | Hne].
  - intros [= <-]. exists EmptyString, s. repeat split.
  - intros H. destruct (IH H) as [pre [rest [-> [-> Hpre]]]].
    exists (String a pre), rest. simpl. rewrite Hpre.
    destruct (Ascii.eqb_spec a c); [contradiction | repeat split].
Qed.

Lemma through_last_spec (c : ascii) (s r : string) :
  through_last c s = Some r ->
  exists body post,
    r = body +:+ String c EmptyString /\ s = r +:+ post /\ has_char c post = false.
Proof.
  revert r. induction s as [|a s IH]; intros r; simpl; [discriminate |].
  destruct (through_last c s) as [r'|] eqn:E.
  - intros [= <-]. destruct (IH r' eq_refl) as [body [post [-> [-> Hpost]]]].
    exists (String a body), post. repeat split. exact Hpost.
  - destruct (Ascii.eqb_spec a c) as [-> | Hne]; [| discriminate].
    intros [= <-]. exists EmptyString, s. repeat split.
    clear IH. induction s as [|b s IHs]; [reflexivity |].
    simpl in E |- *. destruct (through_last c s); [discriminate |].
    destruct (Ascii.eqb b c); [discriminate | apply IHs; reflexivity].
Qed.

Lemma through_first_spec (c : ascii) (s r : string) :
  through_first c s = Some r ->
  exists body post,
    r = body +:+ String c EmptyString /\ s = r +:+ post /\ has_char c body = false.
Proof.
  revert r. induction s as [|a s IH]; intros r; simpl; [discriminate |].
  destruct (Ascii.eqb_spec a c) as [-> | Hne].
  - intros [= <-]. exists EmptyString, s. repeat split.
  - destruct (through_first c s) as [r'|]; simpl; [| discriminate].
    intros [= <-]. destruct (IH r' eq_refl) as [body [post [-> [-> Hbody]]]].
    exists (String a body), post. simpl. rewrite Hbody.
    destruct (Ascii.eqb_spec a c); [contradiction | repeat split].
Qed.

(** The span of [search_braces]: from the first opening brace of the text
    to its last closing brace. *)
Lemma search_braces_spec (s span : string) :
  search_braces s = Some span ->
  exists pre body post,
    s = pre +:+ span +:+ post
    /\ span = String "{" (body +:+ "}")
    /\ has_char "{" pre = false /\ has_char "}" post = false.
Proof.
  unfold search_braces. destruct (from_first "{" s) as [r|] eqn:E; [| discriminate].
  destruct (from_first_spec _ _ _ E) as [pre [rest [-> [-> Hpre]]]].
  destruct (through_last "}" rest) as [r'|] eqn:E'; simpl; [| discriminate].
  intros [= <-]. destruct (through_last_spec _ _ _ E') as [body [post [-> [-> Hpost]]]].
  exists pre, body, post. repeat split; assumption.
Qed.

(** The span of [search_brackets]: from the first opening bracket of the
    text to the first closing bracket after it. *)
Lemma search_brackets_spec (s span : string) :
  search_brackets s = Some span ->
  exists pre body post,
    s = pre +:+ span +:+ post
    /\ span = String "[" (body +:+ "]")
    /\ has_char "[" pre = false /\ has_char "]" body = false.
Proof.
  unfold search_brackets. destruct (from_first "[" s) as [r|] eqn:E; [| discriminate].
  destruct (from_first_spec _ _ _ E) as [pre [rest [-> [-> Hpre]]]].
  destruct (through_first "]" rest) as [r'|] eqn:E'; simpl; [| discriminate].
  intros [= <-]. destruct (through_first_spec _ _ _ E') as [body [post [-> [-> Hbody]]]].
  exists pre, body, post. repeat split; assumption.
Qed.

Lemma filter_sublist_of {A : Type} (f : A -> bool) (l : list A) :
  sublist (List.filter f l) l.
Proof.
  induction l as [|x l IH]; simpl.
  - constructor.
  - destruct (f x); constructor; exact IH.
Qed.

(** ** KeywordFilter *)

(** C7. With no keyword the file list comes back as it is. With keywords
    the result is the file list filtered, in its order, by a test that
    holds exactly for the paths whose lowercase form contains the
    lowercase form of some keyword; so the result is a subsequence of the
    files, and an upper-case keyword finds a lower-case path. The
    lowercase form is that of [str.lower], on every text. *)
Theorem filter_by_keywords_contract (rt : runtime) (F K : list string) :
  filter_by_keywords rt F [] = F
  /\ sublist (filter_by_keywords rt F K) F
  /\ (K <> [] ->
      exists keep : string -> bool,
        (forall p, keep p = true <->
                   exists k, In k K
                             /\ is_substring (str_lower rt k) (str_lower rt p))
        /\ filter_by_keywords rt F K = List.filter keep F)
  /\ filter_by_keywords rt ["src/cookie.js"; "src/api.js"] ["COOKIE"]
     = ["src/cookie.js"].
Proof.
  split; [reflexivity |]. split; [| split].
  - destruct K as [|k K]; simpl; [reflexivity | apply filter_sublist_of].
  - intros HK. destruct K as [|k0 K0]; [congruence |].
    exists (fun filepath =>
              existsb (fun keyword => contains keyword (str_lower rt filepath))
                (map (str_lower rt) (k0 :: K0))).
    split; [| reflexivity].
    intros p. rewrite existsb_exists. split.
    + intros [kl [Hin Hc]]. apply in_map_iff in Hin as [k [<- Hk]].
      exists k. split; [exact Hk | apply contains_spec; exact Hc].
    + intros [k [Hk Hs]]. exists (str_lower rt k). split.
      * apply in_map. exact Hk.
      * apply contains_spec. exact Hs.
  - unfold filter_by_keywords. cbn [map List.filter existsb].
    rewrite !(str_lower_ascii rt) by reflexivity. reflexivity.
Qed.

(** ** FileSelector *)

Section FileSelectorProperties.
Context (rt : runtime) (env : environment).

(** C4. A candidate list no longer than the maximum is returned as it is,
    and the log of provider calls is left as it was: no call is made,
    whatever client was or was not passed. *)
Theorem select_best_files_small (filtered_files : list string) (rule : dict pyval)
    (max_files : Z) (llm_client : option client) (w : world) :
  (Z.of_nat (length filtered_files) <= max_files)%Z ->
  select_best_files rt env filtered_files rule max_files llm_client w
  = (Ret filtered_files, w).
Proof.
  intros H. unfold select_best_files.
  destruct (Z.leb_spec (Z.of_nat (length filtered_files)) max_files) as [_ | Hgt].
  - reflexivity.
  - lia.
Qed.

Lemma In_take {A : Type} (n : nat) (l : list A) (x : A) :
  In x (take n l) -> In x l.
Proof.
  revert l. induction n as [|n IH]; intros [|a l]; simpl; try contradiction.
  intros [-> | H]; [left; reflexivity | right; apply IH; exact H].
Qed.

Lemma keep_known_In (selected : list pyval) (available_files : list string) (f : string) :
  In f (keep_known selected available_files) -> In f available_files.
Proof.
  unfold keep_known. rewrite in_flat_map. intros [v [_ Hf]].
  destruct v as [| | | |s| |]; try contradiction.
  destruct (in_strs (PStr s) available_files) eqn:E; [| contradiction].
  destruct Hf as [<- | []]. apply existsb_exists in E as [x [Hx Heq]].
  apply String.eqb_eq in Heq. subst x. exact Hx.
Qed.

Lemma in_strs_elem_of (s : string) (l : list string) :
  in_strs (PStr s) l = true <-> s ∈ l.
Proof.
  unfold in_strs. rewrite existsb_exists, list_elem_of_In. split.
  - intros [x [Hx Heq]]. apply String.eqb_eq in Heq. subst x. exact Hx.
  - intros H. exists s. split; [exact H | apply String.eqb_refl].
Qed.

(** The comprehension of the code keeps the known names. *)
Lemma keep_known_known_names (selected : list pyval) (available_files : list string) :
  keep_known selected available_files = known_names selected available_files.
Proof.
  induction selected as [|v l IH]; [reflexivity |].
  change (keep_known (v :: l) available_files)
    with (match v with
          | PStr s => if in_strs v available_files then [s] else []
          | _ => []
          end ++ keep_known l available_files).
  rewrite IH. unfold known_names. destruct v as [| | | |s| |]; try reflexivity.
  simpl. destruct (decide (s ∈ available_files)) as [Hin | Hout].
  - apply in_strs_elem_of in Hin. rewrite Hin. reflexivity.
  - destruct (in_strs (PStr s) available_files) eqn:E; [| reflexivity].
    exfalso. apply Hout. apply in_strs_elem_of. exact E.
Qed.

(** One attempt to read a file list from a text, by what [json.loads]
    does with it. *)
Lemma selection_from_span_cases (cleaned : string) (available_files : list string) :
  match search_brackets cleaned with
  | None => selection_from_span rt cleaned available_files = Ret []
  | Some span =>
      match json_loads rt span with
      | Ret (PList l) =>
          selection_from_span rt cleaned available_files
          = Ret (known_names l available_files)
      | Ret _ => selection_from_span rt cleaned available_files = Ret []
      | Raise e =>
          selection_from_span rt cleaned available_files
          = if is_json_decode_error e then Ret [] else Raise e
      end
  end.
Proof.
  unfold selection_from_span. destruct (search_brackets cleaned) as [span|]; [| reflexivity].
  destruct (json_loads rt span) as [[| | | | |l|]|e]; try reflexivity.
  cbn [obind except_decode_error]. rewrite keep_known_known_names. reflexivity.
Qed.

Lemma selection_from_span_known (cleaned : string) (available_files l : list string)
    (f : string) :
  selection_from_span rt cleaned available_files = Ret l -> In f l ->
  In f available_files.
Proof.
  unfold selection_from_span. destruct (search_brackets cleaned) as [span|].
  - destruct (json_loads rt span) as [[| | | | |sel|]|e]; cbn [obind except_decode_error];
      try (intros [= <-] []).
    + intros [= <-]. apply keep_known_In.
    + destruct (is_json_decode_error e); [intros [= <-] [] | discriminate].
  - intros [= <-] [].
Qed.

Lemma parse_file_selection_response_known (response : string)
    (filtered_files l : list string) (f : string) :
  parse_file_selection_response rt response filtered_files = Ret l -> In f l ->
  In f filtered_files.
Proof.
  unfold parse_file_selection_response.
  destruct (json_loads rt (remove_code_fences (strip response))) as [[| | | | |sel|]|e];
    try (intros [= <-] []).
  - intros [= <-]. apply keep_known_In.
  - destruct (is_json_decode_error e); [apply selection_from_span_known | discriminate].
Qed.


End FileSelectorProperties.

(** ** ResponseExtractor *)

Section JsonParserProperties.
Context (rt : runtime).

(** [int] raises [ValueError], [OverflowError] or [TypeError], and the
    sanitizing raises what [int] and [get] raise: never a
    [JSONDecodeError]. *)
Lemma py_int_no_decode_error (v : pyval) (e : exn) :
  py_int rt v = Raise e -> is_json_decode_error e = false.
Proof.
  destruct v as [| | |[| |]|s| |]; simpl; try discriminate;
    try (intros [= <-]; reflexivity).
  destruct (str_int rt s); [discriminate | intros [= <-]; reflexivity].
Qed.

Lemma py_get_no_decode_error (obj : pyval) (key : string) (default : pyval) (e : exn) :
  py_get obj key default = Raise e -> is_json_decode_error e = false.
Proof.
  destruct obj; simpl; try discriminate; intros [= <-]; reflexivity.
Qed.

Lemma sanitize_violation_no_decode_error (violation : dict pyval) (e : exn) :
  sanitize_violation rt violation = Raise e -> is_json_decode_error e = false.
Proof.
  unfold sanitize_violation.
  destruct (truthy (dict_get_or "line" PNone violation)); [| discriminate].
  destruct (py_int rt (dict_get_or "line" (PInt 0) violation)) as [z | e'] eqn:E;
    cbn [obind]; [discriminate |].
  intros [= <-]. exact (py_int_no_decode_error _ _ E).
Qed.

Lemma sanitize_violations_no_decode_error (violations : list pyval) (e : exn) :
  sanitize_violations rt violations = Raise e -> is_json_decode_error e = false.
Proof.
  induction violations as [|v l IH]; [discriminate |].
  destruct v as [| | | | | |d]; cbn [sanitize_violations]; try exact IH.
  destruct (sanitize_violation rt d) as [v | e'] eqn:E; cbn [obind].
  - destruct (sanitize_violations rt l) as [vs | e'']; cbn [obind]; [discriminate |].
    intros [= <-]. apply IH. reflexivity.
  - intros [= <-]. exact (sanitize_violation_no_decode_error _ _ E).
Qed.

Lemma validate_and_sanitize_response_no_decode_error (data : pyval) (e : exn) :
  validate_and_sanitize_response rt data = Raise e -> is_json_decode_error e = false.
Proof.
  unfold validate_and_sanitize_response.
  destruct (py_get data "passed" (PBool false)) as [passed | e1] eqn:E1; cbn [obind];
    [| intros [= <-]; exact (py_get_no_decode_error _ _ _ _ E1)].
  destruct (py_get data "violations" (PList [])) as [vs | e2] eqn:E2; cbn [obind];
    [| intros [= <-]; exact (py_get_no_decode_error _ _ _ _ E2)].
  destruct (py_get data "score" (PInt 0)) as [sc | e3] eqn:E3; cbn [obind];
    [| intros [= <-]; exact (py_get_no_decode_error _ _ _ _ E3)].
  destruct (is_number sc).
  - destruct (py_int rt sc) as [z | e4] eqn:E4; cbn [obind];
      [| intros [= <-]; exact (py_int_no_decode_error _ _ E4)].
    destruct (sanitize_violations rt _) as [svs | e5] eqn:E5; cbn [obind];
      [discriminate | intros [= <-]; exact (sanitize_violations_no_decode_error _ _ E5)].
  - cbn [obind].
    destruct (sanitize_violations rt _) as [svs | e5] eqn:E5; cbn [obind];
      [discriminate | intros [= <-]; exact (sanitize_violations_no_decode_error _ _ E5)].
Qed.

(** One attempt of [parse_json_response] on a text: the sanitized value,
    the handler on a [JSONDecodeError], any other exception as it is. *)
Lemma read_object_cases (text : string) (handler : outcome (dict pyval)) :
  except_decode_error
    (result <~ json_loads rt text; validate_and_sanitize_response rt result) handler
  = match json_loads rt text with
    | Ret result => validate_and_sanitize_response rt result
    | Raise e => if is_json_decode_error e then handler else Raise e
    end.
Proof.
  destruct (json_loads rt text) as [result | e]; [| reflexivity].
  cbn [obind]. destruct (validate_and_sanitize_response rt result) as [r | e] eqn:E;
    [reflexivity |].
  cbn [except_decode_error].
  rewrite (validate_and_sanitize_response_no_decode_error _ _ E). reflexivity.
Qed.

(** [parse_json_response] by cases on the two calls of [json.loads]. *)
Lemma parse_json_response_cases (response : string) :
  parse_json_response rt response
  = match json_loads rt (remove_code_fences (strip response)) with
    | Ret result => validate_and_sanitize_response rt result
    | Raise e =>
        if is_json_decode_error e then
          match search_braces (remove_code_fences (strip response)) with
          | Some span =>
              match json_loads rt span with
              | Ret result => validate_and_sanitize_response rt result
              | Raise e' =>
                  if is_json_decode_error e' then Raise (no_json_found response)
                  else Raise e'
              end
          | None => Raise (no_json_found response)
          end
        else Raise e
    end.
Proof.
  unfold parse_json_response. rewrite read_object_cases.
  destruct (json_loads rt _) as [result | e]; [reflexivity |].
  destruct (is_json_decode_error e); [| reflexivity].
  destruct (search_braces _) as [span|]; [| reflexivity].
  apply read_object_cases.
Qed.

Lemma from_first_found (c : ascii) (pre rest : string) :
  has_char c pre = false ->
  from_first c (pre +:+ String c rest) = Some (String c rest).
Proof.
  induction pre as [|a pre IH]; intros Hpre.
  - change (from_first c (String c rest) = Some (String c rest)). simpl.
    rewrite Ascii.eqb_refl. reflexivity.
  - simpl in Hpre. apply orb_false_iff in Hpre as [Ha Hpre].
    change (from_first c (String a (pre +:+ String c rest)) = Some (String c rest)).
    simpl. rewrite Ha. apply IH. exact Hpre.
Qed.

Lemma through_last_none (c : ascii) (s : string) :
  has_char c s = false -> through_last c s = None.
Proof.
  induction s as [|a s IH]; [reflexivity |]. simpl. intros H.
  apply orb_false_iff in H as [Ha Hs]. rewrite (IH Hs), Ha. reflexivity.
Qed.

Lemma through_last_found (c : ascii) (body post : string) :
  has_char c post = false ->
  through_last c (body +:+ String c post) = Some (body +:+ String c EmptyString).
Proof.
  intros Hpost. induction body as [|a body IH].
  - change (through_last c (String c post) = Some (String c EmptyString)). simpl.
    rewrite (through_last_none _ _ Hpost), Ascii.eqb_refl. reflexivity.
  - change (through_last c (String a (body +:+ String c post))
            = Some (String a (body +:+ String c EmptyString))).
    simpl. rewrite IH. reflexivity.
Qed.

Lemma through_first_found (c : ascii) (body post : string) :
  has_char c body = false ->
  through_first c (body +:+ String c post) = Some (body +:+ String c EmptyString).
Proof.
  induction body as [|a body IH]; intros Hbody.
  - change (through_first c (String c post) = Some (String c EmptyString)). simpl.
    rewrite Ascii.eqb_refl. reflexivity.
  - simpl in Hbody. apply orb_false_iff in Hbody as [Ha Hbody].
    change (through_first c (String a (body +:+ String c post))
            = Some (String a (body +:+ String c EmptyString))).
    simpl. rewrite Ha, (IH Hbody). reflexivity.
Qed.

(** The brace span that is there is the one found: from the first
    opening brace to the last closing brace after it. *)
Lemma search_braces_found (pre body post : string) :
  has_char "{" pre = false -> has_char "}" post = false ->
  search_braces (pre +:+ String "{" (body +:+ String "}" post))
  = Some (String "{" (body +:+ "}")).
Proof.
  intros Hpre Hpost. unfold search_braces.
  rewrite (from_first_found _ _ _ Hpre), (through_last_found _ _ _ Hpost). reflexivity.
Qed.

(** The bracket span that is there is the one found: from the first
    opening bracket to the first closing bracket after it. *)
Lemma search_brackets_found (pre body post : string) :
  has_char "[" pre = false -> has_char "]" body = false ->
  search_brackets (pre +:+ String "[" (body +:+ String "]" post))
  = Some (String "[" (body +:+ "]")).
Proof.
  intros Hpre Hbody. unfold search_brackets.
  rewrite (from_first_found _ _ _ Hpre), (through_first_found _ _ _ Hbody). reflexivity.
Qed.

(** Without an opening brace that a closing brace follows there is no
    span, and likewise for brackets. *)
Lemma search_braces_none (s : string) :
  (forall pre body post, s <> pre +:+ String "{" (body +:+ String "}" post)) ->
  search_braces s = None.
Proof.
  intros Hno. destruct (search_braces s) as [span|] eqn:E; [| reflexivity].
  destruct (search_braces_spec _ _ E) as (pre & body & post & Hs & -> & _).
  exfalso. apply (Hno pre body post). rewrite Hs.
  change (String "{" (body +:+ "}") +:+ post)
    with (String "{" ((body +:+ "}") +:+ post)).
  rewrite append_assoc. reflexivity.
Qed.

Lemma search_brackets_none (s : string) :
  (forall pre body post, s <> pre +:+ String "[" (body +:+ String "]" post)) ->
  search_brackets s = None.
Proof.
  intros Hno. destruct (search_brackets s) as [span|] eqn:E; [| reflexivity].
  destruct (search_brackets_spec _ _ E) as (pre & body & post & Hs & -> & _).
  exfalso. apply (Hno pre body post). rewrite Hs.
  change (String "[" (body +:+ "]") +:+ post)
    with (String "[" ((body +:+ "]") +:+ post)).
  rewrite append_assoc. reflexivity.
Qed.

(** C5, as the code has it. When the direct parse of the text taken out of
    the fences fails with a [JSONDecodeError], the second attempt
    searches that same text, not the whole trimmed reply.
    - Object mode: when the text has an opening brace that a closing
      brace follows, the span from its first opening brace to its last
      closing brace is parsed and sanitized; when the span is not JSON,
      or the text has no such span, the [ValueError] "No valid JSON found"
      is raised.
    - Array mode, in both file-list parsers: when the text has an opening
      bracket that a closing bracket follows, the span from its first
      opening bracket to the first closing bracket after it is parsed,
      and the known names of the array are returned; a span that is no
      JSON array, and a text without span, give the empty list.
    An exception of [json.loads] on the span other than
    [JSONDecodeError] leaves the parser. *)
Theorem fallback_searches_fence_stripped_text (response : string)
    (available_files : list string) :
  let cleaned := remove_code_fences (strip response) in
  not_json rt cleaned ->
  (forall pre body post,
     cleaned = pre +:+ String "{" (body +:+ String "}" post) ->
     has_char "{" pre = false -> has_char "}" post = false ->
     let span := String "{" (body +:+ "}") in
     (forall result, json_loads rt span = Ret result ->
        parse_json_response rt response = validate_and_sanitize_response rt result)
     /\ (not_json rt span ->
         parse_json_response rt response = Raise (no_json_found response))
     /\ (forall e, json_loads rt span = Raise e -> is_json_decode_error e = false ->
           parse_json_response rt response = Raise e))
  /\ ((forall pre body post,
         cleaned <> pre +:+ String "{" (body +:+ String "}" post)) ->
      parse_json_response rt response = Raise (no_json_found response))
  /\ (forall pre body post,
        cleaned = pre +:+ String "[" (body +:+ String "]" post) ->
        has_char "[" pre = false -> has_char "]" body = false ->
        let span := String "[" (body +:+ "]") in
        (forall l, json_loads rt span = Ret (PList l) ->
           parse_file_selection_response rt response available_files
           = Ret (known_names l available_files))
        /\ (forall v, json_loads rt span = Ret v -> (forall l, v <> PList l) ->
              parse_file_selection_response rt response available_files = Ret [])
        /\ (not_json rt span ->
            parse_file_selection_response rt response available_files = Ret [])
        /\ (forall e, json_loads rt span = Raise e -> is_json_decode_error e = false ->
              parse_file_selection_response rt response available_files = Raise e))
  /\ ((forall pre body post,
         cleaned <> pre +:+ String "[" (body +:+ String "]" post)) ->
      parse_file_selection_response rt response available_files = Ret [])
  /\ parse_llm_file_selection rt response available_files
     = parse_file_selection_response rt response available_files.
Proof.
  intros cleaned [e [He Hd]]. subst cleaned.
  pose proof (selection_from_span_cases rt (remove_code_fences (strip response))
                available_files) as Hspan.
  rewrite parse_json_response_cases.
  unfold parse_file_selection_response, parse_llm_file_selection.
  rewrite He, Hd. split; [| split; [| split; [| split]]].
  - intros pre body post Hc Hpre Hpost. cbv zeta.
    rewrite Hc, (search_braces_found _ _ _ Hpre Hpost). split; [| split].
    + intros result ->. reflexivity.
    + intros [e' [-> ->]]. reflexivity.
    + intros e' -> ->. reflexivity.
  - intros Hno. rewrite (search_braces_none _ Hno). reflexivity.
  - intros pre body post Hc Hpre Hbody. cbv zeta.
    rewrite Hc in Hspan |- *. rewrite (search_brackets_found _ _ _ Hpre Hbody) in Hspan.
    split; [| split; [| split]].
    + intros l Hl. rewrite Hl in Hspan. exact Hspan.
    + intros v Hv Hnl. rewrite Hv in Hspan.
      destruct v; try (exfalso; exact (Hnl _ eq_refl)); exact Hspan.
    + intros [e' [He' Hd']]. rewrite He', Hd' in Hspan. exact Hspan.
    + intros e' He' Hd'. rewrite He', Hd' in Hspan. exact Hspan.
  - intros Hno. rewrite (search_brackets_none _ Hno) in Hspan. exact Hspan.
  - reflexivity.
Qed.

(** C6 fails on a violation whose line is a string that is not a number,
    here "N/A": the cast of the line is not guarded as the cast of the
    score is, and the [ValueError] of [int] leaves the function. *)
Theorem validate_and_sanitize_response_line_raises :
  validate_and_sanitize_response rt
    (PDict [ ("passed", PBool false);
             ("violations", PList [ PDict [ ("file", PStr "src/cookie.js");
                                            ("line", PStr "N/A") ] ]);
             ("score", PInt 45) ])
  = Raise (Exn ValueError
             ("invalid literal for int() with base 10: " +:+ py_repr rt (PStr "N/A"))).
Proof.
  unfold validate_and_sanitize_response. simpl. unfold sanitize_violation. simpl.
  rewrite (str_int_ascii rt "N/A" eq_refl) by (cbn [String.length]; lia).
  reflexivity.
Qed.

(** The shape of every sanitized reply: three keys, a list of violations
    and an integer score between 0 and 100. *)
Lemma validate_and_sanitize_response_shape (data : pyval) (result : dict pyval) :
  validate_and_sanitize_response rt data = Ret result ->
  exists d vs z,
    data = PDict d
    /\ result = [ ("passed", dict_get_or "passed" (PBool false) d);
                  ("violations", PList vs); ("score", PInt z) ]
    /\ (0 <= z <= 100)%Z
    /\ (is_number (dict_get_or "score" (PInt 0) d) = false -> z = 0%Z).
Proof.
  unfold validate_and_sanitize_response.
  destruct data as [| | | | | |d]; try discriminate. cbn [py_get obind].
  destruct (is_number (dict_get_or "score" (PInt 0) d)) eqn:Hnum.
  - destruct (py_int rt (dict_get_or "score" (PInt 0) d)) as [z | e]; [| discriminate].
    cbn [obind].
    destruct (sanitize_violations rt _) as [vs | e]; [| discriminate].
    intros [= <-]. exists d, vs, (Z.max 0 (Z.min 100 z)).
    repeat split; try lia. congruence.
  - cbn [obind].
    destruct (sanitize_violations rt _) as [vs | e]; [| discriminate].
    intros [= <-]. exists d, vs, 0%Z. repeat split; lia.
Qed.

(** A score above the range is clamped, a score that is not a number
    becomes 0, a violation without line keeps line = None and gets the
    default severity, and an entry that is not a mapping is dropped. *)
Theorem validate_and_sanitize_response_examples :
  validate_and_sanitize_response rt (PDict [("score", PInt 150)])
  = Ret [("passed", PBool false); ("violations", PList []); ("score", PInt 100)]
  /\ validate_and_sanitize_response rt (PDict [("score", PStr "abc")])
     = Ret [("passed", PBool false); ("violations", PList []); ("score", PInt 0)]
  /\ validate_and_sanitize_response rt
       (PDict [("passed", PBool true);
               ("violations", PList [PDict [("file", PStr "src/cookie.js")]; PInt 3])])
     = Ret [("passed", PBool true);
            ("violations",
              PList [PDict [("file", PStr "src/cookie.js"); ("line", PNone);
                            ("severity", PStr "medium");
                            ("issue", PStr "No description");
                            ("recommendation", PStr "No recommendation");
                            ("article", PNone)]]);
            ("score", PInt 0)].
Proof. repeat split; reflexivity. Qed.

(** When [validate_and_sanitize_response] returns, the result has passed
    as given (False when missing), a list under violations, and under
    score an integer between 0 and 100, which is 0 when the score is
    missing or not a number. *)
Theorem validate_and_sanitize_response_fields (d result : dict pyval) :
  validate_and_sanitize_response rt (PDict d) = Ret result ->
  dict_get "passed" result = Some (dict_get_or "passed" (PBool false) d)
  /\ (exists vs, dict_get "violations" result = Some (PList vs))
  /\ (exists z, dict_get "score" result = Some (PInt z)
                /\ (0 <= z <= 100)%Z
                /\ (dict_get "score" d = None -> z = 0%Z)
                /\ (is_number (dict_get_or "score" (PInt 0) d) = false -> z = 0%Z)).
Proof.
  intros H.
  assert (Hmissing : dict_get "score" d = None ->
            validate_and_sanitize_response rt (PDict d) = Ret result ->
            dict_get "score" result = Some (PInt 0)).
  { unfold validate_and_sanitize_response. cbn [py_get obind]. unfold dict_get_or.
    intros ->. cbn [is_number py_int obind].
    destruct (sanitize_violations rt _); [| discriminate]. intros [= <-]. reflexivity. }
  destruct (validate_and_sanitize_response_shape _ _ H)
    as (d' & vs & z & [= <-] & -> & Hz & Hnum).
  split; [reflexivity |]. split; [exists vs; reflexivity |].
  exists z. split; [reflexivity |]. split; [exact Hz |]. split; [| exact Hnum].
  intros Hnone. specialize (Hmissing Hnone H). simpl in Hmissing. congruence.
Qed.

(** Whatever [parse_json_response] returns has the sanitized shape. *)
Lemma parse_json_response_shape (response : string) (result : dict pyval) :
  parse_json_response rt response = Ret result ->
  exists passed vs z,
    result = [("passed", passed); ("violations", PList vs); ("score", PInt z)]
    /\ (0 <= z <= 100)%Z.
Proof.
  rewrite parse_json_response_cases. intros H.
  assert (Hv : exists data, validate_and_sanitize_response rt data = Ret result).
  { destruct (json_loads rt (remove_code_fences (strip response))) as [data|e]; [eauto |].
    destruct (is_json_decode_error e); [| discriminate].
    destruct (search_braces _) as [span|]; [| discriminate].
    destruct (json_loads rt span) as [data|e']; [eauto |].
    destruct (is_json_decode_error e'); discriminate. }
  destruct Hv as [data Hv].
  destruct (validate_and_sanitize_response_shape data result Hv)
    as (d & vs & z & _ & -> & Hz & _).
  eauto.
Qed.

End JsonParserProperties.

(** ** RuleAnalyzer *)

Lemma dict_keys_set {V : Type} (k : string) (v : V) (d : dict V) (f : string) :
  In f (dict_keys (dict_set k v d)) <-> f = k \/ In f (dict_keys d).
Proof.
  unfold dict_keys. induction d as [|[k' v'] d IH]; simpl.
  - intuition.
  - destruct (String.eqb_spec k k') as [-> | Hne]; simpl.
    + intuition.
    + rewrite IH. intuition.
Qed.

(** The files read are the selected files whose read succeeded. *)
Lemma read_files_keys (repo : repository) (selected_files : list string)
    (file_contents : dict string) (f : string) :
  In f (dict_keys (read_files repo selected_files file_contents))
  <-> In f (dict_keys file_contents)
      \/ (In f selected_files /\ exists content, read_file repo f = Ret content).
Proof.
  revert file_contents. induction selected_files as [|p l IH]; intros fc; simpl.
  - split; [auto | intros [H | [[] _]]; exact H].
  - destruct (read_file repo p) as [content | e] eqn:E; rewrite IH.
    + rewrite dict_keys_set. split.
      * intros [[-> | H] | [H1 H2]]; eauto 6.
      * intros [H | [[-> | H1] H2]]; eauto 6.
    + split.
      * intros [H | [H1 H2]]; eauto 6.
      * intros [H | [[-> | H1] [content H2]]]; eauto 6. congruence.
Qed.

Section AnalyzerProperties.
Context (rt : runtime) (env : environment).

(** [analyze_rule] with a client, split at the end of file selection. *)
Lemma analyze_rule_after_selection (rule : dict pyval) (repo : repository)
    (c : client) (w : world) :
  analyze_rule rt env rule repo (Some c) w
  = match select_files rt env rule repo c w with
    | (Raise e, w1) => (Raise e, w1)
    | (Ret selected_files, w1) =>
        if (length selected_files =? 0)%nat then (Ret (no_files_result rule), w1)
        else
          let file_contents := read_files repo selected_files [] in
          match call_llm_for_rule rt rule file_contents c w1 with
          | (Ret result, w2) =>
              (Ret (add_metadata rule (dict_keys file_contents) result), w2)
          | (Raise e, w2) =>
              (Ret (error_result rule (dict_keys file_contents) e), w2)
          end
    end.
Proof.
  unfold analyze_rule, bind, ret, try_except. simpl.
  destruct (select_files rt env rule repo c w) as [[sel | e] w1]; [| reflexivity].
  destruct (length sel =? 0)%nat; [reflexivity |].
  destruct (call_llm_for_rule rt rule (read_files repo sel []) c w1) as [[r | e] w2];
    reflexivity.
Qed.

(** [call_llm_for_rule], step by step. *)
Lemma call_llm_for_rule_steps (rule : dict pyval) (file_contents : dict string)
    (c : client) (w : world) :
  call_llm_for_rule rt rule file_contents c w
  = match analysis_prompt rule file_contents with
    | Raise e => (Raise e, w)
    | Ret p =>
        match c w p with
        | Raise e => (Raise e, w ++ [p])
        | Ret response => (parse_json_response rt response, w ++ [p])
        end
    end.
Proof.
  unfold call_llm_for_rule, bind, lift, generate_completion.
  destruct (analysis_prompt rule file_contents) as [p | e]; [| reflexivity].
  destruct (c w p); reflexivity.
Qed.

(** C1, as the code has it. Given a client, once the files are selected
    [analyze_rule] returns a result and raises nothing:
    - with no file selected, the result for "no relevant files";
    - otherwise the files are read, a file whose read fails being left
      out and the others kept, and then every exception raised while the
      prompt is built, by the completion call or by the parsing of the
      reply is turned into the error result, which holds passed = None,
      score = 0, no violation, the files that were read and the text of
      the exception under "error";
    - when nothing is raised, the parsed reply comes back with the rule id
      and the files that were read. *)
Theorem analyze_rule_returns (rule : dict pyval) (repo : repository) (c : client)
    (w w1 : world) (selected_files : list string) :
  select_files rt env rule repo c w = (Ret selected_files, w1) ->
  exists result w2,
    analyze_rule rt env rule repo (Some c) w = (Ret result, w2)
    /\ (selected_files = [] -> result = no_files_result rule /\ w2 = w1)
    /\ (forall f, In f (dict_keys (read_files repo selected_files []))
                  <-> In f selected_files /\ exists content, read_file repo f = Ret content)
    /\ (selected_files <> [] ->
        let file_contents := read_files repo selected_files [] in
        let files_analyzed := dict_keys file_contents in
        (forall e, analysis_prompt rule file_contents = Raise e ->
                   result = error_result rule files_analyzed e)
        /\ (forall p e, analysis_prompt rule file_contents = Ret p ->
                        c w1 p = Raise e ->
                        result = error_result rule files_analyzed e)
        /\ (forall p response e, analysis_prompt rule file_contents = Ret p ->
                                 c w1 p = Ret response ->
                                 parse_json_response rt response = Raise e ->
                                 result = error_result rule files_analyzed e)
        /\ (forall p response parsed, analysis_prompt rule file_contents = Ret p ->
                                      c w1 p = Ret response ->
                                      parse_json_response rt response = Ret parsed ->
                                      result = add_metadata rule files_analyzed parsed)).
Proof.
  intros Hsel. rewrite analyze_rule_after_selection, Hsel.
  assert (Hkeys : forall f, In f (dict_keys (read_files repo selected_files []))
            <-> In f selected_files /\ exists content, read_file repo f = Ret content).
  { intros f. rewrite read_files_keys. simpl. intuition. }
  destruct selected_files as [|f0 l].
  - simpl. exists (no_files_result rule), w1.
    split; [reflexivity |]. split; [auto |]. split; [exact Hkeys |]. congruence.
  - cbn [length Nat.eqb]. cbv zeta. rewrite call_llm_for_rule_steps.
    destruct (analysis_prompt rule (read_files repo (f0 :: l) [])) as [p | e] eqn:Hp.
    + destruct (c w1 p) as [response | e] eqn:Hc.
      * destruct (parse_json_response rt response) as [parsed | e] eqn:Hparse.
        -- eexists _, _. split; [reflexivity |]. split; [discriminate |].
           split; [exact Hkeys |]. intros _. repeat split; intros; congruence.
        -- eexists _, _. split; [reflexivity |]. split; [discriminate |].
           split; [exact Hkeys |]. intros _. repeat split; intros; congruence.
      * eexists _, _. split; [reflexivity |]. split; [discriminate |].
        split; [exact Hkeys |]. intros _. repeat split; intros; congruence.
    + eexists _, _. split; [reflexivity |]. split; [discriminate |].
      split; [exact Hkeys |]. intros _. repeat split; intros; congruence.
Qed.

Lemma selection_prompt_shape (filtered_files : list string) (rule : dict pyval)
    (max_files : Z) (p : prompt) :
  selection_prompt filtered_files rule max_files = Ret p ->
  exists title description must_find patterns,
    p = SelectionPrompt filtered_files title description must_find patterns max_files.
Proof.
  unfold selection_prompt, obind. intros H.
  repeat match type of H with
         | match ?x with _ => _ end = _ => destruct x; try discriminate
         end.
  injection H as <-. eauto.
Qed.

(** [select_best_files] sends at most one prompt, a selection prompt, and
    none for a short list. *)
Lemma select_best_files_calls (filtered_files : list string) (rule : dict pyval)
    (max_files : Z) (c : client) (w w' : world) (o : outcome (list string)) :
  select_best_files rt env filtered_files rule max_files (Some c) w = (o, w') ->
  w' = w
  \/ ((max_files < Z.of_nat (length filtered_files))%Z
      /\ exists p, selection_prompt filtered_files rule max_files = Ret p
                   /\ w' = w ++ [p]).
Proof.
  unfold select_best_files.
  destruct (Z.leb_spec (Z.of_nat (length filtered_files)) max_files) as [Hle | Hgt].
  { intros [= _ <-]. left. reflexivity. }
  destruct (length filtered_files =? 0)%nat.
  { intros [= _ <-]. left. reflexivity. }
  unfold bind, ret, lift, try_except, generate_completion.
  destruct (selection_prompt filtered_files rule max_files) as [p | e].
  - destruct (c w p) as [response | e];
      [destruct (parse_file_selection_response rt response filtered_files) |];
      intros [= _ <-]; right; eauto.
  - intros [= _ <-]. left. reflexivity.
Qed.

Lemma filter_by_keywords_length (files keywords : list string) :
  (length (filter_by_keywords rt files keywords) <= length files)%nat.
Proof.
  destruct keywords as [|k K]; simpl; [lia |]. apply List.filter_length_le.
Qed.

Lemma filter_by_keywords_value_length (files : list string) (keywords : pyval)
    (filtered : list string) :
  filter_by_keywords_value rt files keywords = Ret filtered ->
  (length filtered <= length files)%nat.
Proof.
  unfold filter_by_keywords_value, obind.
  destruct (truthy keywords).
  - destruct (keyword_items keywords) as [ks | e]; [| discriminate].
    intros [= <-]. apply filter_by_keywords_length.
  - intros [= <-]. lia.
Qed.

(** File selection sends at most one prompt; it sends none when the code
    checks are switched off and none when the repository has at most
    three code files. *)
Lemma select_files_calls (rule : dict pyval) (repo : repository) (c : client)
    (w w1 : world) (o : outcome (list string)) :
  select_files rt env rule repo c w = (o, w1) ->
  (w1 = w
   \/ exists files title description must_find patterns,
        w1 = w ++ [SelectionPrompt files title description must_find patterns 3])
  /\ ((length (code_files repo) <= 3)%nat -> w1 = w)
  /\ (forall enabled,
        py_get (dict_get_or "code_checks" (PDict []) rule) "enabled" (PBool false)
        = Ret enabled ->
        truthy enabled = false -> w1 = w).
Proof.
  unfold select_files, bind, lift, ret.
  destruct (in_strs (dict_get_or "check_type" (PStr "both") rule) ["code"; "both"]).
  2: { intros [= _ <-]. repeat split; auto. }
  destruct (py_get (dict_get_or "code_checks" (PDict []) rule) "enabled" (PBool false))
    as [enabled | e].
  2: { intros [= _ <-]. repeat split; auto. }
  destruct (truthy enabled) eqn:Hen.
  2: { intros [= _ <-]. repeat split; auto. }
  destruct (py_get (dict_get_or "code_checks" (PDict []) rule) "file_keywords" (PList []))
    as [keywords | e].
  2: { intros [= _ <-]. repeat split; auto. }
  destruct (filter_by_keywords_value rt (code_files repo) keywords) as [filtered | e] eqn:Hf.
  2: { intros [= _ <-]. repeat split; auto. }
  destruct (negb (length filtered =? 0)%nat).
  2: { intros [= _ <-]. repeat split; auto. }
  destruct (select_best_files rt env filtered rule 3 (Some c) w) as [sel w'] eqn:Hs.
  apply select_best_files_calls in Hs.
  apply filter_by_keywords_value_length in Hf.
  intros H. assert (w1 = w') as -> by (destruct sel; injection H; auto). clear H.
  split; [| split].
  - destruct Hs as [-> | [_ [p [Hp ->]]]]; [left; reflexivity | right].
    destruct (selection_prompt_shape _ _ _ _ Hp) as (t & d & m & ps & ->). eauto 6.
  - intros Hlen. destruct Hs as [-> | [Hgt _]]; [reflexivity | lia].
  - intros ? [= <-]. congruence.
Qed.

(** Every result of [analyze_rule] with an "error" key has passed = None,
    every result has an integer score between 0 and 100, and a result
    with passed = None and no "error" key is a parsed reply. *)
Theorem analyze_rule_result_shape (rule : dict pyval) (repo : repository) (c : client)
    (w w' : world) (result : dict pyval) :
  analyze_rule rt env rule repo (Some c) w = (Ret result, w') ->
  (dict_get "error" result <> None -> dict_get "passed" result = Some PNone)
  /\ (exists z, dict_get "score" result = Some (PInt z) /\ (0 <= z <= 100)%Z)
  /\ (dict_get "passed" result = Some PNone -> dict_get "error" result = None ->
      exists response parsed files_analyzed,
        parse_json_response rt response = Ret parsed
        /\ dict_get "passed" parsed = Some PNone
        /\ result = add_metadata rule files_analyzed parsed).
Proof.
  rewrite analyze_rule_after_selection.
  destruct (select_files rt env rule repo c w) as [[sel | e] w1]; [| discriminate].
  assert (Hfixed : forall r : dict pyval,
            r = no_files_result rule
            \/ (exists files e, r = error_result rule files e) ->
            (dict_get "error" r <> None -> dict_get "passed" r = Some PNone)
            /\ (exists z, dict_get "score" r = Some (PInt z) /\ (0 <= z <= 100)%Z)
            /\ (dict_get "passed" r = Some PNone -> dict_get "error" r <> None)).
  { intros r [-> | (files & e & ->)]; simpl.
    - split; [congruence |]. split; [| discriminate].
      exists 100%Z. split; [reflexivity | lia].
    - split; [reflexivity |]. split; [| discriminate].
      exists 0%Z. split; [reflexivity | lia]. }
  assert (Hdone : forall r : dict pyval,
            r = no_files_result rule
            \/ (exists files e, r = error_result rule files e) ->
            (Ret r, w') = (Ret result, w') ->
            (dict_get "error" result <> None -> dict_get "passed" result = Some PNone)
            /\ (exists z, dict_get "score" result = Some (PInt z) /\ (0 <= z <= 100)%Z)
            /\ (dict_get "passed" result = Some PNone -> dict_get "error" result = None ->
                exists response parsed files_analyzed,
                  parse_json_response rt response = Ret parsed
                  /\ dict_get "passed" parsed = Some PNone
                  /\ result = add_metadata rule files_analyzed parsed)).
  { intros r Hr [= <-]. destruct (Hfixed r Hr) as (H1 & H2 & H3).
    split; [exact H1 |]. split; [exact H2 |]. intros Hp He. exfalso. exact (H3 Hp He). }
  destruct (length sel =? 0)%nat.
  { intros H. injection H as H <-.
    apply (Hdone (no_files_result rule)); [auto | rewrite H; reflexivity]. }
  cbv zeta. rewrite call_llm_for_rule_steps.
  destruct (analysis_prompt rule (read_files repo sel [])) as [p | e].
  2: { intros H. injection H as H <-. eapply Hdone; [eauto | rewrite H; reflexivity]. }
  destruct (c w1 p) as [response | e].
  2: { intros H. injection H as H <-. eapply Hdone; [eauto | rewrite H; reflexivity]. }
  destruct (parse_json_response rt response) as [parsed | e] eqn:Hparse.
  2: { intros H. injection H as H <-. eapply Hdone; [eauto | rewrite H; reflexivity]. }
  intros [= <- _].
  destruct (parse_json_response_shape rt response parsed Hparse)
    as (passed & vs & z & -> & Hz).
  split; [| split].
  - intros H. exfalso. apply H. reflexivity.
  - exists z. split; [reflexivity | exact Hz].
  - intros Hp _. eexists response, _, _. split; [exact Hparse |]. split; [| reflexivity].
    exact Hp.
Qed.

Lemma traverse_returns {A B : Type} (P : A -> Prop) (f : A -> outcome B) (l : list A) :
  (forall a, P a -> exists b, f a = Ret b) ->
  Forall P l -> exists bs, traverse f l = Ret bs.
Proof.
  intros Hf Hl. induction Hl as [|a l Ha _ [bs IH]]; simpl.
  - eauto.
  - destruct (Hf a Ha) as [b ->]. rewrite IH. simpl. eauto.
Qed.

Lemma Forall_take {A : Type} (P : A -> Prop) (n : nat) (l : list A) :
  Forall P l -> Forall P (take n l).
Proof.
  intros H. revert n. induction H as [|a l Ha _ IH]; intros [|n]; simpl;
    constructor; auto.
Qed.

(** Building either prompt raises nothing on well-typed code checks. *)
Lemma prompts_return (rule : dict pyval) :
  well_typed_code_checks rule ->
  (forall files max_files, exists p, selection_prompt files rule max_files = Ret p)
  /\ (forall file_contents, exists p, analysis_prompt rule file_contents = Ret p).
Proof.
  intros (cc & ks & ps & Hcc & _ & _ & Hps & Hdict).
  assert (Hget : forall n key default,
            exists out, traverse (fun p => py_get p key default) (take n ps) = Ret out).
  { intros n key default. apply (traverse_returns is_dict); [| apply Forall_take; exact Hdict].
    intros [| | | | | |d] []. simpl. eauto. }
  split.
  - intros files max_files. unfold selection_prompt. rewrite Hcc. cbn [py_get obind].
    rewrite Hps. cbn [slice_patterns obind].
    destruct (Hget 3%nat "pattern" (PStr "")) as [out ->]. simpl. eauto.
  - intros file_contents. unfold analysis_prompt. rewrite Hcc. cbn [py_get obind].
    rewrite Hps. cbn [slice_patterns obind].
    destruct (traverse_returns is_dict
                (fun p => pattern <~ py_get p "pattern" PNone;
                          severity <~ py_get p "severity" PNone;
                          explanation <~ py_get p "explanation" PNone;
                          Ret (pattern, severity, explanation)) (take 5 ps))
      as [out ->].
    + intros [| | | | | |d] []. simpl. eauto.
    + apply Forall_take. exact Hdict.
    + simpl. eauto.
Qed.

(** With a client and well-typed code checks, nothing raised anywhere in
    [analyze_rule] reaches the caller: it always returns a result. *)
Theorem analyze_rule_never_raises (rule : dict pyval) (repo : repository) (c : client)
    (w : world) :
  well_typed_code_checks rule ->
  exists result w', analyze_rule rt env rule repo (Some c) w = (Ret result, w').
Proof.
  intros Hwt. destruct (prompts_return rule Hwt) as [Hsel _].
  destruct Hwt as (cc & ks & ps & Hcc & Hks & Hstr & _ & _).
  assert (Hfiles : exists selected_files w1,
            select_files rt env rule repo c w = (Ret selected_files, w1)).
  { unfold select_files, bind, lift, ret. rewrite Hcc. cbn [py_get].
    destruct (in_strs _ ["code"; "both"]); [| eauto].
    destruct (truthy _); [| eauto]. rewrite Hks.
    assert (Hfilter : exists filtered,
              filter_by_keywords_value rt (code_files repo) (PList ks) = Ret filtered).
    { unfold filter_by_keywords_value. destruct (truthy (PList ks)); [| eauto].
      cbn [keyword_items].
      destruct (traverse_returns is_str
                  (fun k => match k with
                            | PStr s0 => Ret s0
                            | _ => Raise (Exn AttributeError
                                            ("'" +:+ type_name k
                                             +:+ "' object has no attribute 'lower'"))
                            end) ks) as [out ->]; [| exact Hstr | simpl; eauto].
      intros [| | | |s0| |] []. eauto. }
    destruct Hfilter as [filtered ->].
    destruct (negb (length filtered =? 0)%nat); [| eauto].
    unfold select_best_files, bind, lift, ret, try_except, generate_completion.
    destruct (Z.of_nat (length filtered) <=? 3)%Z; [eauto |].
    destruct (length filtered =? 0)%nat; [eauto |].
    destruct (Hsel filtered 3%Z) as [p ->].
    destruct (c w p) as [response | e];
      [destruct (parse_file_selection_response rt response filtered) |]; eauto. }
  destruct Hfiles as (selected_files & w1 & Hfiles).
  rewrite analyze_rule_after_selection, Hfiles.
  destruct (length selected_files =? 0)%nat; [eauto |]. cbv zeta.
  destruct (call_llm_for_rule rt rule (read_files repo selected_files []) c w1)
    as [[parsed | e] w2]; eauto.
Qed.

(** C10, as the code has it. When file selection ends with no file,
    [analyze_rule] returns the passing result (passed = True, score = 100,
    no violation, no file analyzed, an explanatory note) and the analysis
    prompt is never sent. File selection itself has sent at most one
    prompt, a file-selection prompt, and none at all when the code checks
    are switched off or when the repository has at most three code
    files. *)
Theorem analyze_rule_no_files (rule : dict pyval) (repo : repository) (c : client)
    (w w1 : world) :
  select_files rt env rule repo c w = (Ret [], w1) ->
  analyze_rule rt env rule repo (Some c) w = (Ret (no_files_result rule), w1)
  /\ no_files_result rule
     = [ ("rule_id", dict_get_or "id" PNone rule); ("passed", PBool true);
         ("violations", PList []); ("score", PInt 100); ("files_analyzed", PList []);
         ("note", PStr "No relevant files found to analyze") ]
  /\ (w1 = w
      \/ exists files title description must_find patterns,
           w1 = w ++ [SelectionPrompt files title description must_find patterns 3])
  /\ ((length (code_files repo) <= 3)%nat -> w1 = w)
  /\ (forall enabled,
        py_get (dict_get_or "code_checks" (PDict []) rule) "enabled" (PBool false)
        = Ret enabled ->
        truthy enabled = false -> w1 = w).
Proof.
  intros Hsel. split.
  - rewrite analyze_rule_after_selection, Hsel. reflexivity.
  - split; [reflexivity |]. exact (select_files_calls _ _ _ _ _ _ Hsel).
Qed.

End AnalyzerProperties.

(** ** Aggregator *)

Lemma dict_get_set_eq {V : Type} (k : string) (v : V) (d : dict V) :
  dict_get k (dict_set k v d) = Some v.
Proof.
  induction d as [|[k' v'] d IH]; simpl.
  - rewrite String.eqb_refl. reflexivity.
  - destruct (String.eqb_spec k k') as [-> | Hne]; simpl.
    + rewrite String.eqb_refl. reflexivity.
    + destruct (String.eqb_spec k k'); [contradiction | exact IH].
Qed.

Lemma dict_get_set_ne {V : Type} (k k' : string) (v : V) (d : dict V) :
  k <> k' -> dict_get k (dict_set k' v d) = dict_get k d.
Proof.
  intros Hne. induction d as [|[k0 v0] d IH]; simpl.
  - destruct (String.eqb_spec k k'); [contradiction | reflexivity].
  - destruct (String.eqb_spec k' k0) as [-> | Hne0]; simpl.
    + destruct (String.eqb_spec k k0); [contradiction | reflexivity].
    + destruct (String.eqb_spec k k0); [reflexivity | exact IH].
Qed.

Lemma dict_set_set {V : Type} (k : string) (v v' : V) (d : dict V) :
  dict_set k v (dict_set k v' d) = dict_set k v d.
Proof.
  induction d as [|[k0 v0] d IH]; simpl.
  - rewrite String.eqb_refl. reflexivity.
  - destruct (String.eqb_spec k k0) as [-> | Hne]; simpl.
    + rewrite String.eqb_refl. reflexivity.
    + destruct (String.eqb_spec k k0); [contradiction | rewrite IH; reflexivity].
Qed.

(** What one assignment does to the object at [l]. *)
Lemma stamp_lookup (rule_id : pyval) (st : store) (v l : loc) :
  stamp rule_id st v !! l
  = if decide (l = v) then dict_set "rule_id" rule_id <$> st !! l else st !! l.
Proof.
  unfold stamp. destruct (decide (l = v)) as [-> | Hne].
  - destruct (st !! v) as [d|] eqn:E.
    + rewrite lookup_insert_eq. reflexivity.
    + rewrite E. reflexivity.
  - destruct (st !! v) as [d|]; [| reflexivity].
    rewrite lookup_insert_ne; [reflexivity | congruence].
Qed.

(** What the inner loop does to the object at [l]. *)
Lemma stamp_all_lookup (rule_id : pyval) (vs : list loc) (st : store) (l : loc) :
  fold_left (stamp rule_id) vs st !! l
  = if decide (l ∈ vs) then dict_set "rule_id" rule_id <$> st !! l else st !! l.
Proof.
  revert st. induction vs as [|v vs IH]; intros st; simpl.
  - destruct (decide (l ∈ [])) as [H | _]; [inversion H | reflexivity].
  - rewrite IH, stamp_lookup.
    destruct (decide (l ∈ vs)) as [Hin | Hnin];
      destruct (decide (l = v)) as [-> | Hne];
      destruct (decide (_ ∈ _ :: _)) as [Hor | Hnor]; try reflexivity.
    + destruct (st !! v); simpl; [rewrite dict_set_set |]; reflexivity.
    + exfalso. apply Hnor. constructor.
    + exfalso. apply Hnor. constructor. exact Hin.
    + exfalso. apply Hnor. constructor.
    + exfalso. apply elem_of_cons in Hor as [? | ?]; contradiction.
Qed.

Lemma collect_lookup (results : list rule_result) (st : store) (acc : list loc) (l : loc) :
  (collect results st acc).1 !! l
  = match last_owner results l with
    | Some rule_id => dict_set "rule_id" rule_id <$> st !! l
    | None => st !! l
    end.
Proof.
  revert st acc. induction results as [|r rest IH]; intros st acc; simpl.
  - reflexivity.
  - rewrite IH, stamp_all_lookup.
    destruct (last_owner rest l) as [rid|]; destruct (decide (l ∈ violations_of r));
      try reflexivity.
    destruct (st !! l); simpl; [rewrite dict_set_set |]; reflexivity.
Qed.

Lemma collect_violations (results : list rule_result) (st : store) (acc : list loc) :
  (collect results st acc).2 = acc ++ concat (map violations_of results).
Proof.
  revert st acc. induction results as [|r rest IH]; intros st acc; simpl.
  - rewrite app_nil_r. reflexivity.
  - rewrite IH, <- app_assoc. reflexivity.
Qed.

Lemma last_owner_None (results : list rule_result) (l : loc) :
  last_owner results l = None <-> ~ In l (concat (map violations_of results)).
Proof.
  induction results as [|r rest IH]; simpl.
  - tauto.
  - rewrite in_app_iff. destruct (last_owner rest l) as [rid|].
    + split; [discriminate | intros H; apply IH; tauto].
    + rewrite <- list_elem_of_In.
      destruct (decide (l ∈ violations_of r)); split; try discriminate; tauto.
Qed.

Lemma last_owner_unique (results : list rule_result) (r : rule_result) (l : loc) :
  NoDup (concat (map violations_of results)) ->
  In r results -> In l (violations_of r) ->
  last_owner results l = Some (rule_id_of r).
Proof.
  induction results as [|r0 rest IH]; simpl; [contradiction |].
  intros Hnd Hr Hl. apply NoDup_app in Hnd as (_ & Hdisj & Hrest).
  destruct Hr as [-> | Hr].
  - destruct (last_owner rest l) as [rid|] eqn:E.
    + exfalso. apply list_elem_of_In in Hl. apply (Hdisj l Hl).
      apply list_elem_of_In.
      destruct (decide (l ∈ concat (map violations_of rest))) as [H | H].
      * apply list_elem_of_In. exact H.
      * rewrite list_elem_of_In in H. apply last_owner_None in H. congruence.
    + apply list_elem_of_In in Hl.
      destruct (decide (l ∈ violations_of r)); [reflexivity | contradiction].
  - rewrite (IH Hrest Hr Hl). reflexivity.
Qed.

(** [round] returns a nearest integer. *)
Lemma round_half_even_nearest (q : Q) :
  (Qabs (inject_Z (round_half_even q) - q) <= 1 # 2)%Q.
Proof.
  unfold round_half_even.
  pose proof (Qfloor_le q) as Hlo. pose proof (Qlt_floor q) as Hhi.
  rewrite inject_Z_plus in Hhi. change (inject_Z 1) with 1%Q in Hhi.
  apply Qabs_Qle_condition.
  destruct (Qcompare_spec (q - inject_Z (Qfloor q)) (1 # 2)) as [H | H | H].
  - destruct (Z.even (Qfloor q));
      [| rewrite inject_Z_plus; change (inject_Z 1) with 1%Q]; lra.
  - lra.
  - rewrite inject_Z_plus. change (inject_Z 1) with 1%Q. lra.
Qed.

(** Of two nearest integers, [round] returns the even one. *)
Lemma round_half_even_tie (q : Q) :
  (Qabs (inject_Z (round_half_even q) - q) == 1 # 2)%Q ->
  Z.even (round_half_even q) = true.
Proof.
  unfold round_half_even.
  pose proof (Qfloor_le q) as Hlo. pose proof (Qlt_floor q) as Hhi.
  rewrite inject_Z_plus in Hhi. change (inject_Z 1) with 1%Q in Hhi.
  destruct (Qcompare_spec (q - inject_Z (Qfloor q)) (1 # 2)) as [H | H | H].
  - intros _. destruct (Z.even (Qfloor q)) eqn:E; [exact E |].
    rewrite Z.even_add, E. reflexivity.
  - intros Habs. exfalso.
    rewrite Qabs_neg in Habs by lra. lra.
  - intros Habs. exfalso. revert Habs.
    rewrite inject_Z_plus. change (inject_Z 1) with 1%Q.
    intros Habs. rewrite Qabs_pos in Habs by lra. lra.
Qed.

Lemma round_half_even_comp (q q' : Q) :
  (q == q')%Q -> round_half_even q = round_half_even q'.
Proof.
  intros H. unfold round_half_even. rewrite (Qfloor_comp _ _ H).
  assert (Hc : (q - inject_Z (Qfloor q') ?= 1 # 2)%Q
               = (q' - inject_Z (Qfloor q') ?= 1 # 2)%Q).
  { apply Qcompare_comp; [rewrite H |]; reflexivity. }
  rewrite Hc. reflexivity.
Qed.

(** *** binary64: the rounding of the true division of two ints *)

Lemma pow2_pos (k : Z) : (0 < 2 ^ k)%Q.
Proof. apply Qpower_0_lt. reflexivity. Qed.

Lemma pow2_plus (a b : Z) : (2 ^ (a + b) == 2 ^ a * 2 ^ b)%Q.
Proof. apply Qpower_plus. discriminate. Qed.

Lemma pow2_le (a b : Z) : (a <= b)%Z -> (2 ^ a <= 2 ^ b)%Q.
Proof. intros H. apply Qpower_le_compat_l; [exact H | discriminate]. Qed.

Lemma pow2_lt_inv (a b : Z) : (2 ^ a < 2 ^ b)%Q -> (a < b)%Z.
Proof.
  intros H. destruct (Z_lt_le_dec a b) as [Hlt | Hge]; [exact Hlt |].
  exfalso. pose proof (pow2_le b a Hge). lra.
Qed.

Lemma pow2_inject (k : Z) : (0 <= k)%Z -> (inject_Z (2 ^ k) == 2 ^ k)%Q.
Proof. intros H. rewrite Zpower_Qpower by exact H. reflexivity. Qed.

Lemma Qmake_mult_den (p : Z) (d : positive) : ((p # d) * inject_Z (Zpos d) == inject_Z p)%Q.
Proof. unfold Qeq, Qmult, inject_Z. simpl. lia. Qed.

(** The leading bit: 2^(ilog2 q) <= q for a positive q. *)
Lemma ilog2_le (q : Q) : (0 < q)%Q -> (2 ^ ilog2 q <= q)%Q.
Proof.
  intros Hq. unfold ilog2.
  destruct (Qle_bool (2 ^ (Z.log2 (Qnum q) - Z.log2 (Z.pos (Qden q)))) q) eqn:E.
  - apply Qle_bool_iff. exact E.
  - clear E. destruct q as [p d]. cbn [Qnum Qden].
    assert (Hp : (0 < p)%Z).
    { unfold Qlt in Hq. simpl in Hq. lia. }
    destruct (Z.log2_spec p Hp) as [Hp1 _].
    destruct (Z.log2_spec (Zpos d) eq_refl) as [_ Hd2].
    pose proof (Z.log2_nonneg p) as Hlp. pose proof (Z.log2_nonneg (Zpos d)) as Hld.
    set (lp := Z.log2 p) in *. set (ld := Z.log2 (Zpos d)) in *.
    replace (lp - ld - 1)%Z with (lp + - (Z.succ ld))%Z by lia.
    rewrite pow2_plus, Qpower_opp.
    rewrite <- (pow2_inject lp) by lia. rewrite <- (pow2_inject (Z.succ ld)) by lia.
    assert (H1 : (inject_Z (2 ^ lp) <= inject_Z p)%Q) by (rewrite <- Zle_Qle; exact Hp1).
    assert (H2 : (inject_Z (Zpos d) < inject_Z (2 ^ Z.succ ld))%Q)
      by (rewrite <- Zlt_Qlt; exact Hd2).
    assert (H3 : (0 < inject_Z (Zpos d))%Q) by (rewrite <- (Zlt_Qlt 0); lia).
    pose proof (Qmake_mult_den p d) as H4.
    assert (H5 : (0 < inject_Z (2 ^ lp))%Q).
    { rewrite <- (Zlt_Qlt 0). apply Z.pow_pos_nonneg; lia. }
    apply Qle_shift_div_r; [lra |]. 
    set (B := inject_Z (2 ^ Z.succ ld)) in *. set (D := inject_Z (Z.pos d)) in *.
    set (A := inject_Z (2 ^ lp)) in *. set (P := inject_Z p) in *. set (x := (p # d)%Q) in *.
    nra.
Qed.

Lemma ilog2_lt (q : Q) (b : Z) : (0 < q)%Q -> (q < 2 ^ b)%Q -> (ilog2 q < b)%Z.
Proof.
  intros Hq Hb. apply pow2_lt_inv. pose proof (ilog2_le q Hq). lra.
Qed.

(** ... and q < 2^(ilog2 q + 1). *)
Lemma ilog2_upper (q : Q) : (0 < q)%Q -> (q < 2 ^ (ilog2 q + 1))%Q.
Proof.
  intros Hq. unfold ilog2.
  destruct (Qle_bool (2 ^ (Z.log2 (Qnum q) - Z.log2 (Z.pos (Qden q)))) q) eqn:E.
  - clear E. destruct q as [p d]. cbn [Qnum Qden].
    assert (Hp : (0 < p)%Z).
    { unfold Qlt in Hq. simpl in Hq. lia. }
    destruct (Z.log2_spec p Hp) as [_ Hp2].
    destruct (Z.log2_spec (Zpos d) eq_refl) as [Hd1 _].
    pose proof (Z.log2_nonneg p) as Hlp. pose proof (Z.log2_nonneg (Zpos d)) as Hld.
    set (lp := Z.log2 p) in *. set (ld := Z.log2 (Zpos d)) in *.
    replace (lp - ld + 1)%Z with (Z.succ lp + - ld)%Z by lia.
    rewrite pow2_plus, Qpower_opp.
    rewrite <- (pow2_inject (Z.succ lp)) by lia. rewrite <- (pow2_inject ld) by lia.
    assert (H1 : (inject_Z p < inject_Z (2 ^ Z.succ lp))%Q) by (rewrite <- Zlt_Qlt; exact Hp2).
    assert (H2 : (inject_Z (2 ^ ld) <= inject_Z (Zpos d))%Q)
      by (rewrite <- Zle_Qle; exact Hd1).
    assert (H3 : (0 < inject_Z (2 ^ ld))%Q).
    { rewrite <- (Zlt_Qlt 0). apply Z.pow_pos_nonneg; lia. }
    pose proof (Qmake_mult_den p d) as H4.
    apply Qlt_shift_div_l; [lra |].
    set (B := inject_Z (2 ^ Z.succ lp)) in *. set (D := inject_Z (Z.pos d)) in *.
    set (A := inject_Z (2 ^ ld)) in *. set (P := inject_Z p) in *. set (x := (p # d)%Q) in *.
    nra.
  - replace (Z.log2 (Qnum q) - Z.log2 (Z.pos (Qden q)) - 1 + 1)%Z
      with (Z.log2 (Qnum q) - Z.log2 (Z.pos (Qden q)))%Z by lia.
    apply Qnot_le_lt. intros H. apply Qle_bool_iff in H. congruence.
Qed.

Lemma binary64_exponent_le (q : Q) (b : Z) :
  ~ (q == 0)%Q -> (Qabs q < 2 ^ b)%Q -> (binary64_exponent q <= Z.max (b - 53) (-1074))%Z.
Proof.
  intros Hq Hb. unfold binary64_exponent.
  assert (Hpos : (0 < Qabs q)%Q).
  { pose proof (Qabs_nonneg q). destruct (Qeq_dec (Qabs q) 0) as [H0 | H0]; [| lra].
    exfalso. apply Hq. pose proof (Qle_Qabs q) as H1. pose proof (Qle_Qabs (- q)) as H2.
    rewrite Qabs_opp in H2. lra. }
  pose proof (ilog2_lt _ _ Hpos Hb). lia.
Qed.

Lemma round_half_even_Z (z : Z) : round_half_even (inject_Z z) = z.
Proof.
  unfold round_half_even. rewrite Qfloor_Z.
  destruct (Qcompare_spec (inject_Z z - inject_Z z) (1 # 2)) as [H | H | H];
    [exfalso; lra | reflexivity | exfalso; lra].
Qed.

(** An integer strictly within 1/2 of [q] is the one [round] returns. *)
Lemma round_half_even_unique (q : Q) (t : Z) :
  (inject_Z t - (1 # 2) < q < inject_Z t + (1 # 2))%Q -> round_half_even q = t.
Proof.
  intros [H1 H2]. pose proof (round_half_even_nearest q) as Hn.
  apply Qabs_Qle_condition in Hn as [Hn1 Hn2].
  destruct (Z_lt_le_dec (round_half_even q) t) as [Hlt | Hge].
  - exfalso. assert (Hz : (round_half_even q + 1 <= t)%Z) by lia.
    rewrite Zle_Qle, inject_Z_plus in Hz. change (inject_Z 1) with 1%Q in Hz. lra.
  - destruct (Z_lt_le_dec t (round_half_even q)) as [Hlt | Hle]; [| lia].
    exfalso. assert (Hz : (t + 1 <= round_half_even q)%Z) by lia.
    rewrite Zle_Qle, inject_Z_plus in Hz. change (inject_Z 1) with 1%Q in Hz. lra.
Qed.

Lemma round_half_even_floor (q : Q) : (Qfloor q <= round_half_even q)%Z.
Proof.
  unfold round_half_even.
  destruct (q - inject_Z (Qfloor q) ?= 1 # 2)%Q; [destruct (Z.even (Qfloor q)) | |]; lia.
Qed.

Lemma binary64_magnitude_error (q : Q) :
  (- (2 ^ binary64_exponent q * (1 # 2)) <= binary64_magnitude q - Qabs q
   <= 2 ^ binary64_exponent q * (1 # 2))%Q.
Proof.
  unfold binary64_magnitude. set (e := binary64_exponent q).
  pose proof (pow2_pos e) as Hp.
  pose proof (round_half_even_nearest (Qabs q / 2 ^ e)) as Hn.
  apply Qabs_Qle_condition in Hn as [Hn1 Hn2].
  assert (Hq : (Qabs q == Qabs q / 2 ^ e * 2 ^ e)%Q).
  { symmetry. rewrite Qmult_comm. apply Qmult_div_r. lra. }
  set (u := (Qabs q / 2 ^ e)%Q) in *.
  set (m := inject_Z (round_half_even u)) in *.
  rewrite Hq. set (P := (2 ^ e)%Q) in *. split; nra.
Qed.

Lemma binary64_magnitude_nonneg (q : Q) : (0 <= binary64_magnitude q)%Q.
Proof.
  unfold binary64_magnitude. set (e := binary64_exponent q).
  pose proof (pow2_pos e) as Hp.
  assert (Hu : (0 <= Qabs q / 2 ^ e)%Q).
  { apply Qle_shift_div_l; [exact Hp |]. pose proof (Qabs_nonneg q). lra. }
  assert (Hm : (0 <= round_half_even (Qabs q / 2 ^ e))%Z).
  { pose proof (round_half_even_floor (Qabs q / 2 ^ e)).
    pose proof (Qfloor_resp_le _ _ Hu) as Hf. change (Qfloor 0) with 0%Z in Hf. lia. }
  rewrite Zle_Qle in Hm. change (inject_Z 0) with 0%Q in Hm.
  set (m := inject_Z (round_half_even (Qabs q / 2 ^ e))) in *. set (P := (2 ^ e)%Q) in *. nra.
Qed.

(** The rounded value is within half a unit of the last place. *)
Lemma binary64_of_near (q y : Q) :
  binary64_of q = Some y ->
  (- (2 ^ binary64_exponent q * (1 # 2)) <= y - q <= 2 ^ binary64_exponent q * (1 # 2))%Q.
Proof.
  unfold binary64_of. pose proof (pow2_pos (binary64_exponent q)) as Hp.
  destruct (Qeq_bool q 0) eqn:E0.
  - apply Qeq_bool_iff in E0. intros [= <-]. lra.
  - destruct (Qle_bool (2 ^ 1024) (binary64_magnitude q)); [discriminate |].
    pose proof (binary64_magnitude_error q) as He.
    destruct (Qle_bool 0 q) eqn:Es; intros [= <-].
    + apply Qle_bool_iff in Es. rewrite Qabs_pos in He by exact Es. exact He.
    + assert (Hneg : (q <= 0)%Q).
      { apply Qlt_le_weak, Qnot_le_lt. intros H. apply Qle_bool_iff in H. congruence. }
      rewrite Qabs_neg in He by exact Hneg. lra.
Qed.

Lemma binary64_of_sign (q y : Q) :
  binary64_of q = Some y -> (0 <= q)%Q -> (0 <= y)%Q.
Proof.
  unfold binary64_of. destruct (Qeq_bool q 0).
  - intros [= <-] _. lra.
  - destruct (Qle_bool (2 ^ 1024) (binary64_magnitude q)); [discriminate |].
    intros H Hq. apply Qle_bool_iff in Hq. rewrite Hq in H. injection H as <-.
    apply binary64_magnitude_nonneg.
Qed.

(** No overflow below 2^1023. *)
Lemma binary64_of_returns (q : Q) :
  (Qabs q <= 2 ^ 1023)%Q -> exists y, binary64_of q = Some y.
Proof.
  intros Hq. unfold binary64_of. destruct (Qeq_bool q 0) eqn:E0; [eauto |].
  assert (Hne : ~ (q == 0)%Q).
  { intros H. apply Qeq_bool_iff in H. congruence. }
  destruct (Qle_bool (2 ^ 1024) (binary64_magnitude q)) eqn:E; [| eauto].
  exfalso. apply Qle_bool_iff in E.
  pose proof (binary64_magnitude_error q) as [_ He].
  assert (Hb : (Qabs q < 2 ^ 1024)%Q).
  { assert ((2 ^ 1023 < 2 ^ 1024)%Q) by reflexivity. lra. }
  pose proof (binary64_exponent_le q 1024 Hne Hb) as Hexp.
  pose proof (pow2_le _ _ Hexp) as Hpow.
  change (2 ^ Z.max (1024 - 53) (-1074))%Q with (2 ^ 971)%Q in Hpow.
  assert (H1 : (2 ^ 971 * (1 # 2) + 2 ^ 1023 < 2 ^ 1024)%Q) by reflexivity.
  lra.
Qed.

(** A quotient between 0 and 100 is rounded to a float between 0 and
    100 1/2. *)
Lemma binary64_of_percent (q : Q) :
  (0 <= q <= 100)%Q ->
  exists y, binary64_of q = Some y /\ (0 <= y)%Q /\ (y < 100 + (1 # 2))%Q.
Proof.
  intros [H0 H100].
  assert (Habs : (Qabs q == q)%Q) by (apply Qabs_pos; exact H0).
  destruct (binary64_of_returns q) as [y Hy].
  { rewrite Habs. assert ((100 <= 2 ^ 1023)%Q) by discriminate. lra. }
  exists y. split; [exact Hy |]. split; [exact (binary64_of_sign q y Hy H0) |].
  pose proof (binary64_of_near q y Hy) as [_ Hnear].
  destruct (Qeq_dec q 0) as [Hz | Hnz].
  - unfold binary64_of in Hy. apply Qeq_bool_iff in Hz. rewrite Hz in Hy.
    injection Hy as <-. reflexivity.
  - assert (Hb : (Qabs q < 2 ^ 7)%Q).
    { rewrite Habs. assert ((100 < 2 ^ 7)%Q) by reflexivity. lra. }
    pose proof (pow2_le _ _ (binary64_exponent_le q 7 Hnz Hb)) as Hpow.
    change (2 ^ Z.max (7 - 53) (-1074))%Q with (2 ^ (-46))%Q in Hpow.
    assert (H1 : (2 ^ (-46) * (1 # 2) < 1 # 2)%Q) by reflexivity.
    lra.
Qed.

Lemma Qmake_ge_half (t a : Z) (n : positive) :
  (inject_Z t - (1 # 2) <= a # n)%Q <-> (Zpos n * (2 * t - 1) <= 2 * a)%Z.
Proof.
  unfold Qle, Qminus, Qplus, Qopp, inject_Z. cbn [Qnum Qden].
  rewrite ?Pos2Z.inj_mul. lia.
Qed.

Lemma Qmake_le_half (t a : Z) (n : positive) :
  (a # n <= inject_Z t + (1 # 2))%Q <-> (2 * a <= Zpos n * (2 * t + 1))%Z.
Proof.
  unfold Qle, Qminus, Qplus, Qopp, inject_Z. cbn [Qnum Qden].
  rewrite ?Pos2Z.inj_mul. lia.
Qed.

Lemma Qabs_Qmake (a : Z) (n : positive) : Qabs (a # n) = (Z.abs a # n).
Proof. reflexivity. Qed.

Lemma Qmake_nonzero (a : Z) (n : positive) : a <> 0%Z -> ~ (a # n == 0)%Q.
Proof. intros Ha. unfold Qeq. simpl. lia. Qed.

Lemma Qmake_below (a : Z) (n : positive) (b : Z) :
  (0 <= b)%Z -> (Z.abs a < 2 ^ b)%Z -> (Qabs (a # n) < 2 ^ b)%Q.
Proof.
  intros Hb Ha. rewrite Qabs_Qmake, <- (pow2_inject b) by exact Hb.
  unfold Qlt, inject_Z. cbn [Qnum Qden]. nia.
Qed.

(** A quotient of ints that is half an integer is a binary64 when the
    dividend is below 2^52. *)
Lemma binary64_of_half_integer (a j : Z) (n : positive) (y : Q) :
  a <> 0%Z -> (Z.abs a < 2 ^ 52)%Z -> (2 * a = Zpos n * j)%Z ->
  binary64_of (a # n) = Some y -> (y == a # n)%Q.
Proof.
  intros Ha Hlt Hj Hy.
  pose proof (Qmake_nonzero a n Ha) as Hne.
  pose proof (binary64_exponent_le _ _ Hne (Qmake_below a n 52 ltac:(lia) Hlt)) as He.
  change (Z.max (52 - 53) (-1074)) with (-1)%Z in He.
  assert (Hmag : (binary64_magnitude (a # n) == Qabs (a # n))%Q).
  { unfold binary64_magnitude.
    set (e := binary64_exponent (a # n)) in *.
    pose proof (pow2_pos e) as Hp.
    set (M := (Z.abs j * 2 ^ (- e - 1))%Z).
    assert (HM : (Qabs (a # n) == inject_Z M * 2 ^ e)%Q).
    { unfold M. rewrite inject_Z_mult, (pow2_inject (- e - 1)) by lia.
      rewrite <- Qmult_assoc, <- pow2_plus.
      replace (- e - 1 + e)%Z with (-1)%Z by lia.
      rewrite Qabs_Qmake. change (2 ^ (-1))%Q with (1 # 2)%Q.
      unfold Qeq, Qmult, inject_Z. cbn [Qnum Qden]. nia. }
    assert (Hu : (Qabs (a # n) / 2 ^ e == inject_Z M)%Q).
    { rewrite HM. apply Qdiv_mult_l. lra. }
    rewrite (round_half_even_comp _ _ Hu), round_half_even_Z. symmetry. exact HM. }
  unfold binary64_of in Hy.
  destruct (Qeq_bool (a # n) 0) eqn:E0.
  { exfalso. apply Hne. apply Qeq_bool_iff. exact E0. }
  destruct (Qle_bool (2 ^ 1024) (binary64_magnitude (a # n))); [discriminate |].
  destruct (Qle_bool 0 (a # n)) eqn:Es; injection Hy as <-.
  - apply Qle_bool_iff in Es. rewrite Hmag. apply Qabs_pos. exact Es.
  - rewrite Hmag. rewrite Qabs_neg; [lra |].
    apply Qlt_le_weak, Qnot_le_lt. intros H. apply Qle_bool_iff in H. congruence.
Qed.

(** The true quotient of two ints, the dividend below 2^52 in size:
    rounding it to binary64 does not change the integer that [round]
    returns. *)
Lemma round_of_int_quotient (a : Z) (n : positive) :
  (Z.abs a < 2 ^ 52)%Z ->
  exists y, binary64_of (a # n) = Some y
            /\ round_half_even y = round_half_even (a # n).
Proof.
  intros Hlt.
  destruct (binary64_of_returns (a # n)) as [y Hy].
  { pose proof (Qmake_below a n 52 ltac:(lia) Hlt).
    assert ((2 ^ 52 <= 2 ^ 1023)%Q) by discriminate. lra. }
  exists y. split; [exact Hy |].
  destruct (Z.eq_dec a 0%Z) as [-> | Ha].
  { unfold binary64_of in Hy. change (Qeq_bool (0 # n) 0) with true in Hy.
    injection Hy as <-. apply round_half_even_comp. reflexivity. }
  destruct (Z.eq_dec ((2 * a) mod Zpos n)%Z 0%Z) as [Hdiv | Hndiv].
  { apply round_half_even_comp.
    apply (binary64_of_half_integer a ((2 * a) / Zpos n)%Z n y Ha Hlt); [| exact Hy].
    pose proof (Z.div_mod (2 * a)%Z (Zpos n) ltac:(lia)). lia. }
  pose proof (Qmake_nonzero a n Ha) as Hne.
  pose proof (Qmake_below a n 52 ltac:(lia) Hlt) as Hb.
  pose proof (binary64_of_near _ _ Hy) as Hnear.
  set (q := (a # n)%Q) in *. set (t := round_half_even q).
  assert (Hpos : (0 < Qabs q)%Q).
  { pose proof (Qabs_nonneg q). destruct (Qeq_dec (Qabs q) 0) as [H0 | H0]; [| lra].
    exfalso. apply Hne. pose proof (Qle_Qabs q) as H1. pose proof (Qle_Qabs (- q)) as H2.
    rewrite Qabs_opp in H2. lra. }
  (* the quotient keeps away from the half integers *)
  assert (Hmargin : (inject_Z t - (1 # 2) + (1 # 2 * n) <= q
                     <= inject_Z t + (1 # 2) - (1 # 2 * n))%Q).
  { pose proof (round_half_even_nearest q) as Hn. fold t in Hn.
    apply Qabs_Qle_condition in Hn as [Hn1 Hn2].
    assert (H1 : (inject_Z t - (1 # 2) <= q)%Q) by lra.
    assert (H2 : (q <= inject_Z t + (1 # 2))%Q) by lra.
    apply Qmake_ge_half in H1. apply Qmake_le_half in H2.
    assert (H3 : (Zpos n * (2 * t - 1) <> 2 * a)%Z).
    { intros H. apply Hndiv. rewrite <- H, Z.mul_comm. apply Z.mod_mul. lia. }
    assert (H4 : (Zpos n * (2 * t + 1) <> 2 * a)%Z).
    { intros H. apply Hndiv. rewrite <- H, Z.mul_comm. apply Z.mod_mul. lia. }
    unfold q, Qle, Qminus, Qplus, Qopp, inject_Z. cbn [Qnum Qden].
    rewrite ?Pos2Z.inj_mul. split; nia. }
  apply round_half_even_unique. fold t.
  unfold binary64_exponent in Hnear.
  destruct (Z.max_spec (ilog2 (Qabs q) - 52) (-1074)) as [[Hcl Hmax] | [Hcl Hmax]];
    rewrite Hmax in Hnear.
  - (* below the normal range: the quotient and its rounding are tiny *)
    pose proof (ilog2_upper _ Hpos) as Hup.
    assert (Hle : (2 ^ (ilog2 (Qabs q) + 1) <= 2 ^ (-2))%Q) by (apply pow2_le; lia).
    change (2 ^ (-2))%Q with (1 # 4)%Q in Hle.
    assert (Hd : (2 ^ (-1074) * (1 # 2) <= 1 # 8)%Q) by discriminate.
    assert (Hq : (- (1 # 4) < q < 1 # 4)%Q).
    { pose proof (Qle_Qabs q) as H1. pose proof (Qle_Qabs (- q)) as H2.
      rewrite Qabs_opp in H2. split; lra. }
    assert (Ht : t = 0%Z).
    { apply round_half_even_unique. change (inject_Z 0) with 0%Q. split; lra. }
    rewrite Ht. change (inject_Z 0) with 0%Q. split; lra.
  - (* the normal range: the error is below the distance to a half integer *)
    pose proof (ilog2_le _ Hpos) as Hlo.
    assert (Hsplit : (2 ^ (ilog2 (Qabs q) - 52) * (1 # 2)
                      == 2 ^ ilog2 (Qabs q) * 2 ^ (-53))%Q).
    { replace (ilog2 (Qabs q) - 52)%Z with (ilog2 (Qabs q) + -52)%Z by lia.
      rewrite pow2_plus. change (2 ^ (-52))%Q with (1 # 2 ^ 52)%Q.
      change (2 ^ (-53))%Q with (1 # 2 ^ 53)%Q.
      rewrite <- Qmult_assoc. apply Qmult_comp; reflexivity. }
    rewrite Hsplit in Hnear.
    assert (Herr : (2 ^ ilog2 (Qabs q) * 2 ^ (-53) < 1 # 2 * n)%Q).
    { apply Qle_lt_trans with (Qabs q * 2 ^ (-53))%Q.
      - apply Qmult_le_compat_r; [exact Hlo | discriminate].
      - unfold q. rewrite Qabs_Qmake. change (2 ^ (-53))%Q with (1 # 2 ^ 53)%Q.
        unfold Qlt, Qmult. cbn [Qnum Qden]. rewrite ?Pos2Z.inj_mul.
        change (Z.pos (2 ^ 53)) with (2 * 2 ^ 52)%Z. nia. }
    destruct Hmargin as [Hm1 Hm2]. destruct Hnear as [Hn1 Hn2]. split; lra.
Qed.

(** *** The sum and the average of the scores *)

Lemma py_add_finite (a b : number) :
  finite_number a -> finite_number b ->
  finite_number (py_add a b)
  /\ (value_of (py_add a b) == value_of a + value_of b)%Q.
Proof.
  intros Ha Hb.
  destruct a as [x | [| |qa]], b as [y | [| |qb]];
    try (exfalso; exact Ha); try (exfalso; exact Hb);
    (split; [exact I |]); cbn [py_add value_of to_float float_add].
  - rewrite inject_Z_plus. reflexivity.
  - reflexivity.
  - reflexivity.
  - reflexivity.
Qed.

Lemma py_sum_finite (l : list number) (acc : number) :
  Forall finite_number l -> finite_number acc ->
  finite_number (fold_left py_add l acc)
  /\ (value_of (fold_left py_add l acc)
      == value_of acc + fold_right Qplus 0 (map value_of l))%Q.
Proof.
  revert acc. induction l as [|n l IH]; intros acc Hl Hacc; simpl.
  - split; [exact Hacc | lra].
  - apply Forall_cons in Hl as [Hn Hl].
    destruct (py_add_finite acc n Hacc Hn) as [Hf Hv].
    destruct (IH (py_add acc n) Hl Hf) as [Hf' Hv'].
    split; [exact Hf' |]. rewrite Hv', Hv. lra.
Qed.

(** The sum of ints is an int, computed exactly. *)
Lemma py_sum_ints (zs : list Z) (acc : Z) :
  fold_left py_add (map NInt zs) (NInt acc) = NInt (acc + sum_of zs).
Proof.
  revert acc. induction zs as [|z zs IH]; intros acc; simpl.
  - f_equal. lia.
  - rewrite IH. f_equal. lia.
Qed.

(** Once a float, always a float. *)
Lemma py_sum_float (l : list number) (f : pyfloat) :
  exists f', fold_left py_add l (NFloat f) = NFloat f'.
Proof.
  revert f. induction l as [|n l IH]; intros f; simpl; [eauto |].
  destruct n; apply IH.
Qed.

(** The sum is an int only when every summand is. *)
Lemma py_sum_cases (l : list number) (acc : Z) :
  (exists zs, l = map NInt zs) \/ (exists f, fold_left py_add l (NInt acc) = NFloat f).
Proof.
  revert acc. induction l as [|n l IH]; intros acc.
  - left. exists []. reflexivity.
  - destruct n as [z | f]; simpl.
    + destruct (IH (acc + z)%Z) as [[zs ->] | Hf]; [| right; exact Hf].
      left. exists (z :: zs). reflexivity.
    + right. apply py_sum_float.
Qed.

(** The numbers that pass the test of the comprehension, for records
    without float score: the int scores. *)
Lemma valid_scores_without_float (results : list rule_result) :
  Forall (fun r => ~ has_float_score r) results ->
  omap valid_score results = map NInt (int_scores results).
Proof.
  induction 1 as [|r rest Hr _ IH]; [reflexivity |].
  unfold int_scores in *. destruct r as [[v|] vs rid]; cbn [omap list_omap].
  - unfold valid_score at 1. cbn [result_score].
    destruct v as [| [|] | z | f | | |]; cbn [is_number number_of map];
      try (rewrite IH; reflexivity).
    exfalso. apply Hr. exists f. reflexivity.
  - exact IH.
Qed.

(** The int scores are the ints among the numbers that pass the test. *)
Lemma int_scores_of_valid (results : list rule_result) (zs : list Z) :
  omap valid_score results = map NInt zs -> int_scores results = zs.
Proof.
  revert zs. induction results as [|r rest IH]; intros zs.
  - destruct zs; [reflexivity | discriminate].
  - unfold int_scores in *. destruct r as [[v|] vs rid]; cbn [omap list_omap].
    + unfold valid_score at 1. cbn [result_score].
      destruct v as [| [|] | z | f | | |]; cbn [is_number number_of];
        try (apply IH);
        (destruct zs as [|z0 zs]; [discriminate |]);
        cbn [map]; intros [= <- H]; rewrite (IH zs H); reflexivity.
    + apply IH.
Qed.

Lemma sum_of_inject (zs : list Z) :
  (fold_right Qplus 0 (map inject_Z zs) == inject_Z (sum_of zs))%Q.
Proof.
  induction zs as [|z zs IH]; simpl; [reflexivity |].
  rewrite IH, inject_Z_plus. reflexivity.
Qed.

Lemma Qmake_of_nat (a : Z) (k : nat) :
  (a # Pos.of_nat (S k) == inject_Z a / inject_Z (Z.of_nat (S k)))%Q.
Proof.
  rewrite Qmake_Qdiv. replace (Z.pos (Pos.of_nat (S k))) with (Z.of_nat (S k)) by lia.
  reflexivity.
Qed.

(** The mean of ints, as a fraction. *)
Lemma mean_of_ints (z : Z) (zs : list Z) :
  (mean (map inject_Z (z :: zs))
   == sum_of (z :: zs) # Pos.of_nat (length (z :: zs)))%Q.
Proof.
  unfold mean. rewrite length_map, sum_of_inject. cbn [length].
  rewrite Qmake_of_nat. reflexivity.
Qed.

(** The average of ints: their true quotient. *)
Lemma average_of_ints (z : Z) (zs : list Z) :
  average (map NInt (z :: zs))
  = match binary64_of (sum_of (z :: zs) # Pos.of_nat (length (z :: zs))) with
    | Some q => Ret (NFloat (FNum q))
    | None => Raise division_overflow
    end.
Proof.
  unfold average. change (map NInt (z :: zs)) with (NInt z :: map NInt zs).
  change (NInt z :: map NInt zs) with (map NInt (z :: zs)).
  unfold py_sum. rewrite py_sum_ints, length_map. cbn [length true_div].
  unfold int_true_div. rewrite Z.add_0_l.
  destruct (binary64_of _); reflexivity.
Qed.

(** The average of finite numbers of which one is a float: their mean. *)
Lemma average_of_floats (l : list number) (f : pyfloat) :
  Forall finite_number l -> py_sum l = NFloat f ->
  exists q, average l = Ret (NFloat (FNum q)) /\ (q == mean (map value_of l))%Q.
Proof.
  intros Hfin Hsum. destruct (py_sum_finite l (NInt 0) Hfin I) as [Hf Hv].
  fold (py_sum l) in Hf, Hv. rewrite Hsum in Hf, Hv.
  destruct l as [|n l]; [discriminate Hsum |].
  unfold average. rewrite Hsum. destruct f as [| |q]; try contradiction.
  cbn [length true_div obind]. eexists. split; [reflexivity |].
  unfold mean. rewrite length_map. cbn [value_of] in Hv. rewrite Hv.
  change (value_of (NInt 0)) with 0%Q. rewrite Qplus_0_l. reflexivity.
Qed.

(** [aggregate_results], with the loop written out. *)
Lemma aggregate_results_eq (results : list rule_result) (st : store) :
  aggregate_results results st
  = match results with
    | [] => (Ret (Report 0 [] 0), st)
    | _ :: _ =>
        match average (omap valid_score results) with
        | Raise e => (Raise e, st)
        | Ret avg_score =>
            (score <~ py_round avg_score;
             Ret (Report score (concat (map violations_of results)) (length results)),
             (collect results st []).1)
        end
    end.
Proof.
  pose proof (collect_violations results st []) as Hout. simpl in Hout.
  unfold aggregate_results. destruct results as [|r0 rest]; [reflexivity |].
  destruct (average _); [| reflexivity].
  destruct (collect (r0 :: rest) st []) as [st' out]. simpl in Hout. subst out.
  reflexivity.
Qed.

Lemma Qabs_Qmake_le (a : Z) (n : positive) : (Qabs (a # n) <= inject_Z (Z.abs a))%Q.
Proof.
  rewrite Qabs_Qmake. unfold Qle, inject_Z. cbn [Qnum Qden]. nia.
Qed.

(** The average returns when the int scores are within the float range. *)
Lemma average_returns (results : list rule_result) :
  (sum_of (map Z.abs (int_scores results)) < 2 ^ 1023)%Z ->
  exists avg_score, average (omap valid_score results) = Ret avg_score.
Proof.
  intros Hsmall.
  destruct (omap valid_score results) as [|n ns] eqn:E; [simpl; eauto |].
  destruct (py_sum_cases (n :: ns) 0) as [[zs Hzs] | [f Hf]].
  - rewrite Hzs in E |- *. pose proof (int_scores_of_valid _ _ E) as Hint.
    destruct zs as [|z zs]; [discriminate Hzs |].
    rewrite average_of_ints.
    destruct (binary64_of_returns (sum_of (z :: zs) # Pos.of_nat (length (z :: zs))))
      as [y ->]; [| eauto].
    eapply Qle_trans; [apply Qabs_Qmake_le |].
    rewrite <- (pow2_inject 1023) by lia. rewrite <- Zle_Qle.
    rewrite Hint in Hsmall.
    assert (Habs : forall l, (Z.abs (sum_of l) <= sum_of (map Z.abs l))%Z).
    { induction l as [|x l IH]; simpl; lia. }
    specialize (Habs (z :: zs)). lia.
  - unfold average. fold (py_sum (n :: ns)) in Hf. rewrite Hf.
    cbn [length true_div]. destruct f; simpl; eauto.
Qed.

(** C8, as the code has it. For a list of rule results whose numeric
    scores are ints ([True] and [False] counting as 1 and 0) with a sum
    below 2^52 in size, and whose violation objects are not shared,
    [aggregate_results] returns a report in which
    - the score is 0 when no result has an int score (so also for the
      empty list), and otherwise the integer nearest to the mean of the
      int scores, the even one of two nearest; a missing score, [None]
      and a score that is no number are left out of the mean;
    - the violations are those of all results, concatenated in input
      order, so that their number is the sum of the numbers per result,
      and after the call each of them carries under "rule_id" the rule id
      of its result;
    - rules_checked is the number of results. *)
Theorem aggregate_results_report (results : list rule_result) (st : store) :
  Forall (fun r => ~ has_float_score r) results ->
  (Z.abs (sum_of (int_scores results)) < 2 ^ 52)%Z ->
  NoDup (concat (map violations_of results)) ->
  exists rep st',
    aggregate_results results st = (Ret rep, st')
    /\ (int_scores results = [] -> score rep = 0%Z)
    /\ (int_scores results <> [] ->
        (Qabs (inject_Z (score rep) - mean (map inject_Z (int_scores results)))
         <= 1 # 2)%Q
        /\ ((Qabs (inject_Z (score rep) - mean (map inject_Z (int_scores results)))
             == 1 # 2)%Q ->
            Z.even (score rep) = true))
    /\ violations rep = concat (map violations_of results)
    /\ length (violations rep)
       = list_sum (map (fun r => length (violations_of r)) results)
    /\ (forall r l d,
          In r results -> In l (violations_of r) -> st !! l = Some d ->
          st' !! l = Some (dict_set "rule_id" (rule_id_of r) d))
    /\ rules_checked rep = length results.
Proof.
  intros Hints Hsmall Hnd.
  assert (Hstamp : forall r l d,
            In r results -> In l (violations_of r) -> st !! l = Some d ->
            (collect results st []).1 !! l
            = Some (dict_set "rule_id" (rule_id_of r) d)).
  { intros r l d Hr Hl Hd. rewrite collect_lookup.
    rewrite (last_owner_unique results r l Hnd Hr Hl), Hd. reflexivity. }
  assert (Hlen : length (concat (map violations_of results))
                 = list_sum (map (fun r => length (violations_of r)) results)).
  { rewrite List.length_concat, map_map. reflexivity. }
  rewrite aggregate_results_eq, (valid_scores_without_float results Hints).
  destruct results as [|r0 rest].
  { exists (Report 0 [] 0), st. simpl. repeat split; auto; try congruence. }
  destruct (int_scores (r0 :: rest)) as [|z zs] eqn:Hzs.
  - eexists _, _. split; [reflexivity |]. cbn [score violations rules_checked].
    split; [reflexivity |]. split; [congruence |].
    split; [reflexivity |]. split; [exact Hlen |]. split; [exact Hstamp | reflexivity].
  - rewrite average_of_ints.
    destruct (round_of_int_quotient (sum_of (z :: zs)) (Pos.of_nat (length (z :: zs)))
                Hsmall) as (y & -> & Hround).
    eexists _, _. split; [reflexivity |]. cbn [py_round obind score violations rules_checked].
    split; [discriminate |]. split.
    + intros _. rewrite Hround.
      rewrite (round_half_even_comp _ _ (Qeq_sym _ _ (mean_of_ints z zs))).
      split; [apply round_half_even_nearest | apply round_half_even_tie].
    + split; [reflexivity |]. split; [exact Hlen |]. split; [exact Hstamp | reflexivity].
Qed.

(** C9, as the code has it. The call writes into the violation objects of
    its input and into nothing else:
    - an object that no result holds is left as it was, and no object
      appears or disappears;
    - in an object that a result holds every key other than "rule_id"
      keeps its value;
    - when the int scores are within the float range (the sum of their
      sizes below 2^1023), every object that a result holds has its key
      "rule_id" set to the rule id of a result that holds it;
    - when the call raises the [OverflowError] of the true division, it
      has written nothing.
    The records and their violation lists are values of the model and are
    only read. *)
Theorem aggregate_results_effect (results : list rule_result) (st : store) :
  (forall l, ~ In l (concat (map violations_of results)) ->
             (aggregate_results results st).2 !! l = st !! l)
  /\ (forall l, (aggregate_results results st).2 !! l = None <-> st !! l = None)
  /\ (forall l d d' k,
        st !! l = Some d -> (aggregate_results results st).2 !! l = Some d' ->
        k <> "rule_id" -> dict_get k d' = dict_get k d)
  /\ ((sum_of (map Z.abs (int_scores results)) < 2 ^ 1023)%Z ->
      forall l d, In l (concat (map violations_of results)) -> st !! l = Some d ->
        exists r, In r results /\ In l (violations_of r)
                  /\ (aggregate_results results st).2 !! l
                     = Some (dict_set "rule_id" (rule_id_of r) d))
  /\ ((aggregate_results results st).1 = Raise division_overflow ->
      (aggregate_results results st).2 = st).
Proof.
  assert (Hown : forall l rid, last_owner results l = Some rid ->
            exists r, In r results /\ In l (violations_of r) /\ rid = rule_id_of r).
  { intros l rid. induction results as [|r0 rest IH]; simpl; [discriminate |].
    destruct (last_owner rest l) as [rid'|].
    - intros [= <-]. destruct (IH eq_refl) as (r & Hr & Hl & ->). eauto.
    - destruct (decide (l ∈ violations_of r0)) as [Hin | _]; [| discriminate].
      intros [= <-]. apply list_elem_of_In in Hin. eauto. }
  assert (Hst : (aggregate_results results st).2 = st
                \/ (aggregate_results results st).2 = (collect results st []).1).
  { rewrite aggregate_results_eq. destruct results as [|r0 rest]; [left; reflexivity |].
    destruct (average _); [right | left]; reflexivity. }
  split; [| split; [| split; [| split]]].
  - intros l Hl. destruct Hst as [-> | ->]; [reflexivity |]. rewrite collect_lookup.
    apply last_owner_None in Hl. rewrite Hl. reflexivity.
  - intros l. destruct Hst as [-> | ->]; [reflexivity |]. rewrite collect_lookup.
    destruct (last_owner results l); destruct (st !! l); simpl;
      split; intros H; first [discriminate H | reflexivity].
  - intros l d d' k Hd. destruct Hst as [-> | ->]; [congruence |].
    rewrite collect_lookup, Hd.
    destruct (last_owner results l) as [rid|]; simpl; intros [= <-] Hk.
    + apply dict_get_set_ne. exact Hk.
    + reflexivity.
  - intros Hsmall l d Hl Hd. rewrite aggregate_results_eq.
    destruct results as [|r0 rest]; [destruct Hl |].
    destruct (average_returns (r0 :: rest) Hsmall) as [avg ->]. cbn [snd].
    rewrite collect_lookup, Hd.
    destruct (last_owner (r0 :: rest) l) as [rid|] eqn:E.
    + destruct (Hown l rid E) as (r & Hr & Hlr & ->). exists r. auto.
    + apply last_owner_None in E. contradiction.
  - rewrite aggregate_results_eq. destruct results as [|r0 rest]; [reflexivity |].
    destruct (average (omap valid_score (r0 :: rest))) as [avg | e]; [| reflexivity].
    cbn [fst]. destruct avg as [z | [| |q]]; discriminate.
Qed.

(** ** More on the ResponseExtractor *)

Section SanitizerProperties.
Context (rt : runtime).

Lemma sanitize_violation_returns (violation : dict pyval) :
  (exists v, sanitize_violation rt violation = Ret v)
  <-> (truthy (dict_get_or "line" PNone violation) = true ->
       exists z, py_int rt (dict_get_or "line" (PInt 0) violation) = Ret z).
Proof.
  unfold sanitize_violation.
  destruct (truthy (dict_get_or "line" PNone violation)).
  - destruct (py_int rt (dict_get_or "line" (PInt 0) violation)) as [z | e]; simpl.
    + split; eauto.
    + split; [intros [v H]; discriminate |].
      intros H. destruct (H eq_refl) as [z Hz]. discriminate.
  - simpl. split; [intros _ H; discriminate | eauto].
Qed.

Lemma sanitize_violation_shape (violation v : dict pyval) :
  sanitize_violation rt violation = Ret v -> sanitized_violation v.
Proof.
  unfold sanitize_violation, sanitized_violation.
  destruct (truthy (dict_get_or "line" PNone violation)).
  - destruct (py_int rt (dict_get_or "line" (PInt 0) violation)) as [z | e]; simpl;
      [| discriminate].
    intros [= <-]. eexists _, _, _, _, _, _. split; [reflexivity |].
    split; [right; eauto |]. destruct (truthy (dict_get_or "article" PNone violation)); eauto.
  - simpl. intros [= <-]. eexists _, _, _, _, _, _. split; [reflexivity |].
    split; [left; reflexivity |].
    destruct (truthy (dict_get_or "article" PNone violation)); eauto.
Qed.

(** The loop over the violations is the loop over its dict entries. *)
Lemma sanitize_violations_traverse (l : list pyval) :
  sanitize_violations rt l
  = (ds <~ traverse (sanitize_violation rt) (mappings l); Ret (map PDict ds)).
Proof.
  induction l as [|v l IH]; [reflexivity |].
  destruct v as [| | | | | |d]; try exact IH.
  change (mappings (PDict d :: l)) with (d :: mappings l).
  cbn [sanitize_violations traverse].
  destruct (sanitize_violation rt d) as [v | e]; [| reflexivity]. cbn [obind].
  rewrite IH. destruct (traverse (sanitize_violation rt) (mappings l)); reflexivity.
Qed.

Lemma In_mappings (l : list pyval) (d : dict pyval) :
  In d (mappings l) <-> In (PDict d) l.
Proof.
  unfold mappings. rewrite <- !list_elem_of_In, list_elem_of_omap. split.
  - intros [v [Hv Hd]]. destruct v; try discriminate. injection Hd as ->. exact Hv.
  - intros H. exists (PDict d). auto.
Qed.

Lemma traverse_returns_iff {A B : Type} (f : A -> outcome B) (l : list A) :
  (exists bs, traverse f l = Ret bs) <-> (forall a, In a l -> exists b, f a = Ret b).
Proof.
  induction l as [|a l IH]; simpl.
  - split; [intros _ a [] | eauto].
  - split.
    + intros [bs H]. destruct (f a) as [b | e] eqn:Ea; [| discriminate]. simpl in H.
      destruct (traverse f l) as [bs' | e]; [| discriminate].
      intros a' [<- | Ha']; [eauto |]. apply IH; eauto.
    + intros H. destruct (H a (or_introl eq_refl)) as [b ->]. simpl.
      destruct (proj2 IH) as [bs ->]; [intros a' Ha'; apply H; auto |]. simpl. eauto.
Qed.

Lemma traverse_Forall {A B : Type} (P : B -> Prop) (f : A -> outcome B)
    (l : list A) (bs : list B) :
  (forall a b, f a = Ret b -> P b) -> traverse f l = Ret bs -> Forall P bs.
Proof.
  intros Hf. revert bs. induction l as [|a l IH]; simpl; intros bs.
  - intros [= <-]. constructor.
  - destruct (f a) as [b | e] eqn:Ea; [| discriminate]. simpl.
    destruct (traverse f l) as [bs' | e]; [| discriminate]. simpl.
    intros [= <-]. constructor; eauto.
Qed.

Lemma py_int_returns_iff (v : pyval) :
  (exists z, py_int rt v = Ret z) <-> int_accepts rt v.
Proof.
  destruct v as [| b | z | [| |q] | s | |]; simpl;
    try (split; [intros [z' H]; discriminate H | intros []]);
    try (split; [intros _; exact I | intros _; eauto]).
  destruct (str_int rt s) as [z | message].
  - split; eauto.
  - split; [intros [z H]; discriminate H | intros [z H]; discriminate H].
Qed.

(** When [validate_and_sanitize_response] returns, and only then: the
    data is a dict, its score is not a NaN or an infinite float, and every
    dict among its violations has a line that is falsy or that [int]
    accepts: a bool, an int, a finite float, or a string that [int] reads
    (for a string of ASCII within the limit on digits: white space, an
    optional sign, digits with single underscores between them, white
    space). In every other case it raises. *)
Theorem validate_and_sanitize_response_returns_iff (data : pyval) :
  ((exists result, validate_and_sanitize_response rt data = Ret result)
   <-> exists d,
         data = PDict d
         /\ finite_value (dict_get_or "score" (PInt 0) d)
         /\ (forall v, In (PDict v) (violations_list d) ->
               truthy (dict_get_or "line" PNone v) = true ->
               int_accepts rt (dict_get_or "line" (PInt 0) v)))
  /\ (forall s, is_ascii s = true -> (String.length s <= 4300)%nat ->
        (int_accepts rt (PStr s) <-> exists z, int_of_str s = Some z)).
Proof.
  split.
  2:{ intros s Hascii Hlen. cbn [int_accepts].
      rewrite (str_int_ascii rt s Hascii Hlen).
      destruct (int_of_str s) as [z|].
      - split; eauto.
      - split; intros [z H]; discriminate H. }
  assert (Hloop : forall l,
            (exists out, sanitize_violations rt l = Ret out)
            <-> (forall v, In (PDict v) l ->
                   truthy (dict_get_or "line" PNone v) = true ->
                   int_accepts rt (dict_get_or "line" (PInt 0) v))).
  { intros l. rewrite sanitize_violations_traverse. split.
    - intros [out H] v Hv Ht.
      destruct (traverse (sanitize_violation rt) (mappings l)) as [ds | e] eqn:E;
        [| discriminate].
      apply py_int_returns_iff. revert Ht.
      apply sanitize_violation_returns.
      apply (proj1 (traverse_returns_iff _ _) (ex_intro _ ds E)).
      apply In_mappings. exact Hv.
    - intros H.
      destruct (proj2 (traverse_returns_iff (sanitize_violation rt) (mappings l)))
        as [ds ->]; [| simpl; eauto].
      intros d Hd. apply sanitize_violation_returns. intros Ht.
      apply py_int_returns_iff. apply H; [apply In_mappings, Hd | exact Ht]. }
  unfold validate_and_sanitize_response. split.
  - intros [result H]. destruct data as [| | | | | |d]; try discriminate.
    exists d. split; [reflexivity |]. cbn [py_get obind] in H.
    fold (violations_list d) in H.
    destruct (sanitize_violations rt (violations_list d)) as [out | e] eqn:E.
    + split; [| apply Hloop; eauto].
      destruct (dict_get_or "score" (PInt 0) d) as [| | |[| |]| | |];
        try exact I; discriminate.
    + exfalso. destruct (is_number _); [destruct (py_int rt _) |]; discriminate.
  - intros (d & -> & Hscore & Hlines). cbn [py_get obind]. fold (violations_list d).
    destruct (proj2 (Hloop (violations_list d)) Hlines) as [out ->].
    destruct (dict_get_or "score" (PInt 0) d) as [| | |[| |]| | |];
      try contradiction; simpl; eauto.
Qed.

(** The violations of a sanitized reply: one rebuilt entry for each dict
    among the given violations, in their order; an entry that is no dict
    is dropped, and a value under "violations" that is no list counts as
    the empty list. Every entry has the six keys file, line, severity,
    issue, recommendation, article, with strings under four of them, an
    int or None under line and a string or None under article. *)
Theorem validate_and_sanitize_response_violations (d result : dict pyval) :
  validate_and_sanitize_response rt (PDict d) = Ret result ->
  exists sanitized,
    dict_get "violations" result = Some (PList (map PDict sanitized))
    /\ traverse (sanitize_violation rt) (mappings (violations_list d)) = Ret sanitized
    /\ length sanitized = length (mappings (violations_list d))
    /\ Forall sanitized_violation sanitized.
Proof.
  unfold validate_and_sanitize_response. cbn [py_get obind].
  fold (violations_list d). rewrite sanitize_violations_traverse.
  intros H.
  destruct (traverse (sanitize_violation rt) (mappings (violations_list d)))
    as [ds | e] eqn:E.
  - exists ds. split; [| split; [reflexivity | split]].
    + destruct (is_number _); [destruct (py_int rt _); [| discriminate] |];
        simpl in H; injection H as <-; reflexivity.
    + clear H. revert ds E. induction (mappings (violations_list d)) as [|a l IH];
        simpl; intros ds.
      * intros [= <-]. reflexivity.
      * destruct (sanitize_violation rt a); [| discriminate]. simpl.
        destruct (traverse (sanitize_violation rt) l) as [bs|]; [| discriminate].
        simpl. intros [= <-]. simpl. rewrite (IH bs eq_refl). reflexivity.
    + eapply traverse_Forall; [| exact E]. apply sanitize_violation_shape.
  - exfalso. destruct (is_number _); [destruct (py_int rt _) |]; discriminate.
Qed.

(** The two file-list parsers return only candidates, and they return the
    same list unless the text taken out of the fences parses to a value
    that is not a list (a JSON object, say): then the parser of
    file_selector.py gives up with the empty list, while the parser of
    json_parser.py goes on to the bracket span. *)
Theorem file_list_parsers_compared (response : string) (available_files : list string) :
  (forall l f, parse_llm_file_selection rt response available_files = Ret l ->
               In f l -> In f available_files)
  /\ (forall l f, parse_file_selection_response rt response available_files = Ret l ->
                  In f l -> In f available_files)
  /\ ((forall v, json_loads rt (remove_code_fences (strip response)) = Ret v ->
                 exists l, v = PList l) ->
      parse_llm_file_selection rt response available_files
      = parse_file_selection_response rt response available_files)
  /\ (forall v, json_loads rt (remove_code_fences (strip response)) = Ret v ->
                (forall l, v <> PList l) ->
                parse_file_selection_response rt response available_files = Ret []
                /\ parse_llm_file_selection rt response available_files
                   = selection_from_span rt (remove_code_fences (strip response))
                       available_files).
Proof.
  assert (Hspan : forall cleaned l f,
            selection_from_span rt cleaned available_files = Ret l -> In f l ->
            In f available_files).
  { intros cleaned l f. apply selection_from_span_known. }
  unfold parse_llm_file_selection, parse_file_selection_response.
  destruct (json_loads rt (remove_code_fences (strip response))) as [v|e].
  - split; [| split; [| split]].
    + destruct v; try apply Hspan. intros ? f [= <-]. apply keep_known_In.
    + destruct v; try (intros ? ? [= <-] []). intros ? f [= <-]. apply keep_known_In.
    + intros H. destruct (H v eq_refl) as [l ->]. reflexivity.
    + intros v' [= <-] Hv. destruct v; try (split; reflexivity).
      exfalso. eapply Hv. reflexivity.
  - split; [| split; [| split]].
    + destruct (is_json_decode_error e); [apply Hspan | discriminate].
    + destruct (is_json_decode_error e); [apply Hspan | discriminate].
    + reflexivity.
    + intros v [=].
Qed.

End SanitizerProperties.

(** ** Sanitizing twice *)

Section SanitizingTwice.
Context (rt : runtime).

(** A sanitized violation is accepted again, and comes back as it is
    unless its line is 0 or its article is the empty string. *)
Lemma sanitize_violation_again (v : dict pyval) :
  sanitized_violation v ->
  exists v',
    sanitize_violation rt v = Ret v'
    /\ (dict_get "line" v <> Some (PInt 0) ->
        dict_get "article" v <> Some (PStr "") -> v' = v).
Proof.
  intros (file & line & severity & issue & recommendation & article & -> & Hline & Harticle).
  unfold sanitize_violation.
  change (dict_get_or "line" PNone _) with line.
  change (dict_get_or "line" (PInt 0) _) with line.
  change (dict_get_or "article" PNone _) with article.
  change (dict_get_or "article" (PStr "") _) with article.
  change (dict_get "line" _) with (Some line).
  change (dict_get "article" _) with (Some article).
  change (dict_get_or "file" (PStr "unknown") _) with (PStr file).
  change (dict_get_or "severity" (PStr "medium") _) with (PStr severity).
  change (dict_get_or "issue" (PStr "No description") _) with (PStr issue).
  change (dict_get_or "recommendation" (PStr "No recommendation") _)
    with (PStr recommendation).
  cbn [py_str].
  assert (Hl : exists line',
            (if truthy line then z <~ py_int rt line; Ret (PInt z) else Ret PNone)
            = Ret line'
            /\ (Some line <> Some (PInt 0) -> line' = line)).
  { destruct Hline as [-> | [z ->]]; [exists PNone; split; auto |].
    cbn [truthy py_int obind]. destruct (Z.eqb_spec z 0) as [-> | Hz].
    - exists PNone. split; [reflexivity | congruence].
    - exists (PInt z). split; reflexivity. }
  destruct Hl as (line' & -> & Hl). cbn [obind].
  eexists. split; [reflexivity |]. intros H1 H2. rewrite (Hl H1). do 6 f_equal.
  destruct Harticle as [-> | [s ->]]; [reflexivity |].
  cbn [truthy]. destruct (String.eqb_spec s "") as [-> | Hs]; [congruence | reflexivity].
Qed.

Lemma sanitize_violations_again (sanitized : list (dict pyval)) :
  Forall sanitized_violation sanitized ->
  exists again,
    sanitize_violations rt (map PDict sanitized) = Ret (map PDict again)
    /\ ((forall v, In v sanitized ->
           dict_get "line" v <> Some (PInt 0)
           /\ dict_get "article" v <> Some (PStr "")) ->
        again = sanitized).
Proof.
  induction 1 as [|v l Hv _ (again & IH & Hsame)].
  - exists []. split; [reflexivity | auto].
  - destruct (sanitize_violation_again v Hv) as (v' & Hv' & Hkeep).
    exists (v' :: again). cbn [map sanitize_violations]. rewrite Hv'. cbn [obind].
    rewrite IH. split; [reflexivity |].
    intros Hall. rewrite Hsame by (intros x Hx; apply Hall; right; exact Hx).
    destruct (Hall v (or_introl eq_refl)) as [H1 H2]. rewrite (Hkeep H1 H2). reflexivity.
Qed.

(** A sanitized reply can be sanitized again: nothing is raised, passed
    and score stay, and the whole result stays as it is when no
    violation has the line 0 or the empty string as article. (A line 0,
    which the first pass gives for the line "0", is None after the
    second.) *)
Theorem validate_and_sanitize_response_again (data : pyval) (result : dict pyval) :
  validate_and_sanitize_response rt data = Ret result ->
  exists again,
    validate_and_sanitize_response rt (PDict result) = Ret again
    /\ dict_get "passed" again = dict_get "passed" result
    /\ dict_get "score" again = dict_get "score" result
    /\ ((forall v, In (PDict v) (violations_list result) ->
           dict_get "line" v <> Some (PInt 0)
           /\ dict_get "article" v <> Some (PStr "")) ->
        again = result).
Proof.
  intros H.
  assert (Hshape : exists passed sanitized z,
            result = [ ("passed", passed); ("violations", PList (map PDict sanitized));
                       ("score", PInt z) ]
            /\ (0 <= z <= 100)%Z /\ Forall sanitized_violation sanitized).
  { revert H. unfold validate_and_sanitize_response.
    destruct data as [| | | | | |d]; try discriminate. cbn [py_get obind].
    rewrite sanitize_violations_traverse.
    destruct (traverse (sanitize_violation rt) _) as [ds | e] eqn:E.
    - intros H. exists (dict_get_or "passed" (PBool false) d), ds.
      assert (Hds : Forall sanitized_violation ds).
      { eapply traverse_Forall; [| exact E]. apply sanitize_violation_shape. }
      destruct (is_number _); [destruct (py_int rt _) as [z |]; [| discriminate] |];
        cbn [obind] in H; injection H as <-; eexists; (split; [reflexivity |]);
        split; try exact Hds; lia.
    - intros H. exfalso. destruct (is_number _); [destruct (py_int rt _) |]; discriminate. }
  destruct Hshape as (passed & sanitized & z & -> & Hz & Hs).
  destruct (sanitize_violations_again sanitized Hs) as (again & Hagain & Hsame).
  unfold validate_and_sanitize_response. cbn [py_get obind].
  change (dict_get_or "passed" (PBool false) _) with passed.
  change (dict_get_or "violations" (PList []) _) with (PList (map PDict sanitized)).
  change (dict_get_or "score" (PInt 0) _) with (PInt z).
  cbn [is_number py_int obind]. rewrite Hagain. cbn [obind].
  replace (Z.max 0 (Z.min 100 z)) with z by lia.
  eexists. split; [reflexivity |]. split; [reflexivity |]. split; [reflexivity |].
  intros Hall. rewrite Hsame; [reflexivity |].
  intros v Hv. apply Hall. unfold violations_list.
  change (dict_get_or "violations" (PList []) _) with (PList (map PDict sanitized)).
  apply in_map. exact Hv.
Qed.

End SanitizingTwice.

(** ** More on the FileSelector and the RuleAnalyzer *)

Lemma slice_to_In {A : Type} (k : Z) (l : list A) (x : A) :
  In x (slice_to k l) -> In x l.
Proof. unfold slice_to. destruct (0 <=? k)%Z; apply In_take. Qed.

Lemma slice_to_length {A : Type} (k : Z) (l : list A) :
  (0 <= k)%Z -> (Z.of_nat (length (slice_to k l)) <= k)%Z.
Proof.
  intros Hk. unfold slice_to. destruct (Z.leb_spec 0 k) as [_ | H]; [| lia].
  rewrite length_take. lia.
Qed.

Lemma filter_by_keywords_value_In (rt : runtime) (files : list string)
    (keywords : pyval) (filtered : list string) (f : string) :
  filter_by_keywords_value rt files keywords = Ret filtered ->
  In f filtered -> In f files.
Proof.
  unfold filter_by_keywords_value, obind.
  destruct (truthy keywords).
  - destruct (keyword_items keywords) as [ks | e]; [| discriminate].
    intros [= <-]. unfold filter_by_keywords. destruct ks; [auto |].
    intros H. apply List.filter_In in H. tauto.
  - intros [= <-]. auto.
Qed.

Lemma dict_set_NoDup {V : Type} (k : string) (v : V) (d : dict V) :
  NoDup (dict_keys d) -> NoDup (dict_keys (dict_set k v d)).
Proof.
  unfold dict_keys. induction d as [|[k' v'] d IH]; simpl; intros H.
  - repeat constructor. rewrite list_elem_of_In. intros [].
  - apply NoDup_cons in H as [Hk' Hd].
    destruct (String.eqb_spec k k') as [-> | Hne]; simpl.
    + apply NoDup_cons. auto.
    + apply NoDup_cons. split; [| auto].
      rewrite list_elem_of_In. rewrite list_elem_of_In in Hk'.
      intros Hin. apply (dict_keys_set k v d k') in Hin as [-> | Hin]; auto.
Qed.

Lemma read_files_NoDup (repo : repository) (selected_files : list string)
    (file_contents : dict string) :
  NoDup (dict_keys file_contents) ->
  NoDup (dict_keys (read_files repo selected_files file_contents)).
Proof.
  revert file_contents. induction selected_files as [|p l IH]; intros fc H; simpl.
  - exact H.
  - destruct (read_file repo p); apply IH; [apply dict_set_NoDup |]; exact H.
Qed.

Section SelectionProperties.
Context (rt : runtime) (env : environment).

(** Without a client passed, [select_best_files] runs on the client that
    [FeatherlessClient()] builds. *)
Lemma select_best_files_default_client (filtered_files : list string)
    (rule : dict pyval) (max_files : Z) (c : client) (w : world) :
  FeatherlessClient env = Ret c ->
  select_best_files rt env filtered_files rule max_files None w
  = select_best_files rt env filtered_files rule max_files (Some c) w.
Proof.
  intros Hc. unfold select_best_files.
  destruct (Z.of_nat (length filtered_files) <=? max_files)%Z; [reflexivity |].
  destruct (length filtered_files =? 0)%nat; [reflexivity |].
  unfold bind, lift, ret. rewrite Hc. reflexivity.
Qed.

Lemma select_best_files_bounds (filtered_files : list string) (rule : dict pyval)
    (max_files : Z) (c : client) (w w' : world) (selected : list string) :
  select_best_files rt env filtered_files rule max_files (Some c) w = (Ret selected, w') ->
  (forall f, In f selected -> In f filtered_files)
  /\ ((0 <= max_files)%Z -> (Z.of_nat (length selected) <= max_files)%Z).
Proof.
  unfold select_best_files.
  destruct (Z.leb_spec (Z.of_nat (length filtered_files)) max_files) as [Hle | Hgt].
  { intros [= <- _]. auto. }
  destruct (length filtered_files =? 0)%nat.
  { intros [= <- _]. split; [intros f [] | simpl; lia]. }
  unfold bind, ret, lift, try_except, generate_completion.
  destruct (selection_prompt filtered_files rule max_files) as [p | e]; [| discriminate].
  destruct (c w p) as [response | e].
  - destruct (parse_file_selection_response rt response filtered_files)
      as [parsed | e] eqn:Hparse; intros [= <- _].
    + split; [| apply slice_to_length].
      intros f Hf.
      apply (parse_file_selection_response_known rt response _ parsed f Hparse).
      eapply slice_to_In; exact Hf.
    + split; [apply slice_to_In | apply slice_to_length].
  - intros [= <- _]. split; [apply slice_to_In | apply slice_to_length].
Qed.

(** Whatever [select_best_files] returns, with or without a client passed
    and whatever the provider replied: every returned file is one of the
    candidates, there are at most [max_files] of them, and the provider
    has been called at most once. *)
Theorem select_best_files_sound (filtered_files : list string) (rule : dict pyval)
    (max_files : Z) (llm_client : option client) (w w' : world)
    (selected : list string) :
  (0 <= max_files)%Z ->
  select_best_files rt env filtered_files rule max_files llm_client w
  = (Ret selected, w') ->
  (forall f, In f selected -> In f filtered_files)
  /\ (Z.of_nat (length selected) <= max_files)%Z
  /\ (w' = w \/ exists p, w' = w ++ [p]).
Proof.
  intros Hmax H.
  assert (Hc : exists c,
            select_best_files rt env filtered_files rule max_files (Some c) w
            = (Ret selected, w')).
  { destruct llm_client as [c|]; [eauto |].
    destruct (FeatherlessClient env) as [c | e] eqn:E.
    - exists c. rewrite <- (select_best_files_default_client _ _ _ c w E). exact H.
    - exists (fun _ _ => Ret ""). revert H. unfold select_best_files.
      destruct (Z.of_nat (length filtered_files) <=? max_files)%Z; [auto |].
      destruct (length filtered_files =? 0)%nat; [auto |].
      unfold bind, lift. rewrite E. discriminate. }
  destruct Hc as [c Hc].
  destruct (select_best_files_bounds _ _ _ _ _ _ _ Hc) as [Hin Hlen].
  split; [exact Hin |]. split; [exact (Hlen Hmax) |].
  destruct (select_best_files_calls rt env _ _ _ _ _ _ _ Hc) as [-> | (_ & p & _ & ->)];
    eauto.
Qed.

(** What file selection hands to the read loop: at most three code files
    of the repository, followed by all documents or by none. *)
Lemma select_files_shape (rule : dict pyval) (repo : repository) (c : client)
    (w w1 : world) (selected_files : list string) :
  select_files rt env rule repo c w = (Ret selected_files, w1) ->
  exists code docs,
    selected_files = code ++ docs
    /\ (length code <= 3)%nat
    /\ (forall f, In f code -> In f (code_files repo))
    /\ (docs = doc_files repo \/ docs = []).
Proof.
  unfold select_files, bind, lift, ret.
  set (docs := if in_strs (dict_get_or "check_type" (PStr "both") rule)
                    ["document"; "both"]
               then doc_files repo else []).
  assert (Hdocs : docs = doc_files repo \/ docs = []).
  { unfold docs. destruct (in_strs _ _); auto. }
  assert (Hnone : forall w0, (Ret ([] ++ docs), w0) = (Ret selected_files, w1) ->
            exists code docs0,
              selected_files = code ++ docs0 /\ (length code <= 3)%nat
              /\ (forall f, In f code -> In f (code_files repo))
              /\ (docs0 = doc_files repo \/ docs0 = [])).
  { intros w0 [= <- _]. exists [], docs. simpl. repeat split; auto; intros f []. }
  destruct (in_strs (dict_get_or "check_type" (PStr "both") rule) ["code"; "both"]);
    [| apply Hnone].
  destruct (py_get (dict_get_or "code_checks" (PDict []) rule) "enabled" (PBool false))
    as [enabled | e]; [| discriminate].
  destruct (truthy enabled); [| apply Hnone].
  destruct (py_get (dict_get_or "code_checks" (PDict []) rule) "file_keywords" (PList []))
    as [keywords | e]; [| discriminate].
  destruct (filter_by_keywords_value rt (code_files repo) keywords) as [filtered | e] eqn:Hf;
    [| discriminate].
  destruct (negb (length filtered =? 0)%nat); [| apply Hnone].
  destruct (select_best_files rt env filtered rule 3 (Some c) w) as [[sel | e] w'] eqn:Hs;
    [| discriminate].
  intros [= <- _].
  destruct (select_best_files_bounds _ _ _ _ _ _ _ Hs) as [Hin Hlen].
  exists sel, docs. split; [reflexivity |]. split; [lia |]. split; [| exact Hdocs].
  intros f Hfsel. eapply filter_by_keywords_value_In; [exact Hf | auto].
Qed.

(** What a result of [analyze_rule] says about the run that produced it.
    It carries the id of the rule. Its files_analyzed are files of the
    repository that were read successfully, each listed once, among them
    at most three code files. And the provider has been called at most
    twice, at most once when the repository has at most three code
    files. *)
Theorem analyze_rule_footprint (rule : dict pyval) (repo : repository) (c : client)
    (w w' : world) (result : dict pyval) :
  analyze_rule rt env rule repo (Some c) w = (Ret result, w') ->
  dict_get "rule_id" result = Some (dict_get_or "id" PNone rule)
  /\ (exists files code,
        dict_get "files_analyzed" result = Some (PList (map PStr files))
        /\ NoDup files
        /\ (length code <= 3)%nat
        /\ (forall f, In f code -> In f (code_files repo))
        /\ (forall f, In f files ->
              (In f code \/ In f (doc_files repo))
              /\ exists content, read_file repo f = Ret content))
  /\ (exists calls,
        w' = w ++ calls /\ (length calls <= 2)%nat
        /\ ((length (code_files repo) <= 3)%nat -> (length calls <= 1)%nat)).
Proof.
  rewrite analyze_rule_after_selection.
  destruct (select_files rt env rule repo c w) as [[sel | e] w1] eqn:Hsel; [| discriminate].
  destruct (select_files_shape _ _ _ _ _ _ Hsel) as (code & docs & -> & Hlen & Hcode & Hdocs).
  destruct (select_files_calls rt env _ _ _ _ _ _ Hsel) as (Hcalls & Hfew & _).
  assert (Hw1 : exists calls1, w1 = w ++ calls1 /\ (length calls1 <= 1)%nat
                  /\ ((length (code_files repo) <= 3)%nat -> calls1 = [])).
  { destruct Hcalls as [-> | (fs & t & d & m & ps & ->)].
    - exists []. rewrite app_nil_r. auto.
    - eexists [_]. split; [reflexivity |]. split; [simpl; lia |].
      intros H3. specialize (Hfew H3). apply (f_equal (@length prompt)) in Hfew.
      rewrite length_app in Hfew. simpl in Hfew. lia. }
  destruct Hw1 as (calls1 & -> & Hcalls1 & Hsmall). clear Hcalls Hfew.
  set (file_contents := read_files repo (code ++ docs) []).
  assert (Hfiles : NoDup (dict_keys file_contents)
            /\ forall f, In f (dict_keys file_contents) ->
                 (In f code \/ In f (doc_files repo))
                 /\ exists content, read_file repo f = Ret content).
  { split; [apply read_files_NoDup; constructor |].
    intros f Hf. apply read_files_keys in Hf as [[] | [Hin Hread]].
    split; [| exact Hread]. apply in_app_iff in Hin as [Hin | Hin]; [auto |].
    destruct Hdocs as [-> | ->]; [auto | destruct Hin]. }
  destruct Hfiles as [Hnd Hread].
  destruct (length (code ++ docs) =? 0)%nat.
  { intros [= <- <-]. split; [reflexivity |]. split.
    - exists [], code. split; [reflexivity |]. split; [constructor |].
      split; [exact Hlen |]. split; [exact Hcode |]. intros f [].
    - exists calls1. split; [reflexivity |]. split; [lia |]. intros _. lia. }
  cbv zeta. fold file_contents. rewrite call_llm_for_rule_steps.
  assert (Hdone : forall (r : dict pyval) (calls2 : list prompt),
            (length calls2 <= 1)%nat ->
            dict_get "rule_id" r = Some (dict_get_or "id" PNone rule) ->
            dict_get "files_analyzed" r = Some (PList (map PStr (dict_keys file_contents))) ->
            (Ret r, (w ++ calls1) ++ calls2) = (Ret result, w') ->
            dict_get "rule_id" result = Some (dict_get_or "id" PNone rule)
            /\ (exists files code0,
                  dict_get "files_analyzed" result = Some (PList (map PStr files))
                  /\ NoDup files
                  /\ (length code0 <= 3)%nat
                  /\ (forall f, In f code0 -> In f (code_files repo))
                  /\ (forall f, In f files ->
                        (In f code0 \/ In f (doc_files repo))
                        /\ exists content, read_file repo f = Ret content))
            /\ (exists calls,
                  w' = w ++ calls /\ (length calls <= 2)%nat
                  /\ ((length (code_files repo) <= 3)%nat -> (length calls <= 1)%nat))).
  { intros r calls2 Hc2 Hid Hfa [= <- <-]. split; [exact Hid |]. split.
    - exists (dict_keys file_contents), code. auto.
    - exists (calls1 ++ calls2). split; [rewrite app_assoc; reflexivity |].
      rewrite length_app. split; [lia |]. intros H3. rewrite (Hsmall H3). simpl. lia. }
  assert (Herr : forall e, dict_get "rule_id" (error_result rule (dict_keys file_contents) e)
                           = Some (dict_get_or "id" PNone rule)
                           /\ dict_get "files_analyzed"
                                (error_result rule (dict_keys file_contents) e)
                              = Some (PList (map PStr (dict_keys file_contents)))).
  { intros e. split; reflexivity. }
  destruct (analysis_prompt rule file_contents) as [p | e].
  2: { intros H. apply (Hdone _ [] ltac:(simpl; lia) (proj1 (Herr e)) (proj2 (Herr e))).
       rewrite app_nil_r. exact H. }
  destruct (c (w ++ calls1) p) as [response | e].
  2: { apply (Hdone _ [p] ltac:(simpl; lia) (proj1 (Herr e)) (proj2 (Herr e))). }
  destruct (parse_json_response rt response) as [parsed | e].
  2: { apply (Hdone _ [p] ltac:(simpl; lia) (proj1 (Herr e)) (proj2 (Herr e))). }
  apply (Hdone _ [p] ltac:(simpl; lia)).
  - unfold add_metadata. rewrite dict_get_set_ne by discriminate. apply dict_get_set_eq.
  - unfold add_metadata. apply dict_get_set_eq.
Qed.

End SelectionProperties.

(** ** More on the Aggregator *)

(** A value between two integers is rounded to an integer between them. *)
Lemma round_half_even_between (q : Q) (lo hi : Z) :
  (inject_Z lo <= q <= inject_Z hi)%Q -> (lo <= round_half_even q <= hi)%Z.
Proof.
  intros [Hlo Hhi]. pose proof (round_half_even_nearest q) as Hn.
  apply Qabs_Qle_condition in Hn as [Hn1 Hn2].
  split.
  - destruct (Z_lt_le_dec (round_half_even q) lo) as [Hlt | Hge]; [| exact Hge].
    exfalso. assert (Hz : (round_half_even q + 1 <= lo)%Z) by lia.
    rewrite Zle_Qle, inject_Z_plus in Hz. change (inject_Z 1) with 1%Q in Hz. lra.
  - destruct (Z_lt_le_dec hi (round_half_even q)) as [Hlt | Hge]; [| exact Hge].
    exfalso. assert (Hz : (hi + 1 <= round_half_even q)%Z) by lia.
    rewrite Zle_Qle, inject_Z_plus in Hz. change (inject_Z 1) with 1%Q in Hz. lra.
Qed.

Lemma sum_between (l : list Q) (lo hi : Q) :
  Forall (fun x => lo <= x <= hi)%Q l ->
  (lo * inject_Z (Z.of_nat (length l)) <= fold_right Qplus 0 l
   <= hi * inject_Z (Z.of_nat (length l)))%Q.
Proof.
  induction 1 as [|x l [Hx1 Hx2] _ [IH1 IH2]].
  - cbn [length fold_right]. change (inject_Z (Z.of_nat 0)) with 0%Q. lra.
  - cbn [length fold_right]. rewrite Nat2Z.inj_succ. unfold Z.succ.
    rewrite inject_Z_plus. change (inject_Z 1) with 1%Q. lra.
Qed.

Lemma mean_between (l : list Q) (lo hi : Q) :
  l <> [] -> Forall (fun x => lo <= x <= hi)%Q l -> (lo <= mean l <= hi)%Q.
Proof.
  intros Hne Hl. unfold mean. destruct (sum_between l lo hi Hl) as [H1 H2].
  assert (Hpos : (0 < inject_Z (Z.of_nat (length l)))%Q).
  { change 0%Q with (inject_Z 0). rewrite <- Zlt_Qlt. destruct l; [congruence | simpl; lia]. }
  split.
  - apply Qle_shift_div_l; assumption.
  - apply Qle_shift_div_r; assumption.
Qed.

Lemma sum_Permutation (l l' : list Q) :
  Permutation l l' -> (fold_right Qplus 0 l == fold_right Qplus 0 l')%Q.
Proof.
  induction 1 as [| x l l' _ IH | x y l | l l' l'' _ IH1 _ IH2]; simpl.
  - reflexivity.
  - rewrite IH. reflexivity.
  - lra.
  - rewrite IH1. exact IH2.
Qed.

Lemma concat_Permutation {A : Type} (l l' : list (list A)) :
  Permutation l l' -> Permutation (concat l) (concat l').
Proof.
  induction 1 as [| x l l' _ IH | x y l | l l' l'' _ IH1 _ IH2]; simpl.
  - reflexivity.
  - apply Permutation_app_head. exact IH.
  - rewrite !app_assoc. apply Permutation_app_tail. apply Permutation_app_comm.
  - etransitivity; eassumption.
Qed.

(** A value from [lo] on and below [hi] + 1/2 is rounded to an integer
    between [lo] and [hi]. *)
Lemma round_half_even_range (q : Q) (lo hi : Z) :
  (inject_Z lo <= q)%Q -> (q < inject_Z hi + (1 # 2))%Q ->
  (lo <= round_half_even q <= hi)%Z.
Proof.
  intros Hlo Hhi. pose proof (round_half_even_nearest q) as Hn.
  apply Qabs_Qle_condition in Hn as [Hn1 Hn2].
  split.
  - destruct (Z_lt_le_dec (round_half_even q) lo) as [Hlt | Hge]; [| exact Hge].
    exfalso. assert (Hz : (round_half_even q + 1 <= lo)%Z) by lia.
    rewrite Zle_Qle, inject_Z_plus in Hz. change (inject_Z 1) with 1%Q in Hz. lra.
  - destruct (Z_lt_le_dec hi (round_half_even q)) as [Hlt | Hge]; [| exact Hge].
    exfalso. assert (Hz : (hi + 1 <= round_half_even q)%Z) by lia.
    rewrite Zle_Qle, inject_Z_plus in Hz. change (inject_Z 1) with 1%Q in Hz. lra.
Qed.

Lemma sum_of_Permutation (l l' : list Z) :
  Permutation l l' -> sum_of l = sum_of l'.
Proof.
  induction 1 as [| x l l' _ IH | x y l | l l' l'' _ IH1 _ IH2]; simpl; lia.
Qed.

Lemma collect_twice (results : list rule_result) (st : store) :
  (collect results (collect results st []).1 []).1 = (collect results st []).1.
Proof.
  apply map_eq. intros l. rewrite !collect_lookup.
  destruct (last_owner results l) as [rid|]; [| reflexivity].
  destruct (st !! l) as [d|]; simpl; [rewrite dict_set_set |]; reflexivity.
Qed.

(** When every numeric score lies between 0 and 100, as the scores of
    [analyze_rule] do, [aggregate_results] returns and the score of the
    report lies between 0 and 100 as well. *)
Theorem aggregate_results_score_range (results : list rule_result) (st : store) :
  (forall n, In n (omap valid_score results) ->
             finite_number n /\ (0 <= value_of n <= 100)%Q) ->
  exists rep st',
    aggregate_results results st = (Ret rep, st')
    /\ (0 <= score rep <= 100)%Z.
Proof.
  intros H.
  assert (Hfin : Forall finite_number (omap valid_score results)).
  { apply List.Forall_forall. intros n Hn. apply H, Hn. }
  assert (Hmean : omap valid_score results <> [] ->
            (0 <= mean (map value_of (omap valid_score results)) <= 100)%Q).
  { intros Hne. apply mean_between; [destruct (omap valid_score results); [congruence | discriminate] |].
    apply List.Forall_forall. intros q Hq. apply in_map_iff in Hq as [m [<- Hm]].
    apply H, Hm. }
  rewrite aggregate_results_eq. destruct results as [|r0 rest].
  { eexists _, _. split; [reflexivity |]. simpl. lia. }
  destruct (omap valid_score (r0 :: rest)) as [|n ns] eqn:E.
  { eexists _, _. split; [reflexivity |]. simpl. lia. }
  specialize (Hmean ltac:(discriminate)).
  destruct (py_sum_cases (n :: ns) 0) as [[zs Hzs] | [f Hf]].
  - rewrite Hzs in Hmean |- *. destruct zs as [|z zs]; [discriminate Hzs |].
    rewrite average_of_ints.
    assert (Hvals : map value_of (map NInt (z :: zs)) = map inject_Z (z :: zs)).
    { rewrite map_map. reflexivity. }
    rewrite Hvals, mean_of_ints in Hmean.
    destruct (binary64_of_percent _ Hmean) as (y & -> & Hy0 & Hy100).
    eexists _, _. split; [reflexivity |]. cbn [py_round obind score].
    apply round_half_even_range; [exact Hy0 | exact Hy100].
  - destruct (average_of_floats (n :: ns) f Hfin Hf) as (q & -> & Hq).
    eexists _, _. split; [reflexivity |]. cbn [py_round obind score].
    apply round_half_even_between. rewrite Hq. exact Hmean.
Qed.

(** The order of the rule results does not matter to the outcome. For two
    orders of the same results whose numeric scores are ints (as the
    scores of [analyze_rule] are), either both calls return, with equal
    scores, equal rules_checked and violation lists that hold the same
    objects (in the order of the results), or both raise the same
    exception; they return when the sum of the scores is below 2^1023 in
    size. When no violation object is shared between results, the store
    is left in the same state as well. *)
Theorem aggregate_results_order (results results' : list rule_result) (st : store) :
  Permutation results results' ->
  Forall (fun r => ~ has_float_score r) results ->
  match (aggregate_results results st).1, (aggregate_results results' st).1 with
  | Ret rep, Ret rep' =>
      score rep = score rep'
      /\ rules_checked rep = rules_checked rep'
      /\ Permutation (violations rep) (violations rep')
  | Raise e, Raise e' => e = e'
  | _, _ => False
  end
  /\ ((Z.abs (sum_of (int_scores results)) < 2 ^ 1023)%Z ->
      exists rep, (aggregate_results results st).1 = Ret rep)
  /\ (NoDup (concat (map violations_of results)) ->
      (aggregate_results results st).2 = (aggregate_results results' st).2).
Proof.
  intros Hperm Hints.
  assert (Hints' : Forall (fun r => ~ has_float_score r) results').
  { eapply Permutation_Forall; eassumption. }
  assert (Hscores : Permutation (int_scores results) (int_scores results')).
  { apply omap_Permutation. exact Hperm. }
  assert (Hviol : Permutation (concat (map violations_of results))
                    (concat (map violations_of results'))).
  { apply concat_Permutation, Permutation_map, Hperm. }
  assert (Hstore : NoDup (concat (map violations_of results)) ->
            (collect results st []).1 = (collect results' st []).1).
  { intros Hnd. apply map_eq. intros l. rewrite !collect_lookup.
    assert (Hnd' : NoDup (concat (map violations_of results'))).
    { rewrite <- Hviol. exact Hnd. }
    destruct (last_owner results l) as [rid|] eqn:Ho.
    + destruct (in_dec Nat.eq_dec l (concat (map violations_of results))) as [Hin | Hnin].
      * apply in_concat in Hin as (vs & Hvs & Hl).
        apply in_map_iff in Hvs as (r & <- & Hr).
        rewrite (last_owner_unique results r l Hnd Hr Hl) in Ho. injection Ho as <-.
        rewrite (last_owner_unique results' r l Hnd'); [reflexivity | | exact Hl].
        eapply Permutation_in; eassumption.
      * apply last_owner_None in Hnin. congruence.
    + apply last_owner_None in Ho.
      assert (Ho' : last_owner results' l = None).
      { apply last_owner_None. intros Hin. apply Ho.
        eapply Permutation_in; [symmetry; exact Hviol | exact Hin]. }
      rewrite Ho'. reflexivity. }
  rewrite !aggregate_results_eq.
  rewrite (valid_scores_without_float results Hints).
  rewrite (valid_scores_without_float results' Hints').
  pose proof (Permutation_length Hperm) as Hlen.
  pose proof (sum_of_Permutation _ _ Hscores) as Hsum.
  pose proof (Permutation_length Hscores) as Hlens.
  destruct results as [|r0 rest], results' as [|r0' rest']; try discriminate Hlen.
  { split; [| split]; [repeat split; constructor | eauto | reflexivity]. }
  destruct (int_scores (r0 :: rest)) as [|z zs] eqn:Hzs;
    destruct (int_scores (r0' :: rest')) as [|z' zs'] eqn:Hzs'; try discriminate Hlens.
  - cbn [average py_round obind fst snd score rules_checked violations].
    split; [| split]; [| eauto | exact Hstore].
    split; [reflexivity |]. split; [exact Hlen | exact Hviol].
  - rewrite !average_of_ints, <- Hsum, <- Hlens.
    destruct (binary64_of (sum_of (z :: zs) # Pos.of_nat (length (z :: zs))))
      as [y|] eqn:Hy.
    + cbn [py_round obind fst snd score rules_checked violations].
      split; [| split]; [| eauto | exact Hstore].
      split; [reflexivity |]. split; [exact Hlen | exact Hviol].
    + cbn [fst snd]. split; [reflexivity |]. split; [| reflexivity].
      intros Hsmall. exfalso.
      destruct (binary64_of_returns (sum_of (z :: zs) # Pos.of_nat (length (z :: zs))))
        as [y Hsome]; [| congruence].
      eapply Qle_trans; [apply Qabs_Qmake_le |].
      rewrite <- (pow2_inject 1023) by lia. rewrite <- Zle_Qle. lia.
Qed.

(** Calling [aggregate_results] a second time on the same results changes
    nothing: the outcome is the same, and the violation objects, already
    stamped by the first call, are left as the first call left them. *)
Theorem aggregate_results_twice (results : list rule_result) (st : store) :
  aggregate_results results (aggregate_results results st).2
  = aggregate_results results st.
Proof.
  rewrite !aggregate_results_eq. destruct results as [|r0 rest]; [reflexivity |].
  destruct (average (omap valid_score (r0 :: rest))) as [avg | e]; [| reflexivity].
  cbn [snd]. rewrite collect_twice. reflexivity.
Qed.

(** ** More on the KeywordFilter *)

Lemma lower_char_idemp (c : ascii) : lower_char (lower_char c) = lower_char c.
Proof.
  unfold lower_char.
  destruct ((65 <=? nat_of_ascii c)%nat && (nat_of_ascii c <=? 90)%nat) eqn:E.
  - apply andb_true_iff in E as [H1 H2].
    apply Nat.leb_le in H1. apply Nat.leb_le in H2.
    rewrite nat_ascii_embedding by lia.
    destruct (Nat.leb_spec (nat_of_ascii c + 32) 90) as [H | H]; [lia |].
    rewrite andb_false_r. reflexivity.
  - rewrite E. reflexivity.
Qed.

Lemma lower_idemp (s : string) : lower (lower s) = lower s.
Proof.
  induction s as [|c s IH]; simpl; [reflexivity |].
  rewrite lower_char_idemp, IH. reflexivity.
Qed.

Lemma filter_sublist_impl {A : Type} (f g : A -> bool) (l : list A) :
  (forall x, f x = true -> g x = true) ->
  sublist (List.filter f l) (List.filter g l).
Proof.
  intros H. induction l as [|x l IH]; simpl; [constructor |].
  destruct (f x) eqn:Ef.
  - rewrite (H x Ef). constructor. exact IH.
  - destruct (g x); [constructor |]; exact IH.
Qed.

Lemma filter_filter_same {A : Type} (f : A -> bool) (l : list A) :
  List.filter f (List.filter f l) = List.filter f l.
Proof.
  induction l as [|x l IH]; simpl; [reflexivity |].
  destruct (f x) eqn:E; simpl; [rewrite E, IH |]; auto.
Qed.

(** How [filter_by_keywords] behaves under changes of its arguments.
    - Filtering a second time with the same keywords changes nothing.
    - Keywords are compared without regard to case: two keyword lists
      that agree after lowercasing select the same files.
    - Files are filtered one by one: the result on [F1 ++ F2] is the
      result on [F1] followed by the result on [F2].
    - Adding keywords to a list that has at least one never removes a
      file (adding one to the empty list can, since the empty list keeps
      everything).
    - An empty string among the keywords matches every path. *)
Theorem filter_by_keywords_algebra (rt : runtime) (F F1 F2 K K' : list string) :
  filter_by_keywords rt (filter_by_keywords rt F K) K = filter_by_keywords rt F K
  /\ (map (str_lower rt) K = map (str_lower rt) K' ->
      filter_by_keywords rt F K = filter_by_keywords rt F K')
  /\ filter_by_keywords rt (F1 ++ F2) K
     = filter_by_keywords rt F1 K ++ filter_by_keywords rt F2 K
  /\ (K <> [] ->
      sublist (filter_by_keywords rt F K) (filter_by_keywords rt F (K ++ K')))
  /\ (In "" K -> filter_by_keywords rt F K = F).
Proof.
  split; [| split; [| split; [| split]]].
  - destruct K as [|k K]; [reflexivity |]. apply filter_filter_same.
  - intros H. destruct K as [|k K], K' as [|k' K']; try discriminate; [reflexivity |].
    unfold filter_by_keywords. rewrite H. reflexivity.
  - destruct K as [|k K]; [reflexivity |]. apply List.filter_app.
  - intros HK. destruct K as [|k K]; [congruence |]. simpl.
    apply filter_sublist_impl. intros p. simpl. rewrite map_app, existsb_app.
    rewrite !orb_true_iff. tauto.
  - intros Hin. destruct K as [|k K]; [destruct Hin |].
    unfold filter_by_keywords.
    rewrite (List.forallb_filter_id) ; [reflexivity |].
    apply forallb_forall. intros p _. apply existsb_exists.
    exists "". split; [| destruct (str_lower rt p); reflexivity].
    change "" with (lower ""). rewrite <- (str_lower_ascii rt "" eq_refl).
    apply in_map. exact Hin.
Qed.

(** ** More on strings: pieces of a split, stripping *)

Lemma is_substring_refl (s : string) : is_substring s s.
Proof. exists "", "". rewrite append_nil_r. reflexivity. Qed.

Lemma is_substring_empty (s : string) : is_substring "" s.
Proof. exists "", s. reflexivity. Qed.

Lemma is_substring_trans (a b c : string) :
  is_substring a b -> is_substring b c -> is_substring a c.
Proof.
  intros [p1 [q1 ->]] [p2 [q2 ->]]. exists (p2 +:+ p1), (q1 +:+ q2).
  rewrite !append_assoc. reflexivity.
Qed.

Lemma is_substring_cons (a s : string) (c : ascii) :
  is_substring a s -> is_substring a (String c s).
Proof. intros [p [q ->]]. exists (String c p), q. reflexivity. Qed.

Lemma contains_substring (sep a b : string) :
  is_substring a b -> contains sep a = true -> contains sep b = true.
Proof.
  intros Hab H. apply contains_spec. apply contains_spec in H.
  eapply is_substring_trans; eassumption.
Qed.

Lemma lstrip_go_suffix (s : string) :
  forall skip, exists l, s = l +:+ lstrip_go skip s.
Proof.
  induction s as [|c s IH]; intros skip.
  - exists "". reflexivity.
  - cbn [lstrip_go]. destruct skip as [|k].
    + destruct (space_at (String c s)) as [|k].
      * exists "". reflexivity.
      * destruct (IH k) as [l Hl]. exists (String c l). exact (f_equal (String c) Hl).
    + destruct (IH k) as [l Hl]. exists (String c l). exact (f_equal (String c) Hl).
Qed.

Lemma lstrip_suffix (s : string) : exists l, s = l +:+ lstrip s.
Proof. apply lstrip_go_suffix. Qed.

Lemma rstrip_prefix (s : string) : exists r, s = rstrip s +:+ r.
Proof.
  induction s as [|c s [r IH]].
  - exists "". reflexivity.
  - cbn [rstrip]. destruct (all_space (String c s)).
    + exists (String c s). reflexivity.
    + exists r. exact (f_equal (String c) IH).
Qed.

Lemma strip_substring (s : string) : is_substring (strip s) s.
Proof.
  unfold strip. destruct (lstrip_suffix s) as [l Hl].
  destruct (rstrip_prefix (lstrip s)) as [r Hr].
  exists l, r. rewrite <- Hr. exact Hl.
Qed.

Lemma has_char_app (c : ascii) (a b : string) :
  has_char c (a +:+ b) = has_char c a || has_char c b.
Proof.
  induction a as [|x a IH]; [reflexivity |].
  change (has_char c (String x a +:+ b)) with (Ascii.eqb x c || has_char c (a +:+ b)).
  rewrite IH. simpl. apply orb_assoc.
Qed.

Lemma has_char_substring (c : ascii) (a b : string) :
  is_substring a b -> has_char c b = false -> has_char c a = false.
Proof.
  intros [p [q ->]]. rewrite !has_char_app, !orb_false_iff. tauto.
Qed.

Section Split.
Variable sep : string.

Lemma split_go_skip (x cur rest : string) :
  split_go sep (String.length x) cur (x +:+ rest) = split_go sep 0 cur rest.
Proof. induction x as [|c x IH]; [reflexivity | exact IH]. Qed.

(** At an occurrence of the separator the current piece ends. *)
Lemma split_go_at_sep (cur rest : string) :
  sep <> "" ->
  split_go sep 0 cur (sep +:+ rest) = cur :: split_go sep 0 "" rest.
Proof.
  intros Hsep. destruct sep as [|c sep'] eqn:E; [congruence |].
  change (String c sep' +:+ rest) with (String c (sep' +:+ rest)).
  cbn [split_go].
  assert (Hs : starts_with (String c sep') (String c (sep' +:+ rest)) = true).
  { apply starts_with_spec. exists rest. reflexivity. }
  rewrite Hs. f_equal.
  replace (String.length (String c sep') - 1)%nat with (String.length sep')
    by (cbn [String.length]; lia).
  rewrite <- E. apply split_go_skip.
Qed.

(** Every piece is a part of the text. *)
Lemma split_go_pieces (s : string) :
  forall (skip : nat) (cur piece : string),
    (skip <> 0%nat -> cur = "") ->
    In piece (split_go sep skip cur s) -> is_substring piece (cur +:+ s).
Proof.
  induction s as [|c s IH]; intros skip cur piece Hskip.
  - simpl. intros [<- | []]. exists "", "". reflexivity.
  - destruct skip as [|k].
    + cbn [split_go]. destruct (starts_with sep (String c s)).
      * intros [<- | H].
        -- exists "", (String c s). reflexivity.
        -- apply (IH _ "" piece (fun _ => eq_refl)) in H.
           eapply is_substring_trans; [exact H |].
           exists (cur +:+ String c ""), "". rewrite append_nil_r, append_assoc. reflexivity.
      * intros H. apply IH in H; [| congruence].
        rewrite append_assoc in H. exact H.
    + cbn [split_go]. rewrite (Hskip ltac:(discriminate)). intros H.
      apply (IH k "" piece (fun _ => eq_refl)) in H. apply is_substring_cons. exact H.
Qed.

Lemma nth_split_substring (k : nat) (s : string) :
  is_substring (nth k (split sep s) "") s.
Proof.
  destruct (nth_in_or_default k (split sep s) "") as [H | ->].
  - apply (split_go_pieces s 0 "" _ (fun H0 => ltac:(congruence))) in H. exact H.
  - apply is_substring_empty.
Qed.

(** The first piece: a prefix of the text in which the separator starts
    nowhere. *)
Lemma split_go_head (s : string) :
  forall cur : string,
    exists p0 t rest,
      split_go sep 0 cur s = (cur +:+ p0) :: rest
      /\ s = p0 +:+ t
      /\ (forall a b, p0 = a +:+ b -> b <> "" -> starts_with sep (b +:+ t) = false).
Proof.
  induction s as [|c s IH]; intros cur.
  - exists "", "", []. rewrite append_nil_r. split; [reflexivity |]. split; [reflexivity |].
    intros [|x a] b H Hb; [change ("" = b) in H; congruence | discriminate].
  - cbn [split_go]. destruct (starts_with sep (String c s)) eqn:E.
    + eexists "", (String c s), _. rewrite append_nil_r.
      split; [reflexivity |]. split; [reflexivity |].
      intros [|x a] b H Hb; [change ("" = b) in H; congruence | discriminate].
    + destruct (IH (cur +:+ String c "")) as (p0 & t & rest & Hgo & -> & Hinv).
      exists (String c p0), t, rest. rewrite Hgo, append_assoc.
      split; [reflexivity |]. split; [reflexivity |].
      intros [|x a] b H Hb.
      * change (String c p0 = b) in H. subst b. exact E.
      * injection H as -> ->. apply (Hinv a b); [reflexivity | exact Hb].
Qed.

Lemma split_first_no_sep (s : string) :
  sep <> "" -> contains sep (nth 0 (split sep s) "") = false.
Proof.
  intros Hsep. unfold split.
  destruct (split_go_head s "") as (p0 & t & rest & -> & _ & Hinv).
  change (contains sep p0 = false).
  destruct (contains sep p0) eqn:E; [| reflexivity].
  apply contains_spec in E as [pre [post ->]].
  assert (Ht : starts_with sep ((sep +:+ post) +:+ t) = true).
  { apply starts_with_spec. exists (post +:+ t). apply append_assoc. }
  rewrite (Hinv pre (sep +:+ post) eq_refl) in Ht; [discriminate |].
  destruct sep; [congruence | discriminate].
Qed.

End Split.

(** A stretch without the first character of the separator is passed
    over. *)
Lemma split_go_through (c0 : ascii) (sep' u : string) :
  forall cur s : string,
    has_char c0 u = false ->
    split_go (String c0 sep') 0 cur (u +:+ s) = split_go (String c0 sep') 0 (cur +:+ u) s.
Proof.
  induction u as [|a u IH]; intros cur s Hu.
  - rewrite append_nil_r. reflexivity.
  - simpl in Hu. apply orb_false_iff in Hu as [Ha Hu].
    change (String a u +:+ s) with (String a (u +:+ s)). cbn [split_go starts_with].
    rewrite Ascii.eqb_sym, Ha. cbn [andb].
    rewrite IH by exact Hu. rewrite append_assoc. reflexivity.
Qed.

Lemma has_char_no_fence (s : string) :
  has_char "`" s = false -> contains "```" s = false.
Proof.
  intros H. destruct (contains "```" s) eqn:E; [| reflexivity].
  apply contains_spec in E as [pre [post ->]].
  rewrite has_char_app in H. apply orb_false_iff in H as [_ H]. discriminate.
Qed.

Lemma json_fence_is_fence (s : string) :
  contains "```json" s = true -> contains "```" s = true.
Proof.
  intros H. apply contains_spec in H as [pre [post ->]]. apply contains_spec.
  exists pre, ("json" +:+ post). reflexivity.
Qed.

Lemma remove_code_fences_plain (s : string) :
  contains "```" s = false -> remove_code_fences s = s.
Proof.
  intros H. unfold remove_code_fences. rewrite H.
  destruct (contains "```json" s) eqn:E; [| reflexivity].
  apply json_fence_is_fence in E. congruence.
Qed.

(** What the removal of code fences hands to [json.loads]: a part of the
    reply in which no fence marker is left. A reply without fence marker
    is handed on as it is. *)
Theorem remove_code_fences_result (cleaned : string) :
  contains "```" (remove_code_fences cleaned) = false
  /\ is_substring (remove_code_fences cleaned) cleaned
  /\ (contains "```" cleaned = false -> remove_code_fences cleaned = cleaned).
Proof.
  assert (Hpiece : forall x,
            contains "```" (strip (nth 0 (split "```" x) "")) = false
            /\ is_substring (strip (nth 0 (split "```" x) "")) x).
  { intros x. split.
    - destruct (contains "```" (strip _)) eqn:E; [| reflexivity].
      apply (contains_substring _ _ _ (strip_substring _)) in E.
      rewrite split_first_no_sep in E; [discriminate E | discriminate].
    - eapply is_substring_trans; [apply strip_substring | apply nth_split_substring]. }
  unfold remove_code_fences.
  destruct (contains "```json" cleaned) eqn:Ej.
  - destruct (Hpiece (nth 1 (split "```json" cleaned) "")) as [H1 H2].
    split; [exact H1 |]. split.
    + eapply is_substring_trans; [exact H2 | apply nth_split_substring].
    + intros H. apply json_fence_is_fence in Ej. congruence.
  - destruct (contains "```" cleaned) eqn:E.
    + destruct (Hpiece (nth 1 (split "```" cleaned) "")) as [H1 H2].
      split; [exact H1 |]. split; [| discriminate].
      eapply is_substring_trans; [exact H2 | apply nth_split_substring].
    + split; [exact E |]. split; [apply is_substring_refl | reflexivity].
Qed.

(** A white space character lies within the text it starts. *)
Lemma space_at_length (s : string) : (space_at s <= String.length s)%nat.
Proof.
  destruct s as [|a [|b [|c s]]]; cbn [space_at String.length]; [lia | | |].
  - destruct (is_space a); lia.
  - destruct (is_space a); [lia |].
    destruct (nat_of_ascii a =? 194)%nat; [| lia].
    destruct ((nat_of_ascii b =? 133)%nat || (nat_of_ascii b =? 160)%nat); lia.
  - destruct (is_space a); [lia |].
    destruct (nat_of_ascii a =? 194)%nat.
    + destruct ((nat_of_ascii b =? 133)%nat || (nat_of_ascii b =? 160)%nat); lia.
    + repeat match goal with
             | |- context [if ?b then _ else _] => destruct b
             end; lia.
Qed.

(** A graphic character of ASCII starts no white space and completes
    none. *)
Lemma is_graphic_code (c : ascii) :
  is_graphic c = true -> is_space c = false /\ (nat_of_ascii c < 128)%nat.
Proof.
  unfold is_graphic, is_ascii_char. rewrite andb_true_iff, negb_true_iff, Nat.ltb_lt.
  tauto.
Qed.

Lemma space_at_graphic (c : ascii) (x : string) :
  is_graphic c = true -> space_at (String c x) = 0%nat.
Proof.
  intros H. apply is_graphic_code in H as [Hs Hc]. cbn [space_at]. rewrite Hs.
  destruct x as [|b [|d x]]; [reflexivity | |].
  - destruct (Nat.eqb_spec (nat_of_ascii c) 194); [lia | reflexivity].
  - destruct (Nat.eqb_spec (nat_of_ascii c) 194); [lia |].
    destruct (Nat.eqb_spec (nat_of_ascii c) 225); [lia |].
    destruct (Nat.eqb_spec (nat_of_ascii c) 226); [lia |].
    destruct (Nat.eqb_spec (nat_of_ascii c) 227); [lia | reflexivity].
Qed.

Lemma space_at_before_graphic (u x : string) (c : ascii) :
  u <> "" -> is_graphic c = true -> space_at (u +:+ String c x) = space_at u.
Proof.
  intros Hu H. apply is_graphic_code in H as [_ Hc].
  destruct u as [|a [|b [|d u]]]; [congruence | | | reflexivity].
  - change (String a "" +:+ String c x) with (String a (String c x)).
    cbn [space_at]. destruct (is_space a); [reflexivity |].
    destruct (nat_of_ascii a =? 194)%nat.
    + destruct (Nat.eqb_spec (nat_of_ascii c) 133); [lia |].
      destruct (Nat.eqb_spec (nat_of_ascii c) 160); [lia | reflexivity].
    + destruct x as [|d x]; [reflexivity |].
      destruct (Nat.eqb_spec (nat_of_ascii c) 154); [lia |].
      destruct (Nat.eqb_spec (nat_of_ascii c) 128); [lia |].
      destruct (Nat.eqb_spec (nat_of_ascii c) 129); [lia |].
      rewrite !andb_false_r. reflexivity.
  - change (String a (String b "") +:+ String c x)
      with (String a (String b (String c x))).
    cbn [space_at]. destruct (is_space a); [reflexivity |].
    destruct (nat_of_ascii a =? 194)%nat; [reflexivity |].
    destruct (Nat.eqb_spec (nat_of_ascii c) 128); [lia |].
    destruct (Nat.eqb_spec (nat_of_ascii c) 159); [lia |].
    destruct (Nat.leb_spec 128 (nat_of_ascii c)); [lia |].
    destruct (Nat.eqb_spec (nat_of_ascii c) 168); [lia |].
    destruct (Nat.eqb_spec (nat_of_ascii c) 169); [lia |].
    destruct (Nat.eqb_spec (nat_of_ascii c) 175); [lia |].
    rewrite !andb_false_r. reflexivity.
Qed.

Lemma lstrip_go_app (pre x' : string) (c : ascii) :
  is_graphic c = true ->
  forall skip, (skip <= String.length pre)%nat ->
    lstrip_go skip (pre +:+ String c x') = lstrip_go skip pre +:+ String c x'.
Proof.
  intros Hc. induction pre as [|a pre IH]; intros skip Hskip.
  - cbn [String.length] in Hskip. replace skip with 0%nat by lia.
    change ("" +:+ String c x') with (String c x'). cbn [lstrip_go].
    rewrite (space_at_graphic c x' Hc). reflexivity.
  - cbn [String.length] in Hskip.
    change (String a pre +:+ String c x') with (String a (pre +:+ String c x')).
    cbn [lstrip_go]. destruct skip as [|k]; [| apply IH; lia].
    change (String a (pre +:+ String c x')) with (String a pre +:+ String c x').
    rewrite (space_at_before_graphic (String a pre) x' c) by (discriminate || exact Hc).
    pose proof (space_at_length (String a pre)) as Hlen. cbn [String.length] in Hlen.
    destruct (space_at (String a pre)) as [|k]; [reflexivity |]. apply IH. lia.
Qed.

Lemma lstrip_app (pre x' : string) (c : ascii) :
  is_graphic c = true -> lstrip (pre +:+ String c x') = lstrip pre +:+ String c x'.
Proof. intros Hc. apply lstrip_go_app; [exact Hc | lia]. Qed.

Lemma all_space_go_before_graphic (y z : string) (c : ascii) :
  is_graphic c = true ->
  forall skip, (skip <= String.length y)%nat ->
    all_space_go skip (y +:+ String c z) = false.
Proof.
  intros Hc. induction y as [|a y IH]; intros skip Hskip.
  - cbn [String.length] in Hskip. replace skip with 0%nat by lia.
    change ("" +:+ String c z) with (String c z). cbn [all_space_go].
    rewrite (space_at_graphic c z Hc). reflexivity.
  - cbn [String.length] in Hskip.
    change (String a y +:+ String c z) with (String a (y +:+ String c z)).
    cbn [all_space_go]. destruct skip as [|k]; [| apply IH; lia].
    change (String a (y +:+ String c z)) with (String a y +:+ String c z).
    rewrite (space_at_before_graphic (String a y) z c) by (discriminate || exact Hc).
    pose proof (space_at_length (String a y)) as Hlen. cbn [String.length] in Hlen.
    destruct (space_at (String a y)) as [|k]; [reflexivity |]. apply IH. lia.
Qed.

Lemma rstrip_cons_graphic (c : ascii) (s : string) :
  is_graphic c = true -> rstrip (String c s) = String c (rstrip s).
Proof.
  intros H. cbn [rstrip]. unfold all_space. cbn [all_space_go].
  rewrite (space_at_graphic c s H). reflexivity.
Qed.

(** What stands before a graphic character is not stripped from the
    right. *)
Lemma rstrip_app (y z : string) (c : ascii) :
  is_graphic c = true -> rstrip (y +:+ String c z) = y +:+ rstrip (String c z).
Proof.
  intros Hc. induction y as [|a y IH]; [reflexivity |].
  change (String a y +:+ String c z) with (String a (y +:+ String c z)).
  change (String a y +:+ rstrip (String c z)) with (String a (y +:+ rstrip (String c z))).
  cbn [rstrip]. unfold all_space.
  change (String a (y +:+ String c z)) with (String a y +:+ String c z).
  rewrite (all_space_go_before_graphic (String a y) z c Hc 0) by lia.
  rewrite IH. reflexivity.
Qed.

(** Stripping a reply that holds a fence strips what is before the
    opening fence and what is after the closing fence. *)
Lemma strip_around_fences (pre fence body post : string) (c : ascii) :
  is_graphic c = true ->
  strip (pre +:+ String c fence +:+ body +:+ "```" +:+ post)
  = lstrip pre +:+ String c fence +:+ body +:+ "```" +:+ rstrip post.
Proof.
  intros Hc. unfold strip.
  change (String c fence +:+ body +:+ "```" +:+ post)
    with (String c (fence +:+ body +:+ "```" +:+ post)).
  rewrite lstrip_app by exact Hc.
  change (String c (fence +:+ body +:+ "```" +:+ post))
    with (String c fence +:+ body +:+ "```" +:+ post).
  assert (Hend : rstrip ("```" +:+ post) = "```" +:+ rstrip post).
  { change ("```" +:+ post) with (String "`" (String "`" (String "`" post))).
    rewrite !rstrip_cons_graphic by reflexivity. reflexivity. }
  transitivity (rstrip ((lstrip pre +:+ String c fence +:+ body)
                        +:+ String "`" ("``" +:+ post))).
  { rewrite !append_assoc. reflexivity. }
  rewrite rstrip_app by reflexivity.
  change (String "`" ("``" +:+ post)) with ("```" +:+ post).
  rewrite Hend, !append_assoc. reflexivity.
Qed.

Lemma starts_with_cons (a b : ascii) (p s : string) :
  starts_with (String a p) (String b s) = Ascii.eqb a b && starts_with p s.
Proof. reflexivity. Qed.

Lemma split_go_step (sep cur s : string) (c : ascii) :
  starts_with sep (String c s) = false ->
  split_go sep 0 cur (String c s) = split_go sep 0 (cur +:+ String c "") s.
Proof. intros H. cbn [split_go]. rewrite H. reflexivity. Qed.

(** The closing fence seen from the split at the opening json fence: the
    piece ends before it, unless the fence is not followed by "json", in
    which case the piece runs on through it. *)
Lemma split_json_at_closing_fence (cur post : string) :
  starts_with "`" post = false ->
  exists x rest,
    split_go "```json" 0 cur ("```" +:+ post) = (cur +:+ x) :: rest
    /\ (x = "" \/ exists y, x = "```" +:+ y).
Proof.
  intros Hpost.
  assert (Hfirst : forall x, starts_with (String "`" x) post = false).
  { intros x. destruct post as [|a p]; [reflexivity |].
    cbn [starts_with] in Hpost |- *.
    destruct (Ascii.eqb "`" a); [discriminate Hpost | reflexivity]. }
  change ("```" +:+ post) with (String "`" (String "`" (String "`" post))).
  destruct (starts_with "```json" (String "`" (String "`" (String "`" post)))) eqn:E1.
  - cbn [split_go]. rewrite E1. eexists "", _. rewrite append_nil_r. auto.
  - rewrite split_go_step by exact E1.
    rewrite split_go_step
      by (rewrite !starts_with_cons, Hfirst, !andb_false_r; reflexivity).
    rewrite split_go_step
      by (rewrite !starts_with_cons, Hfirst, !andb_false_r; reflexivity).
    destruct (split_go_head "```json" post (((cur +:+ "`") +:+ "`") +:+ "`"))
      as (p0 & t & rest & -> & _ & _).
    exists ("```" +:+ p0), rest. split; [| eauto].
    rewrite !append_assoc. reflexivity.
Qed.

(** The first piece of a text that starts with a backtick-free body,
    followed by nothing or by a fence. *)
Lemma split_fence_body (body x : string) :
  has_char "`" body = false ->
  x = "" \/ (exists y, x = "```" +:+ y) ->
  nth 0 (split "```" (body +:+ x)) "" = body.
Proof.
  intros Hbody Hx. unfold split. rewrite split_go_through by exact Hbody.
  change ("" +:+ body) with body. destruct Hx as [-> | [y ->]].
  - reflexivity.
  - rewrite split_go_at_sep by discriminate. reflexivity.
Qed.

Lemma json_fence_body (pre body post : string) :
  has_char "`" pre = false -> has_char "`" body = false ->
  starts_with "`" post = false ->
  remove_code_fences (pre +:+ "```json" +:+ body +:+ "```" +:+ post) = strip body.
Proof.
  intros Hpre Hbody Hpost. unfold remove_code_fences.
  assert (Hj : contains "```json" (pre +:+ "```json" +:+ body +:+ "```" +:+ post) = true).
  { apply contains_spec. exists pre, (body +:+ "```" +:+ post). reflexivity. }
  rewrite Hj. f_equal.
  unfold split at 2. rewrite split_go_through by exact Hpre.
  rewrite split_go_at_sep by discriminate. cbn [nth].
  rewrite split_go_through by exact Hbody. change ("" +:+ body) with body.
  destruct (split_json_at_closing_fence body post Hpost) as (x & rest & -> & Hx).
  cbn [nth]. apply split_fence_body; assumption.
Qed.

Lemma generic_fence_body (pre body post : string) :
  has_char "`" pre = false -> has_char "`" body = false ->
  contains "```json" (pre +:+ "```" +:+ body +:+ "```" +:+ post) = false ->
  remove_code_fences (pre +:+ "```" +:+ body +:+ "```" +:+ post) = strip body.
Proof.
  intros Hpre Hbody Hj. unfold remove_code_fences. rewrite Hj.
  assert (Hf : contains "```" (pre +:+ "```" +:+ body +:+ "```" +:+ post) = true).
  { apply contains_spec. exists pre, (body +:+ "```" +:+ post). reflexivity. }
  rewrite Hf. f_equal.
  unfold split at 2. rewrite split_go_through by exact Hpre.
  rewrite split_go_at_sep by discriminate. cbn [nth].
  change (split_go "```" 0 "" (body +:+ "```" +:+ post))
    with (split "```" (body +:+ "```" +:+ post)).
  rewrite (split_fence_body body ("```" +:+ post)) by eauto.
  pose proof (split_fence_body body "" Hbody (or_introl eq_refl)) as H.
  rewrite append_nil_r in H. exact H.
Qed.

Section FencedReplies.
Context (rt : runtime).

(** A reply of the form: prose, an opening json fence, a body, a closing
    fence, prose (no backtick in the prose before nor in the body, none
    right after the closing fence) is read as its body. The text handed
    to [json.loads] is the stripped body, both file-list parsers return
    what they return on the body alone, and so does
    [parse_json_response] whenever the body alone parses. The same holds
    for a plain fence, provided the reply holds no json fence. *)
Theorem fenced_reply_is_read_as_its_body (pre body post : string)
    (available_files : list string) :
  has_char "`" pre = false -> has_char "`" body = false ->
  starts_with "`" post = false ->
  let reply := pre +:+ "```json" +:+ body +:+ "```" +:+ post in
  let plain := pre +:+ "```" +:+ body +:+ "```" +:+ post in
  remove_code_fences (strip reply) = strip body
  /\ remove_code_fences (strip body) = strip body
  /\ parse_llm_file_selection rt reply available_files
     = parse_llm_file_selection rt body available_files
  /\ parse_file_selection_response rt reply available_files
     = parse_file_selection_response rt body available_files
  /\ (forall result, parse_json_response rt body = Ret result ->
                     parse_json_response rt reply = Ret result)
  /\ (contains "```json" plain = false ->
      remove_code_fences (strip plain) = strip body).
Proof.
  intros Hpre Hbody Hpost reply plain.
  assert (Hpre' : has_char "`" (lstrip pre) = false).
  { apply (has_char_substring _ _ pre); [| exact Hpre].
    destruct (lstrip_suffix pre) as [l Hl]. exists l, "".
    rewrite append_nil_r. exact Hl. }
  assert (Hpost' : starts_with "`" (rstrip post) = false).
  { destruct post as [|a p]; [reflexivity |].
    rewrite starts_with_cons in Hpost.
    apply andb_false_iff in Hpost as [Ha | Hp]; [| discriminate Hp].
    cbn [rstrip]. destruct (all_space (String a p)); [reflexivity |].
    rewrite starts_with_cons, Ha. reflexivity. }
  assert (Hreply : remove_code_fences (strip reply) = strip body).
  { unfold reply.
    change ("```json" +:+ body +:+ "```" +:+ post)
      with (String "`" "``json" +:+ body +:+ "```" +:+ post).
    rewrite strip_around_fences by reflexivity.
    apply json_fence_body; assumption. }
  assert (Hself : remove_code_fences (strip body) = strip body).
  { apply remove_code_fences_plain. apply has_char_no_fence.
    apply (has_char_substring _ _ body); [apply strip_substring | exact Hbody]. }
  split; [exact Hreply |]. split; [exact Hself |].
  rewrite !parse_json_response_cases.
  unfold parse_llm_file_selection, parse_file_selection_response.
  rewrite Hreply, Hself.
  split; [reflexivity |]. split; [reflexivity |]. split.
  - intros result.
    destruct (json_loads rt (strip body)) as [v|e]; [auto |].
    destruct (is_json_decode_error e); [| discriminate].
    destruct (search_braces (strip body)) as [span|]; [| discriminate].
    destruct (json_loads rt span) as [v|e']; [auto |].
    destruct (is_json_decode_error e'); discriminate.
  - intros Hj. unfold plain.
    change ("```" +:+ body +:+ "```" +:+ post)
      with (String "`" "``" +:+ body +:+ "```" +:+ post).
    rewrite strip_around_fences by reflexivity.
    apply generic_fence_body; [exact Hpre' | exact Hbody |].
    apply not_true_is_false. intros E.
    apply (contains_substring _ _ plain) in E; [congruence |].
    destruct (lstrip_suffix pre) as [l Hl]. destruct (rstrip_prefix post) as [r Hr].
    exists l, r. unfold plain. rewrite Hl at 1. rewrite Hr at 1.
    rewrite !append_assoc. reflexivity.
Qed.

End FencedReplies.

(** ** select_files_for_rule and the selection of analyze_rule *)

Lemma filter_by_keywords_value_sublist (rt : runtime) (files : list string)
    (keywords : pyval) (filtered : list string) :
  filter_by_keywords_value rt files keywords = Ret filtered -> sublist filtered files.
Proof.
  unfold filter_by_keywords_value, obind.
  destruct (truthy keywords).
  - destruct (keyword_items keywords) as [ks | e]; [| discriminate].
    intros [= <-]. unfold filter_by_keywords. destruct ks; [reflexivity |].
    apply filter_sublist_of.
  - intros [= <-]. reflexivity.
Qed.

Section SelectFilesForRule.
Context (rt : runtime) (env : environment).

(** [select_files_for_rule] on the listing of a repository, against the
    selection that [analyze_rule] makes on the same repository.
    - The result has the two keys code_files and doc_files; its code
      files are a subsequence of the code files of the repository, its
      documents are all documents or none.
    - When it raises, [analyze_rule]'s selection raises the same
      exception, before any call to the provider.
    - When its code files are at most three, [analyze_rule] selects
      exactly its code files followed by its documents, without a call.
    - In every case [analyze_rule] selects at most three of its code
      files, followed by its documents.
    The two unused arguments have no influence. *)
Theorem select_files_for_rule_and_analyze_rule (rule : dict pyval) (repo : repository)
    (max_code_files : Z) (llm_client : option client) (c : client) (w : world) :
  match select_files_for_rule rt
          [("code_files", code_files repo); ("doc_files", doc_files repo)]
          rule max_code_files llm_client with
  | Raise e => select_files rt env rule repo c w = (Raise e, w)
  | Ret result =>
      exists code docs,
        result = [("code_files", code); ("doc_files", docs)]
        /\ sublist code (code_files repo)
        /\ (docs = doc_files repo \/ docs = [])
        /\ ((length code <= 3)%nat ->
            select_files rt env rule repo c w = (Ret (code ++ docs), w))
        /\ (forall selected w1,
              select_files rt env rule repo c w = (Ret selected, w1) ->
              exists picked,
                selected = picked ++ docs
                /\ (length picked <= 3)%nat
                /\ (forall f, In f picked -> In f code))
  end.
Proof.
  unfold select_files_for_rule, select_files, bind, lift, ret.
  set (check_type := dict_get_or "check_type" (PStr "both") rule).
  set (docs := if in_strs check_type ["document"; "both"] then doc_files repo else []).
  assert (Hresult : (if in_strs check_type ["document"; "both"]
                     then dict_set "doc_files"
                            (dict_get_or "doc_files" []
                               [("code_files", code_files repo); ("doc_files", doc_files repo)])
                            [("code_files", []); ("doc_files", [])]
                     else [("code_files", []); ("doc_files", [])])
                    = [("code_files", []); ("doc_files", docs)]).
  { unfold docs. destruct (in_strs check_type ["document"; "both"]); reflexivity. }
  rewrite Hresult. clear Hresult.
  assert (Hdocs : docs = doc_files repo \/ docs = []).
  { unfold docs. destruct (in_strs check_type ["document"; "both"]); auto. }
  assert (Hnone : forall w0 : world,
            exists code docs0,
              [("code_files", []); ("doc_files", docs)]
              = [("code_files", code); ("doc_files", docs0)]
              /\ sublist code (code_files repo)
              /\ (docs0 = doc_files repo \/ docs0 = [])
              /\ ((length code <= 3)%nat ->
                  (Ret ([] ++ docs) : outcome (list string), w) = (Ret (code ++ docs0), w))
              /\ (forall selected w1,
                    (Ret ([] ++ docs) : outcome (list string), w) = (Ret selected, w1) ->
                    exists picked,
                      selected = picked ++ docs0
                      /\ (length picked <= 3)%nat
                      /\ (forall f, In f picked -> In f code))).
  { intros _. exists [], docs. split; [reflexivity |].
    split; [apply sublist_nil_l |]. split; [exact Hdocs |]. split; [reflexivity |].
    intros selected w1 [= <- _]. exists []. split; [reflexivity |].
    split; [simpl; lia | intros f []]. }
  destruct (in_strs check_type ["code"; "both"]); [| apply (Hnone w)].
  change (dict_get_or "code_files" []
            [("code_files", code_files repo); ("doc_files", doc_files repo)])
    with (code_files repo).
  destruct (py_get (dict_get_or "code_checks" (PDict []) rule) "enabled" (PBool false))
    as [enabled | e]; [| reflexivity].
  cbn [obind]. destruct (truthy enabled); [| apply (Hnone w)].
  destruct (py_get (dict_get_or "code_checks" (PDict []) rule) "file_keywords" (PList []))
    as [keywords | e]; [| reflexivity].
  cbn [obind].
  destruct (filter_by_keywords_value rt (code_files repo) keywords) as [filtered | e] eqn:Hf;
    [| reflexivity].
  cbn [obind].
  change (dict_set "code_files" filtered [("code_files", []); ("doc_files", docs)])
    with [("code_files", filtered); ("doc_files", docs)].
  exists filtered, docs. split; [reflexivity |].
  split; [exact (filter_by_keywords_value_sublist _ _ _ _ Hf) |].
  split; [exact Hdocs |]. split.
  - intros Hlen. destruct filtered as [|f0 fs]; [reflexivity |].
    cbn [length Nat.eqb negb]. unfold select_best_files.
    destruct (Z.leb_spec (Z.of_nat (length (f0 :: fs))) 3) as [_ | Hgt];
      [reflexivity | simpl in Hlen, Hgt; lia].
  - intros selected w1.
    destruct (negb (length filtered =? 0)%nat).
    + destruct (select_best_files rt env filtered rule 3 (Some c) w)
        as [[picked | e] w'] eqn:Hs; [| discriminate].
      intros [= <- _].
      destruct (select_best_files_bounds rt env _ _ _ _ _ _ _ Hs) as [Hin Hlen].
      exists picked. split; [reflexivity |]. split; [lia | exact Hin].
    + intros [= <- _]. exists []. split; [reflexivity |].
      split; [simpl; lia | intros f []].
Qed.

End SelectFilesForRule.

(** ** get_all_files *)

Lemma traverse_repository_spec (repo_parts : list string) (paths : list dir_entry) :
  forall code_files doc_files : list string,
    traverse_repository repo_parts paths code_files doc_files
    = (code_files ++ map relative_path (List.filter (listed_as_code repo_parts) paths),
       doc_files ++ map relative_path (List.filter (listed_as_doc repo_parts) paths)).
Proof.
  induction paths as [|p rest IH]; intros code docs.
  - simpl. rewrite !app_nil_r. reflexivity.
  - cbn [traverse_repository List.filter]. unfold listed_as_code, listed_as_doc.
    destruct (is_file p); cbn [negb andb]; [| apply IH].
    destruct (is_excluded (repo_parts ++ parts_below p)); cbn [negb andb]; [apply IH |].
    destruct (in_set (extension repo_parts p) CODE_EXTENSIONS); cbn [negb andb].
    + rewrite IH. cbn [map]. rewrite <- app_assoc. reflexivity.
    + destruct (in_set (extension repo_parts p) DOC_EXTENSIONS).
      * rewrite IH. cbn [map]. rewrite <- app_assoc. reflexivity.
      * apply IH.
Qed.

Lemma get_all_files_spec (repo_parts : list string) (paths : list dir_entry) :
  get_all_files repo_parts paths
  = [ ("code_files",
        sorted (map relative_path (List.filter (listed_as_code repo_parts) paths)));
      ("doc_files",
        sorted (map relative_path (List.filter (listed_as_doc repo_parts) paths))) ].
Proof. unfold get_all_files. rewrite traverse_repository_spec. reflexivity. Qed.

Lemma doc_extension_is_no_code_extension (x : string) :
  in_set x DOC_EXTENSIONS = true -> in_set x CODE_EXTENSIONS = false.
Proof.
  unfold in_set. intros H. apply existsb_exists in H as [y [Hy Hxy]].
  apply String.eqb_eq in Hxy. subst y.
  repeat (destruct Hy as [<- | Hy]; [reflexivity |]). destruct Hy.
Qed.

Lemma sorted_In (l : list string) (x : string) : In x (sorted l) <-> In x l.
Proof.
  unfold sorted. split; apply Permutation_in;
    [| symmetry]; apply merge_sort_Permutation.
Qed.

Lemma sorted_Permutation (l l' : list string) :
  Permutation l l' -> sorted l = sorted l'.
Proof.
  intros H. unfold sorted. apply (StronglySorted_unique String.le).
  - apply StronglySorted_merge_sort; apply _.
  - apply StronglySorted_merge_sort; apply _.
  - rewrite !merge_sort_Permutation. exact H.
Qed.

Lemma filter_Permutation {A : Type} (f : A -> bool) (l l' : list A) :
  Permutation l l' -> Permutation (List.filter f l) (List.filter f l').
Proof.
  induction 1 as [| x l l' _ IH | x y l | l l' l'' _ IH1 _ IH2]; simpl.
  - reflexivity.
  - destruct (f x); [constructor |]; exact IH.
  - destruct (f x), (f y); try reflexivity. constructor.
  - etransitivity; eassumption.
Qed.

Lemma filter_pair_length {A : Type} (f g h : A -> bool) (l : list A) :
  (forall x, f x = true -> h x = true /\ g x = false) ->
  (forall x, g x = true -> h x = true) ->
  (length (List.filter f l) + length (List.filter g l) <= length (List.filter h l))%nat.
Proof.
  intros Hf Hg. induction l as [|x l IH]; simpl; [lia |].
  destruct (f x) eqn:Ef.
  - destruct (Hf x Ef) as [-> ->]. simpl. lia.
  - destruct (g x) eqn:Eg.
    + rewrite (Hg x Eg). simpl. lia.
    + destruct (h x); simpl; lia.
Qed.

(** The listing of [get_all_files]. It has the two keys code_files and
    doc_files, each list is in ascending order, and a path is listed
    exactly when the traversal yields a regular file with that relative
    path, no component of whose full path is an excluded directory name,
    and whose lowercased suffix is a code extension (for code_files) or a
    documentation extension (for doc_files). No file is counted twice. *)
Theorem get_all_files_lists (repo_parts : list string) (paths : list dir_entry) :
  exists code docs,
    get_all_files repo_parts paths = [("code_files", code); ("doc_files", docs)]
    /\ StronglySorted String.le code
    /\ StronglySorted String.le docs
    /\ (forall f, In f code <->
          exists p, In p paths /\ is_file p = true
                    /\ is_excluded (repo_parts ++ parts_below p) = false
                    /\ in_set (extension repo_parts p) CODE_EXTENSIONS = true
                    /\ relative_path p = f)
    /\ (forall f, In f docs <->
          exists p, In p paths /\ is_file p = true
                    /\ is_excluded (repo_parts ++ parts_below p) = false
                    /\ in_set (extension repo_parts p) DOC_EXTENSIONS = true
                    /\ relative_path p = f)
    /\ (length code + length docs <= length (List.filter is_file paths))%nat.
Proof.
  rewrite get_all_files_spec. eexists _, _. split; [reflexivity |].
  split; [apply StronglySorted_merge_sort; apply _ |].
  split; [apply StronglySorted_merge_sort; apply _ |].
  split; [| split].
  - intros f. rewrite sorted_In, in_map_iff. split.
    + intros (p & <- & Hp). apply List.filter_In in Hp as [Hin Hp].
      unfold listed_as_code in Hp. rewrite !andb_true_iff, negb_true_iff in Hp.
      exists p. tauto.
    + intros (p & Hin & H1 & H2 & H3 & <-). exists p. split; [reflexivity |].
      apply List.filter_In. split; [exact Hin |].
      unfold listed_as_code. rewrite H1, H2, H3. reflexivity.
  - intros f. rewrite sorted_In, in_map_iff. split.
    + intros (p & <- & Hp). apply List.filter_In in Hp as [Hin Hp].
      unfold listed_as_doc in Hp. rewrite !andb_true_iff, negb_true_iff in Hp.
      exists p. tauto.
    + intros (p & Hin & H1 & H2 & H3 & <-). exists p. split; [reflexivity |].
      apply List.filter_In. split; [exact Hin |].
      unfold listed_as_doc.
      rewrite H1, H2, H3, (doc_extension_is_no_code_extension _ H3). reflexivity.
  - unfold sorted.
    rewrite !(Permutation_length (merge_sort_Permutation _ _)), !length_map.
    apply filter_pair_length.
    + intros p. unfold listed_as_code, listed_as_doc.
      rewrite !andb_true_iff. intros [[-> _] ->]. split; [reflexivity |].
      rewrite andb_false_r. reflexivity.
    + intros p. unfold listed_as_doc. rewrite !andb_true_iff. tauto.
Qed.

(** The listing does not depend on the order in which the traversal
    yields the paths. *)
Theorem get_all_files_traversal_order (repo_parts : list string)
    (paths paths' : list dir_entry) :
  Permutation paths paths' ->
  get_all_files repo_parts paths = get_all_files repo_parts paths'.
Proof.
  intros H. rewrite !get_all_files_spec.
  rewrite (sorted_Permutation _ _
             (Permutation_map relative_path
                (filter_Permutation (listed_as_code repo_parts) _ _ H))).
  rewrite (sorted_Permutation _ _
             (Permutation_map relative_path
                (filter_Permutation (listed_as_doc repo_parts) _ _ H))).
  reflexivity.
Qed.

(** ** The directory name of a clone *)

Lemma split_go_nonempty (sep : string) (s : string) :
  forall (skip : nat) (cur : string), split_go sep skip cur s <> [].
Proof.
  induction s as [|a s IH]; intros skip cur; [discriminate |].
  cbn [split_go]. destruct skip; [| apply IH].
  destruct (starts_with sep (String a s)); [discriminate | apply IH].
Qed.

(** Without an occurrence of the separator there is one piece. *)
Lemma split_go_whole (sep s : string) :
  forall cur : string, contains sep s = false -> split_go sep 0 cur s = [cur +:+ s].
Proof.
  induction s as [|a s IH]; intros cur H.
  - rewrite append_nil_r. reflexivity.
  - cbn [contains] in H. apply orb_false_iff in H as [Hs Hc].
    rewrite split_go_step by exact Hs. rewrite IH by exact Hc.
    rewrite append_assoc. reflexivity.
Qed.

Lemma has_char_contains (c : ascii) (s : string) :
  has_char c s = false -> contains (String c "") s = false.
Proof.
  intros H. apply not_true_is_false. intros E.
  apply contains_spec in E as [pre [post ->]].
  rewrite has_char_app in H. apply orb_false_iff in H as [_ H].
  change (Ascii.eqb c c || has_char c post = false) in H.
  rewrite Ascii.eqb_refl in H. discriminate H.
Qed.

(** The pieces of a split at one character do not hold that character. *)
Lemma split_char_pieces (c : ascii) (s : string) :
  forall cur : string,
    has_char c cur = false ->
    Forall (fun piece => has_char c piece = false) (split_go (String c "") 0 cur s).
Proof.
  induction s as [|a s IH]; intros cur Hcur.
  - repeat constructor. exact Hcur.
  - cbn [split_go]. rewrite starts_with_cons.
    destruct (Ascii.eqb c a) eqn:E; cbn [andb starts_with].
    + constructor; [exact Hcur | apply IH; reflexivity].
    + apply IH. rewrite has_char_app, Hcur. cbn [has_char orb].
      rewrite Ascii.eqb_sym, E. reflexivity.
Qed.

(** After the last occurrence of a character comes the last piece. *)
Lemma split_char_last (c : ascii) (name : string) :
  has_char c name = false ->
  forall base cur : string,
    List.last (split_go (String c "") 0 cur (base +:+ String c name)) "" = name.
Proof.
  intros Hname. induction base as [|a base IH]; intros cur.
  - change ("" +:+ String c name) with (String c "" +:+ name).
    rewrite split_go_at_sep by discriminate.
    rewrite split_go_whole by (apply has_char_contains; exact Hname). reflexivity.
  - change (String a base +:+ String c name) with (String a (base +:+ String c name)).
    cbn [split_go]. destruct (starts_with (String c "") (String a (base +:+ String c name))).
    + specialize (IH "").
      change (String.length (String c "") - 1)%nat with 0%nat.
      destruct (split_go (String c "") 0 "" (base +:+ String c name)) as [|x l] eqn:E.
      * exfalso. exact (split_go_nonempty _ _ _ _ E).
      * exact IH.
    + apply IH.
Qed.

Lemma Forall_last {A : Type} (P : A -> Prop) (l : list A) (d : A) :
  Forall P l -> P d -> P (List.last l d).
Proof.
  intros Hl Hd. induction Hl as [|x l Hx Hl IH]; [exact Hd |].
  destruct l; [exact Hx | exact IH].
Qed.

Lemma has_char_str_join_empty (c : ascii) (l : list string) :
  Forall (fun piece => has_char c piece = false) l ->
  has_char c (str_join "" l) = false.
Proof.
  induction 1 as [|x l Hx Hl IH]; [reflexivity |].
  destruct l as [|y l]; [exact Hx |].
  change (str_join "" (x :: y :: l)) with (x +:+ "" +:+ str_join "" (y :: l)).
  rewrite !has_char_app, Hx, IH. reflexivity.
Qed.

Lemma rstrip_char_snoc (c : ascii) (s : string) :
  rstrip_char c (s +:+ String c "") = rstrip_char c s.
Proof.
  induction s as [|a s IH].
  - simpl. rewrite Ascii.eqb_refl. reflexivity.
  - change (String a s +:+ String c "") with (String a (s +:+ String c "")).
    cbn [rstrip_char]. rewrite IH. reflexivity.
Qed.

Lemma rstrip_char_none (c : ascii) (s : string) :
  has_char c s = false -> rstrip_char c s = s.
Proof.
  induction s as [|a s IH]; [reflexivity |].
  cbn [has_char]. intros H. apply orb_false_iff in H as [Ha Hs].
  cbn [rstrip_char]. rewrite (IH Hs). destruct s; [rewrite Ha |]; reflexivity.
Qed.

Lemma rstrip_char_app (c : ascii) (y z : string) :
  rstrip_char c z <> "" -> rstrip_char c (y +:+ z) = y +:+ rstrip_char c z.
Proof.
  intros Hz. induction y as [|a y IH]; [reflexivity |].
  change (String a y +:+ z) with (String a (y +:+ z)).
  change (String a y +:+ rstrip_char c z) with (String a (y +:+ rstrip_char c z)).
  cbn [rstrip_char]. rewrite IH. destruct (y +:+ rstrip_char c z) eqn:E; [| reflexivity].
  destruct y; [change (rstrip_char c z = "") in E; contradiction | discriminate].
Qed.

(** A name without ".git", followed by ".git": the split finds the
    suffix and nothing before it. *)
Lemma split_git_suffix (name : string) :
  contains ".git" name = false ->
  forall cur : string, split_go ".git" 0 cur (name +:+ ".git") = [cur +:+ name; ""].
Proof.
  induction name as [|c n IH]; intros H cur.
  - change ("" +:+ ".git") with (".git" +:+ "").
    rewrite split_go_at_sep by discriminate. rewrite append_nil_r. reflexivity.
  - cbn [contains] in H. apply orb_false_iff in H as [Hs Hc].
    change (String c n +:+ ".git") with (String c (n +:+ ".git")).
    rewrite split_go_step.
    + rewrite IH by exact Hc. rewrite append_assoc. reflexivity.
    + apply not_true_is_false. intros E. apply starts_with_spec in E as [post E].
      destruct n as [|c1 [|c2 [|c3 n3]]]; vm_compute in E; try congruence.
      injection E as -> -> -> -> _. vm_compute in Hs. discriminate Hs.
Qed.

(** The directory name that [clone_repo] and [clone_github_repo] take
    from the URL.
    - It never holds a slash: the clone goes into the directory of the
      clones itself (for an empty name), or into one entry of it, which
      for the names "." and ".." is no subdirectory.
    - Slashes at the end of the URL are ignored.
    - For a URL that ends with a slash and a non-empty name without
      slash and without ".git", the name is that last component, with or
      without a ".git" after it. *)
Theorem repo_name_of_url (url base name : string) :
  has_char "/" (repo_name url) = false
  /\ repo_name (url +:+ "/") = repo_name url
  /\ (name <> "" -> has_char "/" name = false -> contains ".git" name = false ->
      repo_name (base +:+ "/" +:+ name) = name
      /\ repo_name (base +:+ "/" +:+ name +:+ ".git") = name).
Proof.
  split; [| split].
  - unfold repo_name, replace. apply has_char_str_join_empty.
    apply List.Forall_forall. intros piece Hpiece.
    apply (split_go_pieces _ _ 0 "" piece (fun H0 => ltac:(congruence))) in Hpiece.
    eapply has_char_substring; [exact Hpiece |].
    apply (Forall_last (fun piece => has_char "/" piece = false));
      [apply split_char_pieces |]; reflexivity.
  - unfold repo_name. rewrite rstrip_char_snoc. reflexivity.
  - intros Hne Hslash Hgit.
    assert (Hlast : forall tail : string,
              tail <> "" -> has_char "/" tail = false ->
              List.last (split "/" (rstrip_char "/" (base +:+ "/" +:+ tail))) "" = tail).
    { intros tail Ht Hs.
      rewrite <- append_assoc, rstrip_char_app; rewrite (rstrip_char_none _ _ Hs);
        [| exact Ht].
      rewrite append_assoc. apply split_char_last. exact Hs. }
    unfold repo_name, replace. split.
    + rewrite (Hlast name Hne Hslash). unfold split.
      rewrite split_go_whole by exact Hgit. reflexivity.
    + rewrite (Hlast (name +:+ ".git")).
      * unfold split. rewrite split_git_suffix by exact Hgit.
        change (str_join "" ["" +:+ name; ""]) with (name +:+ "" +:+ "").
        rewrite !append_nil_r. reflexivity.
      * destruct name; [congruence | discriminate].
      * rewrite has_char_app, Hslash. reflexivity.
Qed.

(** ** format_files *)

(** The boundary at the start of a text is decided by its first three
    bytes; a line feed completes none. *)
Lemma line_break_at_before_nl (u s m : string) :
  u <> "" -> line_break_at (u +:+ s) = 0%nat -> line_break_at (u +:+ nl +:+ m) = 0%nat.
Proof.
  intros Hu. destruct u as [|a [|b [|c u]]]; [congruence | | |].
  - change (String a "" +:+ s) with (String a s).
    change (String a "" +:+ nl +:+ m) with (String a (String (ascii_of_nat 10) m)).
    cbn [line_break_at]. change (nat_of_ascii (ascii_of_nat 10)) with 10%nat.
    cbn [Nat.eqb]. destruct (nat_of_ascii a =? 13)%nat.
    + destruct s as [|c2 s]; [discriminate |].
      destruct (nat_of_ascii c2 =? 10)%nat; discriminate.
    + destruct (is_line_break a); [discriminate |].
      destruct (nat_of_ascii a =? 194)%nat; [reflexivity |].
      destruct (nat_of_ascii a =? 226)%nat; [| reflexivity].
      intros _. destruct m; reflexivity.
  - change (String a (String b "") +:+ s) with (String a (String b s)).
    change (String a (String b "") +:+ nl +:+ m)
      with (String a (String b (String (ascii_of_nat 10) m))).
    cbn [line_break_at]. change (nat_of_ascii (ascii_of_nat 10)) with 10%nat.
    cbn [Nat.eqb orb]. rewrite andb_false_r.
    destruct (nat_of_ascii a =? 13)%nat; [auto |].
    destruct (is_line_break a); [auto |].
    destruct (nat_of_ascii a =? 194)%nat; [auto |].
    destruct (nat_of_ascii a =? 226)%nat; reflexivity.
  - intros H. exact H.
Qed.

Lemma no_line_break_before_nl (u s m : string) :
  no_line_break u s = true -> no_line_break u (nl +:+ m) = true.
Proof.
  induction u as [|a u IH]; [reflexivity |]. cbn [no_line_break].
  rewrite !andb_true_iff, !Nat.eqb_eq. intros [H Hu]. split; [| exact (IH Hu)].
  apply (line_break_at_before_nl _ s); [discriminate | exact H].
Qed.

Lemma no_line_break_snoc (u s : string) (c : ascii) :
  no_line_break (u +:+ String c "") s
  = no_line_break u (String c s) && (line_break_at (String c s) =? 0)%nat.
Proof.
  induction u as [|a u IH].
  - change ("" +:+ String c "") with (String c ""). cbn [no_line_break].
    change (String c "" +:+ s) with (String c s). rewrite andb_true_r. reflexivity.
  - change (String a u +:+ String c "") with (String a (u +:+ String c "")).
    cbn [no_line_break]. rewrite IH.
    change (String a (u +:+ String c "") +:+ s)
      with (String a ((u +:+ String c "") +:+ s)).
    rewrite append_assoc. change (String c "" +:+ s) with (String c s).
    change (String a u +:+ String c s) with (String a (u +:+ String c s)).
    rewrite andb_assoc. reflexivity.
Qed.

(** A stretch without line boundary is added to the current line. *)
Lemma splitlines_go_through (u : string) :
  forall cur s : string,
    no_line_break u s = true ->
    splitlines_go 0 cur (u +:+ s) = splitlines_go 0 (cur +:+ u) s.
Proof.
  induction u as [|a u IH]; intros cur s H.
  - rewrite append_nil_r. reflexivity.
  - cbn [no_line_break] in H. apply andb_true_iff in H as [Ha Hu].
    apply Nat.eqb_eq in Ha.
    change (String a u +:+ s) with (String a (u +:+ s)) in Ha |- *.
    cbn [splitlines_go]. rewrite Ha, IH by exact Hu.
    rewrite append_assoc. reflexivity.
Qed.

(** A line feed ends the current line. *)
Lemma splitlines_go_nl (cur s : string) :
  splitlines_go 0 cur (nl +:+ s) = cur :: splitlines_go 0 "" s.
Proof. reflexivity. Qed.

Lemma splitlines_of_joined (ls : list string) (m : string) :
  ls <> [] ->
  Forall (fun l => no_line_break l nl = true) ls ->
  splitlines (str_join nl ls +:+ nl +:+ m) = ls ++ splitlines m.
Proof.
  unfold splitlines. induction ls as [|x ls IH]; [congruence |]. intros _ Hls.
  apply Forall_cons in Hls as [Hx Hls]. destruct ls as [|y l].
  - cbn [str_join].
    rewrite splitlines_go_through by exact (no_line_break_before_nl _ _ _ Hx).
    rewrite splitlines_go_nl. reflexivity.
  - change (str_join nl (x :: y :: l)) with (x +:+ nl +:+ str_join nl (y :: l)).
    rewrite !append_assoc.
    rewrite splitlines_go_through by exact (no_line_break_before_nl _ _ _ Hx).
    rewrite splitlines_go_nl. rewrite <- !append_assoc.
    rewrite <- (append_assoc (str_join nl (y :: l)) nl m) in IH.
    change ("" +:+ x) with x. rewrite IH; [reflexivity | discriminate | exact Hls].
Qed.

Lemma splitlines_single (m : string) :
  m <> "" -> no_line_break m "" = true -> splitlines m = [m].
Proof.
  intros Hne H. unfold splitlines. rewrite <- (append_nil_r m) at 1.
  rewrite splitlines_go_through by exact H.
  destruct m; [congruence | reflexivity].
Qed.

(** The lines that [splitlines] returns hold no line boundary, and none
    begins in them when a line feed follows. *)
Lemma splitlines_go_no_break (s : string) :
  forall (skip : nat) (cur : string),
    (skip = 0%nat -> no_line_break cur s = true) ->
    (skip <> 0%nat -> cur = "") ->
    Forall (fun l => no_line_break l nl = true) (splitlines_go skip cur s).
Proof.
  induction s as [|c s IH]; intros skip cur Hcur Hskip.
  - cbn [splitlines_go]. destruct cur as [|a cur]; [constructor |].
    constructor; [| constructor].
    destruct skip as [|k]; [| discriminate (Hskip ltac:(discriminate))].
    apply (no_line_break_before_nl _ "" ""). exact (Hcur eq_refl).
  - cbn [splitlines_go]. destruct skip as [|k].
    + specialize (Hcur eq_refl). destruct (line_break_at (String c s)) as [|k] eqn:E.
      * apply IH; [| congruence]. intros _.
        rewrite no_line_break_snoc, Hcur, E. reflexivity.
      * constructor; [exact (no_line_break_before_nl _ _ "" Hcur) |].
        apply IH; [reflexivity | reflexivity].
    + apply IH; [| intros _; apply Hskip; discriminate].
      intros _. rewrite (Hskip ltac:(discriminate)). reflexivity.
Qed.

(** Plain characters start no boundary, whatever follows. *)
Lemma is_plain_no_line_break (u s : string) :
  is_plain u = true -> no_line_break u s = true.
Proof.
  induction u as [|a u IH]; [reflexivity |]. cbn [is_plain no_line_break].
  rewrite !andb_true_iff. intros [Ha Hu]. split; [| exact (IH Hu)].
  unfold is_plain_char in Ha. rewrite !andb_true_iff, !negb_true_iff in Ha.
  destruct Ha as [[Hb H194] H226].
  change (String a u +:+ s) with (String a (u +:+ s)). cbn [line_break_at].
  assert (H13 : (nat_of_ascii a =? 13)%nat = false).
  { destruct (Nat.eqb_spec (nat_of_ascii a) 13) as [E | _]; [| reflexivity].
    unfold is_line_break in Hb. rewrite E in Hb. discriminate. }
  rewrite H13, Hb, H194, H226. reflexivity.
Qed.

Lemma is_plain_app (a b : string) :
  is_plain (a +:+ b) = is_plain a && is_plain b.
Proof.
  induction a as [|x a IH]; [reflexivity |].
  change (is_plain (String x a +:+ b)) with (is_plain_char x && is_plain (a +:+ b)).
  rewrite IH. simpl. apply andb_assoc.
Qed.

Lemma str_of_int_plain (z : Z) : is_plain (str_of_int z) = true.
Proof.
  assert (Hu : forall d, is_plain (NilEmpty.string_of_uint d) = true).
  { induction d; simpl; auto. }
  assert (Hz : forall d, is_plain (NilZero.string_of_uint d) = true).
  { intros d. destruct d; try apply Hu. reflexivity. }
  unfold str_of_int. destruct (Z.to_int z); cbn [NilZero.string_of_int].
  - apply Hz.
  - cbn [is_plain]. rewrite Hz. reflexivity.
Qed.

(** How much of a file goes into the prompt. A content of at most 200
    lines goes in as it is, however long its lines are. Of a longer
    content the first 200 lines go in, followed by one line that notes the
    truncation. So no file contributes more than 201 lines. *)
Theorem content_preview_lines (content : string) :
  ((length (splitlines content) <= 200)%nat -> content_preview content = content)
  /\ ((200 < length (splitlines content))%nat ->
      exists note,
        splitlines (content_preview content) = take 200 (splitlines content) ++ [note])
  /\ (length (splitlines (content_preview content)) <= 201)%nat.
Proof.
  assert (Hlong : (200 < length (splitlines content))%nat ->
            exists note,
              splitlines (content_preview content)
              = take 200 (splitlines content) ++ [note]).
  { intros Hlen. unfold content_preview.
    destruct (Nat.ltb_spec 200 (length (splitlines content))) as [_ | H]; [| lia].
    set (note := "... [truncated, "
                 +:+ str_of_int (Z.of_nat (length (splitlines content)) - Z.of_nat 200)
                 +:+ " more lines]").
    exists note. rewrite splitlines_of_joined.
    - rewrite (splitlines_single note); [reflexivity | discriminate |].
      apply is_plain_no_line_break.
      unfold note. rewrite !is_plain_app, str_of_int_plain. reflexivity.
    - destruct (splitlines content); [simpl in Hlen; lia | discriminate].
    - apply Forall_take. apply splitlines_go_no_break; [reflexivity | congruence]. }
  split; [| split; [exact Hlong |]].
  - intros Hlen. unfold content_preview.
    destruct (Nat.ltb_spec 200 (length (splitlines content))) as [H | _]; [lia | reflexivity].
  - destruct (Nat.le_gt_cases (length (splitlines content)) 200) as [Hle | Hgt].
    + unfold content_preview.
      destruct (Nat.ltb_spec 200 (length (splitlines content))) as [H | _]; lia.
    + destruct (Hlong Hgt) as [note ->]. rewrite length_app, length_take.
      cbn [length]. lia.
Qed.

(** ** extract_rule_info *)

Lemma project_fields (d : dict pyval) (keys : list string) :
  traverse (fun key => v <~ py_get (PDict d) key PNone; Ret (key, v)) keys
  = Ret (map (fun key => (key, dict_get_or key PNone d)) keys).
Proof.
  induction keys as [|k keys IH]; [reflexivity |].
  cbn [traverse]. rewrite IH. reflexivity.
Qed.

Lemma dict_get_or_projection (d : dict pyval) (keys : list string) (k : string) :
  In k keys ->
  dict_get_or k PNone (map (fun key => (key, dict_get_or key PNone d)) keys)
  = dict_get_or k PNone d.
Proof.
  induction keys as [|a keys IH]; intros Hk; [destruct Hk |].
  unfold dict_get_or at 1. cbn [map dict_get].
  destruct (String.eqb_spec k a) as [-> | Hne]; [reflexivity |].
  destruct Hk as [-> | Hk]; [congruence |]. apply IH. exact Hk.
Qed.

(** Projecting a projected item gives the same fields. *)
Lemma project_again (keys : list string) (p : pyval) (fields : dict pyval) :
  traverse (fun key => v <~ py_get p key PNone; Ret (key, v)) keys = Ret fields ->
  traverse (fun key => v <~ py_get (PDict fields) key PNone; Ret (key, v)) keys
  = Ret fields.
Proof.
  intros H.
  assert (Hd : forall d, p = PDict d ->
            traverse (fun key => v <~ py_get (PDict fields) key PNone; Ret (key, v)) keys
            = Ret fields).
  { intros d ->. rewrite project_fields in H. injection H as <-.
    rewrite project_fields. f_equal. apply map_ext_in. intros k Hk.
    rewrite dict_get_or_projection by exact Hk. reflexivity. }
  destruct p; try (destruct keys; [injection H as <-; reflexivity | discriminate H]).
  eapply Hd. reflexivity.
Qed.

Lemma project_items_again (rule rule' : dict pyval) (section name : string)
    (keys : list string) (v : pyval) (d' : dict pyval) :
  project_items rule section name keys = Ret v ->
  dict_get_or section (PDict []) rule' = PDict d' ->
  dict_get_or name (PList []) d' = v ->
  project_items rule' section name keys = Ret v.
Proof.
  unfold project_items. intros H -> Hv. cbn [py_get obind]. rewrite Hv. clear Hv.
  destruct (py_get (dict_get_or section (PDict []) rule) name (PList [])) as [items | e];
    [| discriminate].
  cbn [obind] in H. destruct (py_iter items) as [l | e]; [| discriminate].
  cbn [obind] in H.
  set (project := fun p => fields <~ traverse (fun key => v <~ py_get p key PNone;
                                                          Ret (key, v)) keys;
                           Ret (PDict fields)) in *.
  destruct (traverse project l) as [projected | e] eqn:E; [| discriminate].
  cbn [obind] in H. injection H as <-. cbn [py_iter obind].
  assert (Hfix : traverse project projected = Ret projected).
  { clear d'. revert projected E. induction l as [|p l IH]; intros projected.
    - intros [= <-]. reflexivity.
    - cbn [traverse]. unfold project at 1.
      destruct (traverse (fun key => v <~ py_get p key PNone; Ret (key, v)) keys)
        as [fields | e] eqn:Ep; [| discriminate].
      cbn [obind]. destruct (traverse project l) as [rest | e]; [| discriminate].
      cbn [obind]. intros [= <-]. cbn [traverse]. unfold project at 1.
      rewrite (project_again keys p fields Ep). cbn [obind].
      rewrite (IH rest eq_refl). reflexivity. }
  rewrite Hfix. reflexivity.
Qed.

(** [extract_rule_info] keeps nine keys of a rule, and what it returns is
    a fixed point: extracting from the extract gives the extract again.
    A key of the rule outside these nine (check_type, agent_prompt, ...)
    is not handed on. *)
Theorem extract_rule_info_idempotent (rule info : dict pyval) :
  extract_rule_info rule = Ret info ->
  extract_rule_info info = Ret info
  /\ dict_keys info
     = [ "id"; "title"; "article"; "article_url"; "priority"; "description";
         "code_checks"; "document_checks"; "scoring" ].
Proof.
  unfold extract_rule_info at 1. intros H.
  destruct (py_get (dict_get_or "code_checks" (PDict []) rule) "enabled" (PBool false))
    as [code_enabled | e]; [| discriminate].
  cbn [obind] in H.
  destruct (project_items rule "code_checks" "red_patterns" _) as [red | e] eqn:Hred;
    [| discriminate].
  cbn [obind] in H.
  destruct (project_items rule "code_checks" "green_patterns" _) as [green | e] eqn:Hgreen;
    [| discriminate].
  cbn [obind] in H.
  destruct (py_get (dict_get_or "document_checks" (PDict []) rule) "enabled" (PBool false))
    as [document_enabled | e]; [| discriminate].
  cbn [obind] in H.
  destruct (py_get (dict_get_or "document_checks" (PDict []) rule) "required_sections"
              (PList [])) as [required_sections | e]; [| discriminate].
  cbn [obind] in H.
  destruct (py_get (dict_get_or "document_checks" (PDict []) rule) "must_contain_keywords"
              (PList [])) as [must_contain_keywords | e]; [| discriminate].
  cbn [obind] in H.
  destruct (py_get (dict_get_or "document_checks" (PDict []) rule) "must_not_contain"
              (PList [])) as [must_not_contain | e]; [| discriminate].
  cbn [obind] in H.
  destruct (project_items rule "document_checks" "red_flags_text" _) as [flags | e] eqn:Hflags;
    [| discriminate].
  cbn [obind] in H.
  destruct (py_get (dict_get_or "document_checks" (PDict []) rule) "green_flags_text"
              (PList [])) as [green_flags_text | e]; [| discriminate].
  cbn [obind] in H. injection H as <-.
  split; [| reflexivity].
  match goal with |- extract_rule_info ?i = _ => set (info := i) end.
  { unfold extract_rule_info.
    rewrite (project_items_again rule info "code_checks" "red_patterns" _ red _
               Hred eq_refl eq_refl).
    rewrite (project_items_again rule info "code_checks" "green_patterns" _ green _
               Hgreen eq_refl eq_refl).
    rewrite (project_items_again rule info "document_checks" "red_flags_text" _ flags _
               Hflags eq_refl eq_refl).
    reflexivity. }
Qed.

(** ** An empty listing *)

Section EmptyListing.
Context (rt : runtime) (env : environment).

(** With nothing listed, nothing is selected and nothing is asked. *)
Lemma select_files_empty_listing (rule : dict pyval) (repo : repository)
    (c : client) (w : world) :
  code_files repo = [] -> doc_files repo = [] ->
  well_typed_code_checks rule ->
  select_files rt env rule repo c w = (Ret [], w).
Proof.
  intros Hcode Hdocs (cc & ks & ps & Hcc & Hks & Hstr & _ & _).
  unfold select_files, bind, lift, ret. rewrite Hcc, Hcode, Hdocs. cbn [py_get].
  assert (Hd : (if in_strs (dict_get_or "check_type" (PStr "both") rule)
                     ["document"; "both"] then [] else []) = ([] : list string)).
  { destruct (in_strs _ _); reflexivity. }
  rewrite Hd.
  destruct (in_strs _ ["code"; "both"]); [| reflexivity].
  destruct (truthy _); [| reflexivity]. rewrite Hks.
  assert (Hfilter : filter_by_keywords_value rt [] (PList ks) = Ret []).
  { unfold filter_by_keywords_value. destruct (truthy (PList ks)); [| reflexivity].
    cbn [keyword_items].
    destruct (traverse_returns is_str
                (fun k => match k with
                          | PStr s0 => Ret s0
                          | _ => Raise (Exn AttributeError
                                          ("'" +:+ type_name k
                                           +:+ "' object has no attribute 'lower'"))
                          end) ks) as [out ->]; [| exact Hstr |].
    - intros [| | | |s0| |] []. eauto.
    - cbn [obind]. destruct out; reflexivity. }
  rewrite Hfilter. reflexivity.
Qed.

(** A repository in which the listing holds no code file and no
    document (nothing but files of other extensions, say) passes every
    rule whose code checks are well typed: [analyze_rule] returns
    passed = True and score = 100 and never calls the provider. *)
Theorem analyze_rule_empty_listing (rule : dict pyval) (repo : repository)
    (c : client) (w : world) :
  code_files repo = [] -> doc_files repo = [] ->
  well_typed_code_checks rule ->
  analyze_rule rt env rule repo (Some c) w = (Ret (no_files_result rule), w)
  /\ dict_get "passed" (no_files_result rule) = Some (PBool true)
  /\ dict_get "score" (no_files_result rule) = Some (PInt 100).
Proof.
  intros Hcode Hdocs Hwt. split; [| split; reflexivity].
  rewrite analyze_rule_after_selection.
  rewrite (select_files_empty_listing rule repo c w Hcode Hdocs Hwt). reflexivity.
Qed.

(** The exclusion test looks at every component of the full path, those
    of the repository root included. When a component of the root is
    itself an excluded name (a clone named build, dist, bin, env, target,
    vendor, ... under cloned_repos), every file is skipped and both lists
    are empty; [analyze_rule] on that repository then returns the passing
    result for every rule with well-typed code checks, without a call to
    the provider. *)
Theorem get_all_files_excluded_root (repo_parts : list string)
    (paths : list dir_entry) (component : string) :
  In component repo_parts -> In component EXCLUDED_DIRS ->
  get_all_files repo_parts paths = [("code_files", []); ("doc_files", [])]
  /\ (forall rule read c w,
        well_typed_code_checks rule ->
        analyze_rule rt env rule (repository_at repo_parts paths read) (Some c) w
        = (Ret (no_files_result rule), w)).
Proof.
  intros Hroot Hex.
  assert (Hall : forall p, is_excluded (repo_parts ++ parts_below p) = true).
  { intros p. unfold is_excluded. apply existsb_exists. exists component.
    split; [exact Hex |]. unfold in_set. apply existsb_exists. exists component.
    split; [apply in_or_app; left; exact Hroot | apply String.eqb_refl]. }
  assert (Hnone : forall f : dir_entry -> bool,
            (forall p, f p = false) -> List.filter f paths = []).
  { intros f Hf. induction paths as [|p l IH]; [reflexivity |].
    simpl. rewrite Hf. exact IH. }
  assert (Hempty : get_all_files repo_parts paths
                   = [("code_files", []); ("doc_files", [])]).
  { rewrite get_all_files_spec.
    rewrite (Hnone (listed_as_code repo_parts)), (Hnone (listed_as_doc repo_parts)).
    - reflexivity.
    - intros p. unfold listed_as_doc. rewrite Hall. cbn [negb].
      rewrite andb_false_r. reflexivity.
    - intros p. unfold listed_as_code. rewrite Hall. cbn [negb].
      rewrite andb_false_r. reflexivity. }
  split; [exact Hempty |].
  intros rule read c w Hwt. rewrite analyze_rule_after_selection.
  rewrite (select_files_empty_listing rule _ c w); [reflexivity | | | exact Hwt];
    unfold repository_at; rewrite Hempty; reflexivity.
Qed.

End EmptyListing.

(* ===================================================================== *)
(** * Worked examples *)
(* ===================================================================== *)

Section WorkedExamples.
Import JsonSubset Examples.

Example lower_example : lower "src/Cookie.JS" = "src/cookie.js".
Proof. reflexivity. Qed.

Example split_example :
  split "```" "a```b```c" = ["a"; "b"; "c"] /\ split "```" "a```" = ["a"; ""].
Proof. split; reflexivity. Qed.

Example search_examples :
  search_braces "x {a} y {b} z" = Some "{a} y {b}"
  /\ search_brackets "x [a] y [b] z" = Some "[a]"
  /\ search_braces "} {" = None.
Proof. repeat split; reflexivity. Qed.

Example int_of_str_examples :
  int_of_str " 42 " = Some 42%Z /\ int_of_str "-1_000" = Some (-1000)%Z
  /\ int_of_str "abc" = None /\ int_of_str "" = None /\ int_of_str "1__0" = None
  /\ str_of_int (-30) = "-30" /\ str_of_int 0 = "0".
Proof. repeat split; reflexivity. Qed.

Example round_half_even_examples :
  round_half_even (141 # 2) = 70%Z /\ round_half_even (143 # 2) = 72%Z
  /\ round_half_even (-3 # 2) = (-2)%Z /\ round_half_even (7 # 4) = 2%Z.
Proof. repeat split; reflexivity. Qed.

Example loads_examples :
  loads reply_passed_null
  = Some (PDict [("passed", PNone); ("violations", PList []); ("score", PInt 50)])
  /\ loads "bad" = None
  /\ loads "[1, 2" = None
  /\ loads reply_two_arrays = None.
Proof. repeat split; reflexivity. Qed.

(** Fenced input parses like the unfenced body. *)
Example fenced_reply_example :
  parse_json_response python ("```json" +:+ reply_passed +:+ "```")
  = parse_json_response python reply_passed
  /\ parse_json_response python reply_passed
     = Ret [("passed", PBool true); ("violations", PList []); ("score", PInt 90)].
Proof. split; reflexivity. Qed.

(** C4 on the test of the file selector: three candidates, at most five,
    no client and no API key; nothing is called. *)
Lemma select_best_files_small_witness :
  select_best_files python offline ["src/cookie.js"; "src/auth.py"; "src/api.js"] [] 5
    None []
  = (Ret ["src/cookie.js"; "src/auth.py"; "src/api.js"], []).
Proof. apply select_best_files_small. simpl. lia. Defined.


(** The test of the file selector: eight candidates, at most five, and a
    provider that raises give the first five candidates. *)
Example select_best_files_provider_raises :
  (select_best_files python offline large_files [] 5
     (Some (failing "Featherless API error: timeout")) []).1
  = Ret [ "src/cookie.js"; "src/auth.py"; "src/api.js"; "src/analytics.js";
          "src/tracking.js" ].
Proof. reflexivity. Qed.


(** C5 does not hold as stated. In object mode the object outside the
    fence is not found, because only the text inside the fence is
    searched; in array mode the lazy span stops at the first closing
    bracket, where a greedy one would run to the last. *)
Lemma fallback_search_counterexample :
  parse_json_response python reply_object_outside_fence
  <> parse_json_response_as_specified python reply_object_outside_fence
  /\ parse_file_selection_response python reply_two_arrays ["a.js"; "b.js"]
     <> parse_file_selection_as_specified python reply_two_arrays ["a.js"; "b.js"].
Proof. split; vm_compute; discriminate. Qed.

(** C5 on an analysis between two sentences: the direct parse fails, the
    span from the first opening brace to the last closing brace is found
    and read. *)
Lemma fallback_searches_fence_stripped_text_witness :
  parse_json_response python reply_in_prose
  = Ret [("passed", PBool true); ("violations", PList []); ("score", PInt 90)].
Proof.
  destruct (fallback_searches_fence_stripped_text python reply_in_prose [])
    as [Hobject _].
  - exists (Exn JSONDecodeError "Expecting value"). split; reflexivity.
  - destruct (Hobject "Here is the analysis: " analysis_body " Done."
                eq_refl eq_refl eq_refl) as [Hread _].
    rewrite (Hread (PDict [("passed", PBool true); ("violations", PList []);
                           ("score", PInt 90)]) eq_refl).
    reflexivity.
Defined.

(** On the reply with an object outside its fence the text searched is
    "bad", so nothing is found; of two arrays in prose the first is read. *)
Example fallback_search_examples :
  remove_code_fences (strip reply_object_outside_fence) = "bad"
  /\ parse_json_response python reply_object_outside_fence
     = Raise (no_json_found reply_object_outside_fence)
  /\ parse_file_selection_response python reply_two_arrays ["a.js"; "b.js"]
     = Ret ["a.js"].
Proof. repeat split; reflexivity. Qed.

(** C2 fails on a reply whose verdict is null: the result has passed =
    None and no "error" key. *)
Theorem analyze_rule_passed_null_without_error :
  (analyze_rule python offline document_rule doc_repo
     (Some (always reply_passed_null)) []).1
  = Ret [ ("passed", PNone); ("violations", PList []); ("score", PInt 50);
          ("rule_id", PStr "lifecycle_001");
          ("files_analyzed", PList [PStr "README.md"]) ].
Proof. reflexivity. Qed.

(** C1 does not hold as stated. The only file cannot be read, and the
    result is the parsed reply, not an error result. When the provider
    then raises an exception without text, the error result lists no file,
    although one was attempted, and its error string is empty. *)
Lemma analyze_rule_read_failure_counterexample :
  read_file unreadable_doc_repo "README.md"
  = Raise (Exn FileNotFoundError "File not found: README.md")
  /\ (analyze_rule python offline document_rule unreadable_doc_repo
       (Some (always reply_passed)) []).1
     = Ret [ ("passed", PBool true); ("violations", PList []); ("score", PInt 90);
             ("rule_id", PStr "lifecycle_001"); ("files_analyzed", PList []) ]
  /\ (analyze_rule python offline document_rule unreadable_doc_repo
       (Some (failing "")) []).1
     = Ret [ ("rule_id", PStr "lifecycle_001"); ("passed", PNone);
             ("violations", PList []); ("score", PInt 0);
             ("files_analyzed", PList []); ("error", PStr "") ].
Proof. repeat split; reflexivity. Qed.

(** C1 on a provider that raises: the error result, with the file read. *)
Lemma analyze_rule_returns_witness :
  (analyze_rule python offline document_rule doc_repo
     (Some (failing "Featherless API error: timeout")) []).1
  = Ret [ ("rule_id", PStr "lifecycle_001"); ("passed", PNone);
          ("violations", PList []); ("score", PInt 0);
          ("files_analyzed", PList [PStr "README.md"]);
          ("error", PStr "Featherless API error: timeout") ].
Proof.
  destruct (analyze_rule_returns python offline document_rule doc_repo
              (failing "Featherless API error: timeout") [] [] ["README.md"] eq_refl)
    as (result & w2 & Heq & _ & _ & Hcall).
  rewrite Heq. simpl. f_equal.
  destruct (Hcall ltac:(discriminate)) as (_ & Hraise & _).
  rewrite (Hraise _ _ eq_refl eq_refl). reflexivity.
Defined.

(** C10 does not hold as stated: eight code files match, the provider is
    asked to choose and chooses none, and the passing result is returned
    with one call in the log. *)
Lemma analyze_rule_no_files_counterexample :
  (analyze_rule python offline code_rule code_repo (Some (always "[]")) []).1
  = Ret (no_files_result code_rule)
  /\ length (analyze_rule python offline code_rule code_repo (Some (always "[]")) []).2
     = 1%nat.
Proof. split; reflexivity. Qed.

(** C10 on a rule whose code checks are switched off, in a repository
    without documents: nothing is called. *)
Lemma analyze_rule_no_files_witness :
  analyze_rule python offline disabled_rule code_repo
    (Some (failing "not called")) []
  = (Ret (no_files_result disabled_rule), []).
Proof.
  exact (proj1 (analyze_rule_no_files python offline disabled_rule code_repo
                  (failing "not called") [] [] eq_refl)).
Defined.

(** C8 does not hold as stated, for every list of rule results.
    - A score that is NaN passes the test of the comprehension, and
      [round] raises on the average: no report is returned.
    - A violation mapping held by two results carries the rule id of the
      second one: the first entry of the violations list, which comes from
      the result "consent_001", is stamped "consent_003".
    - The average is a float: for the single score 2^53 + 1 the score of
      the report is 2^53, not the mean rounded to the nearest integer; and
      for the scores 3 * (2^51 + 1) + 1, 0 and 0, each of which a float
      holds exactly, the quotient 2^51 + 1 1/3 is rounded to the float
      2^51 + 1 1/2, and the score of the report is 2^51 + 2. *)
Lemma aggregate_results_report_counterexample :
  (aggregate_results [RuleResult (Some (PFloat FNan)) (Some []) (Some (PStr "consent_001"))]
     ∅).1
  = Raise (Exn ValueError "cannot convert float NaN to integer")
  /\ (let shared :=
        [ RuleResult (Some (PInt 80)) (Some [0]) (Some (PStr "consent_001"));
          RuleResult (Some (PInt 60)) (Some [0]) (Some (PStr "consent_003")) ] in
      (aggregate_results shared three_violations).1 = Ret (Report 70 [0; 0] 2)
      /\ (aggregate_results shared three_violations).2 !! 0
         = Some [("file", PStr "src/cookie.js"); ("line", PInt 42);
                 ("rule_id", PStr "consent_003")])
  /\ (aggregate_results [RuleResult (Some (PInt (2 ^ 53 + 1))) None None] ∅).1
     = Ret (Report (2 ^ 53) [] 1)
  /\ round_half_even (mean [inject_Z (2 ^ 53 + 1)]) = (2 ^ 53 + 1)%Z
  /\ (aggregate_results
        [ RuleResult (Some (PInt (3 * (2 ^ 51 + 1) + 1))) None None;
          RuleResult (Some (PInt 0)) None None;
          RuleResult (Some (PInt 0)) None None ] ∅).1
     = Ret (Report (2 ^ 51 + 2) [] 3)
  /\ round_half_even (mean [inject_Z (3 * (2 ^ 51 + 1) + 1); 0%Q; 0%Q]) = (2 ^ 51 + 1)%Z.
Proof. repeat split; vm_compute; reflexivity. Qed.

(** C8 on the scores 80, None, 60 and a score that is no number: the
    score is 70, the three violations come back in order, and the second
    one now names its rule. *)
Lemma aggregate_results_report_witness :
  exists st',
    aggregate_results four_results three_violations
    = (Ret (Report 70 [0; 1; 2] 4), st')
    /\ st' !! 1
       = Some [("file", PStr "src/auth.py"); ("line", PNone);
               ("rule_id", PStr "consent_003")].
Proof.
  destruct (aggregate_results_report four_results three_violations)
    as (rep & st' & Heq & _ & _ & _ & _ & Hstamp & _).
  - repeat constructor; intros [f Hf]; discriminate Hf.
  - vm_compute. reflexivity.
  - apply (bool_decide_unpack _). reflexivity.
  - exists st'. split.
    + rewrite Heq. f_equal. vm_compute in Heq. congruence.
    + apply (Hstamp (RuleResult (Some (PInt 60)) (Some [1; 2]) (Some (PStr "consent_003")))
               1 [("file", PStr "src/auth.py"); ("line", PNone)]).
      * right. right. left. reflexivity.
      * left. reflexivity.
      * reflexivity.
Defined.

(** A bool counts as an int, and a tie goes to the even integer: the
    scores True and 80 have the mean 40 1/2 and give 40. An int beyond
    the float range makes the division raise, and nothing is written. *)
Example aggregate_results_examples :
  (aggregate_results
     [ RuleResult (Some (PBool true)) None None;
       RuleResult (Some (PInt 80)) None None ] ∅).1
  = Ret (Report 40 [] 2)
  /\ aggregate_results
       [ RuleResult (Some (PInt (2 ^ 1024))) (Some [0]) (Some (PStr "consent_001")) ]
       three_violations
     = (Raise division_overflow, three_violations).
Proof. split; vm_compute; reflexivity. Qed.

(** C9 does not hold as stated: the call changes the violation object of
    its input, which gains the key "rule_id". *)
Lemma aggregate_results_mutates_counterexample :
  three_violations !! 0 = Some [("file", PStr "src/cookie.js"); ("line", PInt 42)]
  /\ (aggregate_results three_results three_violations).2 !! 0
     = Some [("file", PStr "src/cookie.js"); ("line", PInt 42);
             ("rule_id", PStr "consent_001")]
  /\ (aggregate_results three_results three_violations).2 <> three_violations.
Proof.
  split; [reflexivity |]. split; [reflexivity |].
  intros H. apply (f_equal (fun m : store => m !! 0)) in H. vm_compute in H. discriminate.
Qed.

(** The sanitized fields on a reply whose score is 150. *)
Lemma validate_and_sanitize_response_fields_witness :
  exists result,
    parse_json_response python reply_score_150 = Ret result
    /\ dict_get "passed" result = Some (PBool false)
    /\ dict_get "score" result = Some (PInt 100).
Proof.
  eexists. split; [reflexivity |].
  destruct (validate_and_sanitize_response_fields python
              [("passed", PBool false); ("violations", PList []); ("score", PInt 150)]
              [("passed", PBool false); ("violations", PList []); ("score", PInt 100)]
              eq_refl) as (Hpassed & _ & _).
  split; [exact Hpassed | reflexivity].
Defined.

(** The error result of a failed completion call has passed = None. *)
Lemma analyze_rule_result_shape_witness :
  exists result,
    (analyze_rule python offline document_rule doc_repo
       (Some (failing "Featherless API error: timeout")) []).1 = Ret result
    /\ dict_get "error" result = Some (PStr "Featherless API error: timeout")
    /\ dict_get "passed" result = Some PNone.
Proof.
  eexists. split; [reflexivity |]. split; [reflexivity |].
  refine (proj1 (analyze_rule_result_shape python offline document_rule doc_repo
                   (failing "Featherless API error: timeout") [] _ _ eq_refl) _).
  discriminate.
Defined.

(** Unknown file names are dropped from the selection, by both parsers. *)
Example unknown_files_are_dropped :
  parse_file_selection_response python reply_unknown_file ["a.js"; "b.py"]
  = Ret ["a.js"]
  /\ parse_llm_file_selection python reply_unknown_file ["a.js"; "b.py"]
     = Ret ["a.js"].
Proof. split; reflexivity. Qed.

(** The rule that checks code has well-typed code checks, so its analysis
    returns even when every call to the provider fails. *)
Lemma analyze_rule_never_raises_witness :
  exists result w',
    analyze_rule python offline code_rule code_repo (Some (failing "503")) []
    = (Ret result, w').
Proof.
  apply analyze_rule_never_raises.
  exists [("enabled", PBool true); ("file_keywords", PList [PStr "src"])],
    [PStr "src"], [].
  repeat split; try reflexivity; repeat constructor.
Defined.

(** ** The further code on concrete inputs *)

Example suffix_examples :
  suffix "a.py" = ".py" /\ suffix ".py" = "" /\ suffix "a." = ""
  /\ suffix "a.b.c" = ".c" /\ suffix "..py" = ".py" /\ suffix "Makefile" = ""
  /\ suffix ".gitignore" = "" /\ suffix "x.tar.gz" = ".gz".
Proof. repeat split; reflexivity. Qed.

Example splitlines_examples :
  let cr := String (ascii_of_nat 13) "" in
  let next_line := String (ascii_of_nat 194) (String (ascii_of_nat 133) "") in
  let line_separator :=
    String (ascii_of_nat 226) (String (ascii_of_nat 128) (String (ascii_of_nat 168) "")) in
  let e_acute := String (ascii_of_nat 195) (String (ascii_of_nat 169) "") in
  splitlines "" = [] /\ splitlines nl = [""] /\ splitlines ("a" +:+ nl) = ["a"]
  /\ splitlines ("a" +:+ nl +:+ nl) = ["a"; ""]
  /\ splitlines ("a" +:+ cr +:+ nl +:+ "b") = ["a"; "b"]
  /\ splitlines ("a" +:+ cr +:+ cr +:+ nl +:+ "b") = ["a"; ""; "b"]
  /\ splitlines "ab" = ["ab"]
  /\ splitlines ("a" +:+ next_line +:+ "b" +:+ line_separator +:+ "c") = ["a"; "b"; "c"]
  /\ splitlines ("caf" +:+ e_acute +:+ nl +:+ "b") = ["caf" +:+ e_acute; "b"].
Proof. repeat split; reflexivity. Qed.

Example repo_name_examples :
  repo_name "https://github.com/LyCrash/FakeRepo4-COMPLY.AI" = "FakeRepo4-COMPLY.AI"
  /\ repo_name "https://github.com/u/repo.git/" = "repo"
  /\ repo_name "https://github.com/u/my.github.io" = "myhub.io"
  /\ repo_name "https://x/.." = ".."
  /\ repo_name "https://github.com/u/.git" = ""
  /\ repo_name "a/b.g.gitit" = "b.git".
Proof. repeat split; reflexivity. Qed.

Example get_all_files_example :
  get_all_files ["cloned_repos"; "demo"] demo_paths
  = [ ("code_files", ["src/Banner.JSX"; "src/app.py"]);
      ("doc_files", ["README.md"; "docs/PRIVACY.MD"]) ].
Proof. vm_compute. reflexivity. Qed.

(** A reply that is a JSON object holding the list: the parser of
    file_selector.py gives nothing, the parser of json_parser.py finds
    the list. *)
Example file_list_parsers_differ :
  let reply := "{" +:+ quoted "files" +:+ ": [" +:+ quoted "a.js" +:+ "]}" in
  parse_file_selection_response python reply ["a.js"; "b.py"] = Ret []
  /\ parse_llm_file_selection python reply ["a.js"; "b.py"] = Ret ["a.js"].
Proof. split; reflexivity. Qed.

(** The violations of a sanitized analysis: the mapping is rebuilt with
    its line cast to an int, the entry that is no mapping is dropped. *)
Lemma validate_and_sanitize_response_violations_witness :
  exists result sanitized,
    validate_and_sanitize_response python (PDict data_two_violations) = Ret result
    /\ dict_get "violations" result = Some (PList (map PDict sanitized))
    /\ length sanitized = 1%nat
    /\ Forall sanitized_violation sanitized.
Proof.
  eexists. 
  destruct (validate_and_sanitize_response_violations python data_two_violations _ eq_refl)
    as (sanitized & Hget & _ & Hlen & Hshape).
  exists sanitized. split; [reflexivity |]. split; [exact Hget |].
  split; [exact Hlen | exact Hshape].
Defined.

(** Eight candidates, at most five, and a reply that names one candidate
    and one unknown file. *)
Lemma select_best_files_sound_witness :
  exists selected w',
    select_best_files python offline large_files [] 5 (Some (always reply_one_known)) []
    = (Ret selected, w')
    /\ (forall f, In f selected -> In f large_files)
    /\ (Z.of_nat (length selected) <= 5)%Z
    /\ (w' = [] \/ exists p, w' = [] ++ [p]).
Proof.
  eexists _, _. split; [reflexivity |].
  apply (select_best_files_sound python offline large_files [] 5
           (Some (always reply_one_known))); [lia | reflexivity].
Defined.

(** One readable document and a well-formed analysis: the result names
    the rule and the document, after one call. *)
Lemma analyze_rule_footprint_witness :
  exists result w',
    analyze_rule python offline document_rule doc_repo (Some (always reply_passed)) []
    = (Ret result, w')
    /\ dict_get "rule_id" result = Some (PStr "lifecycle_001")
    /\ exists calls, w' = [] ++ calls /\ (length calls <= 2)%nat.
Proof.
  destruct (analyze_rule python offline document_rule doc_repo
              (Some (always reply_passed)) []) as [[result | e] w'] eqn:E;
    [| vm_compute in E; discriminate E].
  exists result, w'. split; [reflexivity |].
  destruct (analyze_rule_footprint python offline document_rule doc_repo
              (always reply_passed) [] w' result E) as (Hid & _ & (calls & Hw & Hlen & _)).
  split; [exact Hid |]. exists calls. split; [exact Hw | exact Hlen].
Defined.

(** The scores 80 and 60 lie between 0 and 100, and so does the score of
    the report. *)
Lemma aggregate_results_score_range_witness :
  exists rep st',
    aggregate_results three_results three_violations = (Ret rep, st')
    /\ (0 <= score rep <= 100)%Z.
Proof.
  apply aggregate_results_score_range.
  intros n Hn. vm_compute in Hn.
  destruct Hn as [<- | [<- | []]]; (split; [exact I |]); split; discriminate.
Defined.

(** The three results with the first two exchanged. *)
Lemma aggregate_results_order_witness :
  let exchanged :=
    [ RuleResult (Some PNone) (Some []) (Some (PStr "consent_002"));
      RuleResult (Some (PInt 80)) (Some [0]) (Some (PStr "consent_001"));
      RuleResult (Some (PInt 60)) (Some [1; 2]) (Some (PStr "consent_003")) ] in
  (exists rep, (aggregate_results three_results three_violations).1 = Ret rep)
  /\ (aggregate_results three_results three_violations).2
     = (aggregate_results exchanged three_violations).2.
Proof.
  intros exchanged.
  destruct (aggregate_results_order three_results exchanged three_violations)
    as (_ & Hret & Hstore).
  - apply perm_swap.
  - repeat constructor; intros [f Hf]; discriminate Hf.
  - split; [apply Hret; vm_compute; reflexivity |].
    apply Hstore. apply (bool_decide_unpack _). reflexivity.
Defined.

(** A fenced analysis between two sentences. *)
Lemma fenced_reply_is_read_as_its_body_witness :
  parse_json_response python
    ("Here is the analysis: " +:+ "```json" +:+ reply_passed +:+ "```" +:+ " Done.")
  = Ret [("passed", PBool true); ("violations", PList []); ("score", PInt 90)].
Proof.
  destruct (fenced_reply_is_read_as_its_body python "Here is the analysis: "
              reply_passed " Done." [] eq_refl eq_refl eq_refl) as (_ & _ & _ & _ & H & _).
  apply H. reflexivity.
Defined.

(** Two orders of the same traversal. *)
Lemma get_all_files_traversal_order_witness :
  get_all_files ["cloned_repos"; "demo"]
    [DirEntry ["src"; "app.py"] true; DirEntry ["README.md"] true]
  = get_all_files ["cloned_repos"; "demo"]
      [DirEntry ["README.md"] true; DirEntry ["src"; "app.py"] true].
Proof. apply get_all_files_traversal_order. apply perm_swap. Defined.

(** A clone of a repository named build: nothing is listed, and the rule
    that checks code passes without a call. *)
Lemma get_all_files_excluded_root_witness :
  get_all_files ["cloned_repos"; "build"] demo_paths
  = [("code_files", []); ("doc_files", [])]
  /\ analyze_rule python offline code_rule
       (repository_at ["cloned_repos"; "build"] demo_paths (fun _ => Ret "print(1)"))
       (Some (failing "not called")) []
     = (Ret (no_files_result code_rule), []).
Proof.
  destruct (get_all_files_excluded_root python offline ["cloned_repos"; "build"]
              demo_paths "build") as [Hlisting Hrule].
  - right. left. reflexivity.
  - right. right. left. reflexivity.
  - split; [exact Hlisting |]. apply Hrule.
    exists [("enabled", PBool true); ("file_keywords", PList [PStr "src"])],
      [PStr "src"], [].
    repeat split; try reflexivity; repeat constructor.
Defined.

(** The extract of a catalog rule, extracted again. *)
Lemma extract_rule_info_idempotent_witness :
  exists info,
    extract_rule_info catalog_rule = Ret info
    /\ extract_rule_info info = Ret info
    /\ dict_get "agent_prompt" info = None.
Proof.
  eexists. split; [reflexivity |]. split; [| reflexivity].
  apply (extract_rule_info_idempotent catalog_rule). reflexivity.
Defined.

(** A repository of files that are neither code nor documentation for
    [get_all_files], under the rule that checks code. *)
Lemma analyze_rule_empty_listing_witness :
  analyze_rule python offline code_rule (Repository [] [] (fun _ => Ret ""))
    (Some (failing "not called")) []
  = (Ret (no_files_result code_rule), []).
Proof.
  apply (analyze_rule_empty_listing python offline code_rule
           (Repository [] [] (fun _ => Ret ""))); try reflexivity.
  exists [("enabled", PBool true); ("file_keywords", PList [PStr "src"])],
    [PStr "src"], [].
  repeat split; try reflexivity; repeat constructor.
Defined.

(** Sanitizing is not idempotent on a line given as "0": the first pass
    casts it to 0, the second pass turns the 0 into None. *)
Example sanitize_line_zero :
  exists once twice,
    validate_and_sanitize_response python
      (PDict [("violations", PList [PDict [("line", PStr "0")]])]) = Ret once
    /\ validate_and_sanitize_response python (PDict once) = Ret twice
    /\ (forall v, In (PDict v) (violations_list once) ->
                  dict_get "line" v = Some (PInt 0))
    /\ (forall v, In (PDict v) (violations_list twice) ->
                  dict_get "line" v = Some PNone).
Proof.
  eexists _, _. split; [reflexivity |]. split; [reflexivity |].
  split; intros v [[= <-] | []]; reflexivity.
Qed.

(** The analysis with two violations, sanitized and sanitized again. *)
Lemma validate_and_sanitize_response_again_witness :
  exists result,
    validate_and_sanitize_response python (PDict data_two_violations) = Ret result
    /\ validate_and_sanitize_response python (PDict result) = Ret result.
Proof.
  eexists. split; [reflexivity |].
  destruct (validate_and_sanitize_response_again python (PDict data_two_violations) _
              eq_refl) as (again & Hagain & _ & _ & Hsame).
  rewrite Hagain. f_equal. apply Hsame.
  intros v [[= <-] | []]. split; discriminate.
Defined.

(** [format_files] on one short file and [content_preview] on a content
    of 250 lines. *)
Example format_files_examples :
  format_files [("p", "x")]
  = nl +:+ "===== FILE: p =====" +:+ nl +:+ "x" +:+ nl +:+ "===== END OF p =====" +:+ nl
  /\ length (splitlines (content_preview (str_join nl (repeat "x" 250)))) = 201%nat
  /\ List.last (splitlines (content_preview (str_join nl (repeat "x" 250)))) ""
     = "... [truncated, 50 more lines]".
Proof. repeat split; vm_compute; reflexivity. Qed.

End WorkedExamples.
